(** * fklearn causal S-learner: [fklearn/causal/cate_learning/meta_learners.py]

    A shallow embedding of the meta-learner helpers and the properties of
    them that the specification states.

    Python objects that are mutated in place (pandas frames) live in a
    store and are passed around by reference; every helper is a
    computation in a store-and-exception monad in which a raised
    exception keeps the store writes made before it.  Numeric columns
    hold binary64 floating-point numbers ([float64]), with the
    processor's rounding, infinities and NaN; a decimal literal denotes
    the nearest binary64 number, as it does in Python.  The integer
    columns of the example frames, on which the module does no
    arithmetic, are held as the binary64 numbers of the same value. *)

From Stdlib Require Import ZArith Floats Lia.
From stdpp Require Import base option list strings gmap.

Set Warnings "-inexact-float".

Local Open Scope string_scope.
Local Open Scope list_scope.

(** ** Exceptions and results *)

Inductive exn : Type :=
  | MissingControlError
  | MissingTreatmentError
  | MultipleTreatmentsError
  | KeyError (key : string)
  | ValueError
  | TypeError
  | AttributeError
  | LearnerFailure (msg : string)
  | DanglingRef.

Inductive result (A : Type) : Type :=
  | Ok (a : A)
  | Raise (e : exn).
Arguments Ok {A} a.
Arguments Raise {A} e.

(** ** Ordered dictionaries

    A Python [dict] and the column axis of a frame both keep insertion
    order; assigning to a key that exists replaces the value where the
    key stands, assigning to a new key appends. *)

Definition odict (V : Type) : Type := list (string * V).

Fixpoint od_get {V} (d : odict V) (k : string) : option V :=
  match d with
  | [] => None
  | (k', v) :: d' => if String.eqb k k' then Some v else od_get d' k
  end.

Fixpoint od_set {V} (d : odict V) (k : string) (v : V) : odict V :=
  match d with
  | [] => [(k, v)]
  | (k', v') :: d' =>
      if String.eqb k k' then (k', v) :: d' else (k', v') :: od_set d' k v
  end.

Fixpoint od_del {V} (d : odict V) (k : string) : odict V :=
  match d with
  | [] => []
  | (k', v') :: d' =>
      if String.eqb k k' then od_del d' k else (k', v') :: od_del d' k
  end.

Definition od_keys {V} (d : odict V) : list string := map fst d.

Definition od_mem {V} (d : odict V) (k : string) : bool :=
  match od_get d k with Some _ => true | None => false end.

(** ** Frames *)

(** A column is homogeneous: labels ([object] dtype holding [str]) or
    numbers ([float64]). *)
Inductive column : Type :=
  | StrCol (l : list string)
  | NumCol (l : list float).

Definition col_len (c : column) : nat :=
  match c with
  | StrCol l => length l
  | NumCol l => length l
  end.

Record DataFrame : Type := mkDF {
  df_index : list Z;
  df_cols : odict column
}.

Definition nrows (v : DataFrame) : nat := length (df_index v).
Definition df_names (v : DataFrame) : list string := od_keys (df_cols v).

(** [df[name]] *)
Definition df_getitem (v : DataFrame) (name : string) : result column :=
  match od_get (df_cols v) name with
  | Some c => Ok c
  | None => Raise (KeyError name)
  end.

(** [df[name] = values] for an array of values: the length must be the
    number of rows. *)
Definition df_setitem (v : DataFrame) (name : string) (c : column)
  : result DataFrame :=
  if Nat.eqb (col_len c) (nrows v)
  then Ok (mkDF (df_index v) (od_set (df_cols v) name c))
  else Raise ValueError.

(** [df.drop(columns=[name])] *)
Definition df_drop (v : DataFrame) (name : string) : result DataFrame :=
  if od_mem (df_cols v) name
  then Ok (mkDF (df_index v) (od_del (df_cols v) name))
  else Raise (KeyError name).

(** Boolean-mask selection keeps the positions where the mask is true. *)
Fixpoint mask_filter {A} (m : list bool) (l : list A) : list A :=
  match m, l with
  | b :: m', x :: l' => if b then x :: mask_filter m' l' else mask_filter m' l'
  | _, _ => []
  end.

Definition col_mask (m : list bool) (c : column) : column :=
  match c with
  | StrCol l => StrCol (mask_filter m l)
  | NumCol l => NumCol (mask_filter m l)
  end.

(** [df.loc[mask, :]] *)
Definition df_loc_mask (v : DataFrame) (m : list bool) : DataFrame :=
  mkDF (mask_filter m (df_index v))
       (map (fun kc => (fst kc, col_mask m (snd kc))) (df_cols v)).

(** [Series.unique()]: the distinct values in order of first appearance. *)
Fixpoint unique_from (seen : list string) (l : list string) : list string :=
  match l with
  | [] => []
  | x :: l' =>
      if existsb (String.eqb x) seen then unique_from seen l'
      else x :: unique_from (x :: seen) l'
  end.

Definition unique (l : list string) : list string := unique_from [] l.

(** [name in column.unique()] for a [str] name: a numeric array holds no
    element equal to a string. *)
Definition str_in_unique (name : string) (c : column) : bool :=
  match c with
  | StrCol l => existsb (String.eqb name) (unique l)
  | NumCol _ => false
  end.

(** [column == name], element by element. *)
Definition col_eq_str (c : column) (name : string) : list bool :=
  match c with
  | StrCol l => map (fun s => String.eqb s name) l
  | NumCol l => map (fun _ => false) l
  end.

(** ** The store and the monad *)

Definition loc : Type := positive.
Abbreviation heap := (gmap loc DataFrame).

Definition M (A : Type) : Type := heap -> heap * result A.

Definition ret {A} (a : A) : M A := fun h => (h, Ok a).
Definition raise {A} (e : exn) : M A := fun h => (h, Raise e).
Definition bind {A B} (m : M A) (k : A -> M B) : M B :=
  fun h =>
    match m h with
    | (h', Ok a) => k a h'
    | (h', Raise e) => (h', Raise e)
    end.

Notation "x <- m ;; k" := (bind m (fun x => k))
  (at level 100, m at next level, right associativity).
Notation "m ;;; k" := (bind m (fun _ => k))
  (at level 100, right associativity).

Definition lift {A} (r : result A) : M A := fun h => (h, r).

Definition fresh_loc (h : heap) : loc := fresh (dom h).

Definition alloc (v : DataFrame) : M loc :=
  fun h => let l := fresh_loc h in (<[l := v]> h, Ok l).

Definition read (l : loc) : M DataFrame :=
  fun h =>
    match h !! l with
    | Some v => (h, Ok v)
    | None => (h, Raise DanglingRef)
    end.

Definition write (l : loc) (v : DataFrame) : M unit :=
  fun h => (<[l := v]> h, Ok tt).

(** [df.copy()] *)
Definition copy (df : loc) : M loc := v <- read df ;; alloc v.

(** [df[name]] on a reference *)
Definition getitem (df : loc) (name : string) : M column :=
  v <- read df ;; lift (df_getitem v name).

(** [df[name] = values] on a reference: the frame is updated in place. *)
Definition setitem (df : loc) (name : string) (c : column) : M unit :=
  v <- read df ;; v' <- lift (df_setitem v name c) ;; write df v'.

(** [df.drop(columns=[name], inplace=True)] *)
Definition drop_inplace (df : loc) (name : string) : M unit :=
  v <- read df ;; v' <- lift (df_drop v name) ;; write df v'.

(** ** The helpers of meta_learners.py *)

Definition TREATMENT_FEATURE : string := "is_treatment".

Definition _append_treatment_feature (features : list string)
  (treatment_feature : string) : list string :=
  features ++ [treatment_feature].

Definition non_control (control_name : string) (c : column) : list string :=
  match c with
  | StrCol l =>
      List.filter (fun col => negb (String.eqb col control_name)) (unique l)
  | NumCol _ => []
  end.

Definition _get_unique_treatments (df : loc) (treatment_col control_name : string)
  : M (list string) :=
  c <- getitem df treatment_col ;;
  if negb (str_in_unique control_name c) then raise MissingControlError
  else ret (non_control control_name c).

Definition treatment_or_control (c : column) (treatment_name control_name : string)
  : list bool :=
  map (fun bb => orb (fst bb) (snd bb))
      (combine (col_eq_str c treatment_name) (col_eq_str c control_name)).

Definition _filter_by_treatment (df : loc)
  (treatment_col treatment_name control_name : string) : M loc :=
  treatment_control_values <- getitem df treatment_col ;;
  if negb (str_in_unique control_name treatment_control_values)
  then raise MissingControlError
  else if negb (str_in_unique treatment_name treatment_control_values)
  then raise MissingTreatmentError
  else
    v <- read df ;;
    alloc (df_loc_mask v
             (treatment_or_control treatment_control_values
                treatment_name control_name)).

(** [np.where(column == treatment_name, 1.0, 0.0)] *)
Definition flag_values (c : column) (treatment_name : string) : column :=
  NumCol (map (fun b : bool => if b then 1%float else 0%float)
              (col_eq_str c treatment_name)).

Definition _create_treatment_flag (df : loc)
  (treatment_col treatment_name control_name : string) : M loc :=
  df <- copy df ;;
  treatment_control_values <- getitem df treatment_col ;;
  treatments <- _get_unique_treatments df treatment_col control_name ;;
  if Nat.ltb 1 (length treatments) then raise MultipleTreatmentsError
  else if negb (str_in_unique control_name treatment_control_values)
  then raise MissingControlError
  else if negb (str_in_unique treatment_name treatment_control_values)
  then raise MissingTreatmentError
  else
    c <- getitem df treatment_col ;;
    setitem df TREATMENT_FEATURE (flag_values c treatment_name) ;;;
    ret df.

(** ** Strings: column names and [str.replace] *)

(** [f"treatment_{treatment}__{prediction_column}_on_treatment"] *)
Definition col_on_treatment (treatment prediction_column : string) : string :=
  "treatment_" +:+ treatment +:+ "__" +:+ prediction_column +:+ "_on_treatment".

(** [f"treatment_{treatment}__{prediction_column}_on_control"] *)
Definition col_on_control (treatment prediction_column : string) : string :=
  "treatment_" +:+ treatment +:+ "__" +:+ prediction_column +:+ "_on_control".

(** [f"treatment_{treatment}__uplift"] *)
Definition col_uplift (treatment : string) : string :=
  "treatment_" +:+ treatment +:+ "__uplift".

(** [s.replace(old, new)] for a non-empty [old]: occurrences are found
    from the left and do not overlap.  [skip] counts the characters of a
    match that are still to be dropped. *)
Fixpoint replace_go (old new : string) (skip : nat) (s : string) : string :=
  match s with
  | EmptyString => EmptyString
  | String a s' =>
      match skip with
      | S k => replace_go old new k s'
      | O =>
          if String.prefix old s
          then new +:+ replace_go old new (String.length old - 1) s'
          else String a (replace_go old new O s')
      end
  end.

Definition str_replace (old new s : string) : string := replace_go old new 0 s.

(** [lambda x: x.replace("__uplift", "")] *)
Definition strip_uplift (x : string) : string := str_replace "__uplift" "" x.

(** ** Predictors and counterfactual scoring *)

(** A fitted predictor is handed a frame and returns a new frame or
    raises; the first component is the state in which it leaves the frame
    it was handed (a predictor that does not touch its argument returns
    it unchanged). *)
Definition PredictFnType : Type := DataFrame -> DataFrame * result DataFrame.

Definition call_predict (learner_fcn : PredictFnType) (df : loc) : M loc :=
  v <- read df ;;
  write df (fst (learner_fcn v)) ;;;
  out <- lift (snd (learner_fcn v)) ;;
  alloc out.

Definition _predict_by_treatment_flag (df : loc) (learner_fcn : PredictFnType)
  (is_treatment : bool) (prediction_column : string) : M column :=
  v <- read df ;;
  let treatment_flag :=
    NumCol (repeat (if is_treatment then 1%float else 0%float) (nrows v)) in
  setitem df TREATMENT_FEATURE treatment_flag ;;;
  prediction_df <- call_predict learner_fcn df ;;
  drop_inplace df TREATMENT_FEATURE ;;;
  getitem prediction_df prediction_column.

(** ** Uplift simulation *)

(** [a - b] on two columns of one frame: the binary64 difference, row by
    row *)
Definition col_sub (a b : column) : result column :=
  match a, b with
  | NumCol x, NumCol y =>
      Ok (NumCol (map (fun p => PrimFloat.sub (fst p) (snd p)) (combine x y)))
  | _, _ => Raise TypeError
  end.

(** [df[names]] read as a numeric block *)
Fixpoint select_num (v : DataFrame) (names : list string)
  : result (list (string * list float)) :=
  match names with
  | [] => Ok []
  | n :: names' =>
      match df_getitem v n with
      | Ok (NumCol q) =>
          match select_num v names' with
          | Ok t => Ok ((n, q) :: t)
          | Raise e => Raise e
          end
      | Ok (StrCol _) => Raise TypeError
      | Raise e => Raise e
      end
  end.

Definition row_at (i : nat) (cs : list (string * list float))
  : list (string * float) :=
  map (fun nc => (fst nc, nth i (snd nc) 0%float)) cs.

(** The reductions over a row skip NaN ([skipna=True]): NaN counts as
    minus infinity, and a row that holds nothing but NaN has neither a
    maximum nor a maximal position. *)
Definition skipna (x : float) : float :=
  if is_nan x then neg_infinity else x.

Definition row_skipna (r : list (string * float)) : list (string * float) :=
  map (fun y => (fst y, skipna (snd y))) r.

Definition all_nan (r : list (string * float)) : bool :=
  forallb (fun y => is_nan (snd y)) r.

(** the column name at the first position that holds the maximum of a row *)
Fixpoint argmax_from (best : string * float) (r : list (string * float))
  : string * float :=
  match r with
  | [] => best
  | y :: r' =>
      if PrimFloat.ltb (snd best) (snd y) then argmax_from y r'
      else argmax_from best r'
  end.

(** the maximum of a row; NaN when the row holds nothing else *)
Definition row_max (r : list (string * float)) : float :=
  match row_skipna r with
  | [] => nan
  | x :: r' =>
      if all_nan r then nan
      else fold_left (fun m y => if PrimFloat.ltb m (snd y) then snd y else m)
             r' (snd x)
  end.

(** the name of the first maximal column of a row; NaN ([None]) when the
    row holds nothing but NaN *)
Definition row_idxmax (r : list (string * float)) : option string :=
  match row_skipna r with
  | [] => None
  | x :: r' => if all_nan r then None else Some (fst (argmax_from x r'))
  end.

(** [block.max(axis=1).values] *)
Definition max_axis1 (n : nat) (cs : list (string * list float)) : list float :=
  map (fun i => row_max (row_at i cs)) (seq 0 n).

(** [block.idxmax(axis=1).values] *)
Definition idxmax_axis1 (n : nat) (cs : list (string * list float))
  : list (option string) :=
  map (fun i => row_idxmax (row_at i cs)) (seq 0 n).

(** [np.where(uplift <= 0, control_name, names)]: an array of objects,
    each a name or the NaN of a row with no maximal position *)
Definition where_le0 (uplift : column) (control_name : string)
  (names : list (option string)) : result (list (option string)) :=
  match uplift with
  | NumCol u =>
      Ok (map (fun un : float * option string =>
                 if PrimFloat.leb (fst un) 0 then Some control_name
                 else snd un)
              (combine u names))
  | StrCol _ => Raise TypeError
  end.

(** The strings of an array of objects; [x.replace] on a NaN among them
    raises. *)
Fixpoint all_str (l : list (option string)) : result (list string) :=
  match l with
  | [] => Ok []
  | Some s :: l' =>
      match all_str l' with
      | Ok t => Ok (s :: t)
      | Raise e => Raise e
      end
  | None :: _ => Raise AttributeError
  end.

(** [series.apply(lambda x: x.replace("__uplift", "")).values] *)
Definition apply_strip (c : column) : result column :=
  match c with
  | StrCol l => Ok (StrCol (map strip_uplift l))
  | NumCol [] => Ok (NumCol [])
  | NumCol (_ :: _) => Raise AttributeError
  end.

(** The body of the loop over the treatments; [uplift_cols] is the list
    the loop appends to. *)
Fixpoint simulate_loop (scored_df : loc) (learners : odict PredictFnType)
  (prediction_column : string) (treatments : list string)
  (uplift_cols : list string) : M (list string) :=
  match treatments with
  | [] => ret uplift_cols
  | treatment :: rest =>
      learner_fcn <-
        lift (match od_get learners treatment with
              | Some f => Ok f
              | None => Raise (KeyError treatment)
              end) ;;
      on_t <- _predict_by_treatment_flag scored_df learner_fcn true
                prediction_column ;;
      setitem scored_df (col_on_treatment treatment prediction_column) on_t ;;;
      on_c <- _predict_by_treatment_flag scored_df learner_fcn false
                prediction_column ;;
      setitem scored_df (col_on_control treatment prediction_column) on_c ;;;
      let uplift_cols := uplift_cols ++ [col_uplift treatment] in
      a <- getitem scored_df (col_on_treatment treatment prediction_column) ;;
      b <- getitem scored_df (col_on_control treatment prediction_column) ;;
      d <- lift (col_sub a b) ;;
      setitem scored_df (col_uplift treatment) d ;;;
      simulate_loop scored_df learners prediction_column rest uplift_cols
  end.

(** The aggregation after the loop.  A reduction over no column at all
    has no maximal position and raises; the model raises before the
    all-NaN [uplift] column is written to the private frame.  A row whose
    uplift columns hold nothing but NaN has a NaN in [uplift] and a NaN
    as maximal position, [np.where] keeps that NaN ([NaN <= 0] is false)
    and [x.replace] on it raises [AttributeError]; the model raises
    before the column of suggestions is written to the private frame. *)
Definition aggregate (scored_df : loc) (control_name : string)
  (uplift_cols : list string) : M unit :=
  v <- read scored_df ;;
  block <- lift (select_num v uplift_cols) ;;
  match block with
  | [] => raise ValueError
  | _ :: _ =>
      setitem scored_df "uplift" (NumCol (max_axis1 (nrows v) block)) ;;;
      uplift <- getitem scored_df "uplift" ;;
      v' <- read scored_df ;;
      block' <- lift (select_num v' uplift_cols) ;;
      objects <-
        lift (where_le0 uplift control_name (idxmax_axis1 (nrows v') block')) ;;
      suggested <- lift (all_str objects) ;;
      setitem scored_df "suggested_treatment" (StrCol suggested) ;;;
      s <- getitem scored_df "suggested_treatment" ;;
      s' <- lift (apply_strip s) ;;
      setitem scored_df "suggested_treatment" s'
  end.

Definition _simulate_treatment_effect (df : loc) (treatments : list string)
  (control_name : string) (learners : odict PredictFnType)
  (prediction_column : string) : M loc :=
  scored_df <- copy df ;;
  uplift_cols <-
    simulate_loop scored_df learners prediction_column treatments [] ;;
  aggregate scored_df control_name uplift_cols ;;;
  ret scored_df.

(** The prediction closure [p] that [causal_s_classification_learner]
    returns; the variables it captures are its first arguments. *)
Definition causal_s_classification_learner_p (unique_treatments : list string)
  (fitted_learners : odict PredictFnType) (control_name prediction_column : string)
  (new_df : loc) : M loc :=
  _simulate_treatment_effect new_df unique_treatments control_name
    fitted_learners prediction_column.

(** ** Fitting one predictor per treatment *)

Section Fit.
(** The log a learner returns is opaque. *)
Context {Log : Type}.

(** A learner is handed the flagged two-group frame, which nothing
    else refers to, and returns a predictor, its own scores and a log,
    or raises. *)
Definition LearnerFnType : Type :=
  DataFrame -> result (PredictFnType * DataFrame * Log).

Definition call_learner (learner : LearnerFnType) (df : loc)
  : M (PredictFnType * DataFrame * Log) :=
  v <- read df ;; lift (learner v).

Fixpoint fit_loop (df : loc) (learner : LearnerFnType)
  (treatment_col control_name : string) (treatments : list string)
  (fitted_learners : odict PredictFnType) (learners_logs : odict Log)
  : M (odict PredictFnType * odict Log) :=
  match treatments with
  | [] => ret (fitted_learners, learners_logs)
  | treatment :: rest =>
      treatment_control_df <-
        _filter_by_treatment df treatment_col treatment control_name ;;
      treatment_control_df <-
        _create_treatment_flag treatment_control_df treatment_col treatment
          control_name ;;
      r <- call_learner learner treatment_control_df ;;
      fit_loop df learner treatment_col control_name rest
        (od_set fitted_learners treatment (fst (fst r)))
        (od_set learners_logs treatment (snd r))
  end.

Definition _fit_by_treatment (df : loc) (learner : LearnerFnType)
  (treatment_col control_name : string) (treatments : list string)
  : M (odict PredictFnType * odict Log) :=
  fit_loop df learner treatment_col control_name treatments [] [].
End Fit.
Arguments LearnerFnType Log : clear implicits.

(** ** The entry point *)

(** What [inspect.signature(learner).parameters] shows of a learner
    constructor: for each parameter its default, [None] when it has
    none.  Only list defaults are modelled. *)
Definition Signature : Type := odict (option (list string)).

Inductive log_value (Log : Type) : Type :=
  | LearnerLog (l : Log)
  | CausalFeatures (features : list string).
Arguments LearnerLog {Log} l.
Arguments CausalFeatures {Log} features.

Section Orchestrator.
Context {Log : Type}.

(** A learner constructor: its signature and what calling it with
    [features=...] returns. *)
Record Learner : Type := mkLearner {
  learner_signature : Signature;
  learner_with_features : list string -> LearnerFnType Log
}.

(** [fklearn.training.pipeline.build_pipeline] is not part of this
    module; it is taken as given. *)
Context (build_pipeline : list (LearnerFnType Log) -> LearnerFnType Log).

Definition _get_learner_features (learner : Learner)
  : result (option (list string)) :=
  match od_get (learner_signature learner) "features" with
  | Some default => Ok default
  | None => Raise (KeyError "features")
  end.

(** What [p] answers is a new frame; the closure itself is a function of
    the frame it is given. *)
Definition Closure : Type := loc -> M loc.

Definition causal_s_classification_learner (df : loc)
  (treatment_col control_name prediction_column : string)
  (learner : Learner)
  (learner_transformers : option (list (LearnerFnType Log)))
  : M (Closure * loc * odict (odict (log_value Log))) :=
  features <- lift (_get_learner_features learner) ;;
  (* [features + [treatment_feature]] needs a list on the left *)
  features_with_treatment <-
    lift (match features with
          | Some fs => Ok (_append_treatment_feature fs TREATMENT_FEATURE)
          | None => Raise TypeError
          end) ;;
  unique_treatments <- _get_unique_treatments df treatment_col control_name ;;
  let learner_pipe :=
    match learner_transformers with
    | Some transformers =>
        build_pipeline
          ([learner_with_features learner features_with_treatment]
             ++ transformers)
    | None => learner_with_features learner features_with_treatment
    end in
  fl <- _fit_by_treatment df learner_pipe treatment_col control_name
          unique_treatments ;;
  let fitted_learners := fst fl in
  let learners_logs := snd fl in
  let p :=
    causal_s_classification_learner_p unique_treatments fitted_learners
      control_name prediction_column in
  let log :=
    [("causal_s_classification_learner",
      od_set (map (fun kl => (fst kl, LearnerLog (snd kl))) learners_logs)
        "causal_features" (CausalFeatures features_with_treatment))] in
  scored <- p df ;;
  ret (p, scored, log).
End Orchestrator.
Arguments Learner Log : clear implicits.

(** ** Predicates used in the statements *)

(** Every object of [h0] is still in [h], with the value it had. *)
Definition preserved (h0 h : heap) : Prop :=
  forall l v, h0 !! l = Some v -> h !! l = Some v.

(** A computation is confined to the references in [P] when it writes to
    no other object that existed before [P]'s objects were allocated:
    whatever it does, on success or on failure, the objects of any
    earlier store [h0] that holds none of [P] keep their values. *)
Definition confined {A} (P : loc -> Prop) (m : M A) : Prop :=
  forall h0 h, preserved h0 h -> (forall l, P l -> h0 !! l = None) ->
    preserved h0 (fst (m h)).

(** The label occurs in the column. *)
Definition col_has_label (c : column) (name : string) : Prop :=
  match c with
  | StrCol l => In name l
  | NumCol _ => False
  end.

(** The column holds at least two distinct labels other than the control. *)
Definition several_treatments (c : column) (control_name : string) : Prop :=
  exists a b, col_has_label c a /\ col_has_label c b /\
    a <> control_name /\ b <> control_name /\ a <> b.

(** The flag column that [_create_treatment_flag] computes from the
    labels. *)
Definition flags_of (labels : list string) (treatment_name : string)
  : list float :=
  map (fun b : bool => if b then 1%float else 0%float)
      (map (fun s => String.eqb s treatment_name) labels).

(** The rows of a frame: the index label of each position with the cell
    of every column at that position, in column order. *)
Inductive cell : Type :=
  | SCell (s : string)
  | NCell (q : float).

Definition row : Type := Z * odict (option cell).

Definition col_head (c : column) : option cell :=
  match c with
  | StrCol (x :: _) => Some (SCell x)
  | NumCol (x :: _) => Some (NCell x)
  | _ => None
  end.

Definition col_tail (c : column) : column :=
  match c with
  | StrCol l => StrCol (tl l)
  | NumCol l => NumCol (tl l)
  end.

Fixpoint rows_of (idx : list Z) (cols : odict column) : list row :=
  match idx with
  | [] => []
  | i :: idx' =>
      (i, map (fun kc => (fst kc, col_head (snd kc))) cols)
        :: rows_of idx' (map (fun kc => (fst kc, col_tail (snd kc))) cols)
  end.

Definition df_rows (v : DataFrame) : list row :=
  rows_of (df_index v) (df_cols v).

(** The row's treatment-column value is the treatment or the control. *)
Definition in_two_groups (treatment_col treatment_name control_name : string)
  (r : row) : bool :=
  match od_get (snd r) treatment_col with
  | Some (Some (SCell s)) =>
      orb (String.eqb s treatment_name) (String.eqb s control_name)
  | _ => false
  end.

(** The frame a learner is fitted on for one treatment: the two-group
    rows of [v] with the flag column set. *)
Definition fit_input (v : DataFrame) (treatment_col treatment_name
  control_name : string) : DataFrame :=
  match od_get (df_cols v) treatment_col with
  | Some c =>
      let m := treatment_or_control c treatment_name control_name in
      let sub := df_loc_mask v m in
      mkDF (df_index sub)
           (od_set (df_cols sub) TREATMENT_FEATURE
              (flag_values (col_mask m c) treatment_name))
  | None => v
  end.

(** The store after one round of the fitting loop: the two-group frame
    and its flagged copy have been allocated. *)
Definition fit_store (h : heap) (v : DataFrame) (treatment_col treatment_name
  control_name : string) : heap :=
  match od_get (df_cols v) treatment_col with
  | Some c =>
      let h1 :=
        <[fresh_loc h :=
            df_loc_mask v (treatment_or_control c treatment_name control_name)]> h in
      <[fresh_loc h1 := fit_input v treatment_col treatment_name control_name]> h1
  | None => h
  end.

(** The frame a predictor is handed by [_predict_by_treatment_flag]: the
    flag column is set to all ones or all zeros. *)
Definition with_flag (v : DataFrame) (is_treatment : bool) : DataFrame :=
  mkDF (df_index v)
       (od_set (df_cols v) TREATMENT_FEATURE
          (NumCol (repeat (if is_treatment then 1%float else 0%float)
                     (nrows v)))).

(** [old in s] *)
Fixpoint has_sub (old s : string) : bool :=
  orb (String.prefix old s)
      match s with
      | EmptyString => false
      | String _ s' => has_sub old s'
      end.

(** The reversed characters of a name: a suffix that is known shows as the
    first characters. *)
Definition rev_chars (s : string) : list Ascii.ascii :=
  rev (String.list_ascii_of_string s).

(** The frame after [df.drop(columns=["is_treatment"])]. *)
Definition without_flag (v : DataFrame) : DataFrame :=
  mkDF (df_index v) (od_del (df_cols v) TREATMENT_FEATURE).

(** The column names the simulator writes inside its loop. *)
Definition generated (treatments : list string) (prediction_column : string)
  (name : string) : Prop :=
  name = TREATMENT_FEATURE \/
  exists L, In L treatments /\
    (name = col_on_treatment L prediction_column \/
     name = col_on_control L prediction_column \/
     name = col_uplift L).

(** A number: neither NaN nor an infinity. *)
Definition finite (q : float) : Prop := is_finite q = true.

(** The binary64 difference of a pair: the exact difference rounded to
    the nearest binary64 number, ties to even. *)
Definition fsub (p : float * float) : float := (fst p - snd p)%float.

Definition not_nan (q : float) : Prop := is_nan q = false.

Definition SFnum (x : spec_float) : Prop :=
  match x with
  | S754_zero _ | S754_finite _ _ _ => True
  | _ => False
  end.

(** The columns of these names are numeric and hold no NaN. *)
Definition num_block (v : DataFrame) (names : list string) : Prop :=
  forall n, In n names ->
    exists qs, od_get (df_cols v) n = Some (NumCol qs) /\ Forall not_nan qs.

Definition no_nan (r : list (string * float)) : Prop :=
  Forall (fun y => not_nan (snd y)) r.

(** [v] has the index of [v0] and the columns of [v0] under every name
    that the simulator does not write inside its loop. *)
Definition agrees (treatments : list string) (prediction_column : string)
  (v0 v : DataFrame) : Prop :=
  df_index v = df_index v0 /\
  forall name, ~ generated treatments prediction_column name ->
    od_get (df_cols v) name = od_get (df_cols v0) name.

(** The predictor scores every frame the simulator hands it when it works
    on a copy of [v0]: it leaves the frame as it got it and returns a
    frame whose prediction column holds one number per row. *)
Definition scores_on (treatments : list string) (prediction_column : string)
  (v0 : DataFrame) (f : PredictFnType) : Prop :=
  forall v b, agrees treatments prediction_column v0 v ->
    fst (f (with_flag v b)) = with_flag v b /\
    exists out qs,
      snd (f (with_flag v b)) = Ok out /\
      od_get (df_cols out) prediction_column = Some (NumCol qs) /\
      length qs = nrows v /\ Forall finite qs.

Definition fitted_for (treatments : list string) (prediction_column : string)
  (v0 : DataFrame) (learners : odict PredictFnType) : Prop :=
  forall L, In L treatments ->
    exists f, od_get learners L = Some f /\
      scores_on treatments prediction_column v0 f.

(** The three columns of a treatment are in the frame, one number per
    row, and the uplift column is the binary64 difference of the other
    two, row by row. *)
Definition scored (prediction_column : string) (v : DataFrame) (L : string)
  : Prop :=
  exists a b,
    od_get (df_cols v) (col_on_treatment L prediction_column) = Some (NumCol a) /\
    od_get (df_cols v) (col_on_control L prediction_column) = Some (NumCol b) /\
    od_get (df_cols v) (col_uplift L) = Some (NumCol (map fsub (combine a b))) /\
    length a = nrows v /\ length b = nrows v /\
    Forall finite a /\ Forall finite b.

(** Column names after an assignment and after a drop. *)
Definition add_name (ns : list string) (k : string) : list string :=
  if existsb (String.eqb k) ns then ns else ns ++ [k].

Definition rm_name (k : string) (ns : list string) : list string :=
  List.filter (fun n => negb (String.eqb k n)) ns.

(** Column names after one round of the simulator's loop. *)
Definition names_step (prediction_column : string) (ns : list string)
  (L : string) : list string :=
  add_name
    (add_name
       (rm_name TREATMENT_FEATURE
          (add_name (rm_name TREATMENT_FEATURE ns)
             (col_on_treatment L prediction_column)))
       (col_on_control L prediction_column))
    (col_uplift L).

(** The three names of a treatment, in the order they are written. *)
Definition three_names (prediction_column : string) (L : string) : list string :=
  [col_on_treatment L prediction_column; col_on_control L prediction_column;
   col_uplift L].

(** The numbers of a column, and the block [df[names]] as it is read
    when every name is a numeric column. *)
Definition num_values (v : DataFrame) (name : string) : list float :=
  match od_get (df_cols v) name with
  | Some (NumCol q) => q
  | _ => []
  end.

Definition block_of (v : DataFrame) (names : list string)
  : list (string * list float) :=
  map (fun n => (n, num_values v n)) names.

(** The two summary columns as the simulator computes them from the
    frame the loop leaves, when every row has a maximal position. *)
Definition uplift_values (v : DataFrame) (uplift_cols : list string)
  : list float :=
  max_axis1 (nrows v) (block_of v uplift_cols).

Definition suggested_values (v : DataFrame) (control_name : string)
  (uplift_cols : list string) : list string :=
  map strip_uplift
    (map (fun un : float * option string =>
            if PrimFloat.leb (fst un) 0 then control_name
            else default "" (snd un))
       (combine (uplift_values v uplift_cols)
          (idxmax_axis1 (nrows v) (block_of v uplift_cols)))).

Definition with_summary (v : DataFrame) (control_name : string)
  (uplift_cols : list string) : DataFrame :=
  mkDF (df_index v)
    (od_set
       (od_set (df_cols v) "uplift" (NumCol (uplift_values v uplift_cols)))
       "suggested_treatment"
       (StrCol (suggested_values v control_name uplift_cols))).

(** ** Example data *)

(** The frames of the repository's tests for [_create_treatment_flag]. *)
Definition frame_of_labels (name : string) (labels : list string) : DataFrame :=
  mkDF (map Z.of_nat (seq 0 (length labels)))
       [("feature", NumCol (repeat 1%float (length labels))); (name, StrCol labels)].

Definition df_only_treatment_A : DataFrame :=
  frame_of_labels "treatment"
    ["treatment_A"; "treatment_A"; "treatment_A"; "treatment_A"; "treatment_A"].

Definition df_two_groups : DataFrame :=
  mkDF [0; 1; 2; 3]%Z
    [("feature", NumCol [1.3; 1.0; 1.8; -0.1]%float);
     ("group", StrCol ["treatment"; "treatment"; "control"; "control"]);
     ("target", NumCol [1; 1; 1; 0]%float)].

(** Two treatments and no control. *)
Definition df_A_B : DataFrame := frame_of_labels "treatment" ["A"; "B"].

(** Control and two treatments, none of them [A]. *)
Definition df_control_B_C : DataFrame :=
  frame_of_labels "treatment" ["control"; "B"; "C"].

(** Control and one treatment that is not [A]. *)
Definition df_control_B : DataFrame :=
  frame_of_labels "treatment" ["control"; "B"; "B"].

Definition store1 (v : DataFrame) : heap := {[ 1%positive := v ]}.

(** The frame of the repository's test for [_fit_by_treatment]. *)
Definition df_nine_rows : DataFrame :=
  mkDF [0; 1; 2; 3; 4; 5; 6; 7; 8]%Z
    [("x1", NumCol [1.3; 1.0; 1.8; -0.1; 0.0; 1.0; 2.2; 0.4; -5.0]%float);
     ("x2", NumCol [10; 4; 15; 6; 5; 12; 14; 5; 12]%float);
     ("treatment",
      StrCol ["A"; "B"; "A"; "A"; "B"; "control"; "control"; "B"; "control"]);
     ("target", NumCol [1; 1; 1; 0; 0; 1; 0; 0; 1]%float)].

(** The predictor of the tests: the prediction is the flag. *)
Definition ones_or_zeros_model : PredictFnType :=
  fun new_df =>
    (new_df,
     match od_get (df_cols new_df) TREATMENT_FEATURE with
     | Some pred => df_setitem new_df "prediction" pred
     | None => Raise (KeyError TREATMENT_FEATURE)
     end).

(** A learner that logs the number of rows it was fitted on. *)
Definition counting_learner : LearnerFnType nat :=
  fun v => Ok (ones_or_zeros_model, v, nrows v).

(** A learner that cannot be fitted on frames that hold the label. *)
Definition learner_failing_on (label : string) : LearnerFnType nat :=
  fun v =>
    match od_get (df_cols v) "treatment" with
    | Some c =>
        if str_in_unique label c then Raise (LearnerFailure label)
        else counting_learner v
    | None => counting_learner v
    end.

(** The frame and the mocked predictions of the repository's test for
    [_simulate_treatment_effect]: a predictor that answers with one table
    of predictions when the flag is 1 and with another when it is 0. *)
Definition df_four_rows : DataFrame :=
  mkDF [0; 1; 2; 3]%Z
    [("x1", NumCol [1.3; 1.0; 1.8; -0.1]%float);
     ("x2", NumCol [10; 4; 15; 6]%float);
     ("treatment", StrCol ["A"; "B"; "A"; "control"]);
     ("target", NumCol [0; 0; 0; 1]%float)].

Definition table_predictor (on_treatment on_control : list float)
  : PredictFnType :=
  fun new_df =>
    (new_df,
     match od_get (df_cols new_df) TREATMENT_FEATURE with
     | Some (NumCol (flag :: _)) =>
         df_setitem new_df "prediction"
           (NumCol (if PrimFloat.eqb flag 1 then on_treatment
                    else on_control))
     | _ => Raise (KeyError TREATMENT_FEATURE)
     end).

Definition learners_A_B : odict PredictFnType :=
  [("A", table_predictor [0.3; 0.3; 0.0; 1.0]%float [0.2; 0.5; 0.3; 0.0]%float);
   ("B", table_predictor [0.6; 0.7; 0.0; 1.0]%float [1.0; 0.5; 1.0; 1.0]%float)].

(** A predictor that raises and leaves the frame it was handed as it
    got it. *)
Definition failing_predictor : PredictFnType :=
  fun new_df => (new_df, Raise (LearnerFailure "predict")).

(** A predictor that drops the flag column from the frame it is handed
    before it answers. *)
Definition flag_dropping_predictor : PredictFnType :=
  fun new_df =>
    (without_flag new_df,
     df_setitem (without_flag new_df) "prediction"
       (NumCol (repeat 0%float (nrows new_df)))).

(** A predictor that answers with one prediction too many. *)
Definition long_predictor : PredictFnType :=
  fun new_df =>
    (new_df,
     Ok (mkDF (df_index new_df)
           (od_set (df_cols new_df) "prediction"
              (NumCol (repeat 0%float (S (nrows new_df))))))).

(** A frame that already has a flag column, with values of its own. *)
Definition df_four_rows_flagged : DataFrame :=
  mkDF [0; 1; 2; 3]%Z
    [("x1", NumCol [1.3; 1.0; 1.8; -0.1]%float);
     ("is_treatment", NumCol [1; 0; 1; 0]%float);
     ("treatment", StrCol ["A"; "B"; "A"; "control"])].

(** A learner constructor whose [features] parameter defaults to the two
    features of the tests, and one with no such parameter. *)
Definition learner_x1_x2 : Learner nat :=
  mkLearner [("features", Some ["x1"; "x2"]); ("target", None)]
    (fun _ => counting_learner).

Definition learner_without_features : Learner nat :=
  mkLearner [("target", None)] (fun _ => counting_learner).


(** One way to chain a pipeline: the first stage's fit is kept. *)
Definition first_stage (stages : list (LearnerFnType nat)) : LearnerFnType nat :=
  match stages with
  | stage :: _ => stage
  | [] => fun _ => Raise ValueError
  end.

(** The predictor answers, on every frame the simulator hands it when it
    works on a copy of [v0], with one table of predictions when the flag
    is 1 and with another when it is 0, and leaves the frame as it got
    it. *)
Definition answers (treatments : list string) (prediction_column : string)
  (v0 : DataFrame) (f : PredictFnType) (on_treatment on_control : list float)
  : Prop :=
  forall v (b : bool), agrees treatments prediction_column v0 v ->
    fst (f (with_flag v b)) = with_flag v b /\
    exists out,
      snd (f (with_flag v b)) = Ok out /\
      od_get (df_cols out) prediction_column
        = Some (NumCol (if b then on_treatment else on_control)).

(** The three columns of a treatment hold the two tables of predictions
    and their binary64 difference, row by row. *)
Definition holds_predictions (prediction_column : string) (v : DataFrame)
  (L : string) (on_treatment on_control : list float) : Prop :=
  od_get (df_cols v) (col_on_treatment L prediction_column)
    = Some (NumCol on_treatment) /\
  od_get (df_cols v) (col_on_control L prediction_column)
    = Some (NumCol on_control) /\
  od_get (df_cols v) (col_uplift L)
    = Some (NumCol (map fsub (combine on_treatment on_control))).

(** Every treatment has a predictor that answers with its two tables, one
    number per row of [v0] in each. *)
Definition answers_for (treatments : list string) (prediction_column : string)
  (v0 : DataFrame) (learners : odict PredictFnType)
  (pt pn : string -> list float) : Prop :=
  forall L, In L treatments ->
    length (pt L) = nrows v0 /\ length (pn L) = nrows v0 /\
    Forall finite (pt L) /\ Forall finite (pn L) /\
    exists f, od_get learners L = Some f /\
      answers treatments prediction_column v0 f (pt L) (pn L).

(** One row, and two predictors whose predictions differ by 1/2 and by
    1/2 + 2^-54. *)
Definition df_one_row : DataFrame :=
  mkDF [0]%Z [("x1", NumCol [1.0]%float); ("treatment", StrCol ["A"])].

Definition learners_half : odict PredictFnType :=
  [("A", table_predictor [0.5]%float [0.0]%float);
   ("B", table_predictor [0x1.0000000000001p-1]%float [0x1p-54]%float)].

(** The predictors of two treatments that ignore the flag. *)
Definition learners_flag_blind : odict PredictFnType :=
  [("A", table_predictor [0.3; 0.3; 0.0; 1.0]%float [0.3; 0.3; 0.0; 1.0]%float);
   ("B", table_predictor [0.6; 0.7; 0.0; 1.0]%float [0.6; 0.7; 0.0; 1.0]%float)].

(** * Properties *)

(** ** Ordered dictionaries *)

Section OdictFacts.
Context {V : Type}.
Implicit Types (d : odict V) (k : string) (v : V).

Lemma od_get_set_eq d k v : od_get (od_set d k v) k = Some v.
Proof.
  induction d as [|[k' v'] d IH]; simpl.
  - by rewrite String.eqb_refl.
  - destruct (String.eqb k k') eqn:E; simpl; rewrite E; [done | exact IH].
Qed.

Lemma od_get_set_ne d k k' v :
  k <> k' -> od_get (od_set d k v) k' = od_get d k'.
Proof.
  intros Hne. induction d as [|[k0 v0] d IH]; simpl.
  - destruct (String.eqb k' k) eqn:E; [|done].
    apply String.eqb_eq in E. congruence.
  - destruct (String.eqb k k0) eqn:E; simpl.
    + apply String.eqb_eq in E. subst k0.
      destruct (String.eqb k' k) eqn:E'; [|done].
      apply String.eqb_eq in E'. congruence.
    + by rewrite IH.
Qed.

Lemma od_get_del_eq d k : od_get (od_del d k) k = None.
Proof.
  induction d as [|[k' v'] d IH]; simpl; [done|].
  destruct (String.eqb k k') eqn:E; simpl; [done|]. by rewrite E.
Qed.

Lemma od_get_del_ne d k k' :
  k <> k' -> od_get (od_del d k) k' = od_get d k'.
Proof.
  intros Hne. induction d as [|[k0 v0] d IH]; simpl; [done|].
  destruct (String.eqb k k0) eqn:E; simpl.
  - apply String.eqb_eq in E. subst k0.
    destruct (String.eqb k' k) eqn:E'; [|done].
    apply String.eqb_eq in E'. congruence.
  - by rewrite IH.
Qed.

Lemma od_get_Some_keys d k v : od_get d k = Some v -> In k (od_keys d).
Proof.
  induction d as [|[k' v'] d IH]; simpl; [done|].
  destruct (String.eqb k k') eqn:E.
  - apply String.eqb_eq in E. auto.
  - auto.
Qed.

Lemma od_get_None_keys d k : od_get d k = None <-> ~ In k (od_keys d).
Proof.
  induction d as [|[k' v'] d IH]; simpl; [tauto|].
  destruct (String.eqb k k') eqn:E.
  - apply String.eqb_eq in E. split; [done | intros H; exfalso; auto].
  - apply String.eqb_neq in E. rewrite IH. split.
    + intros H [H'|H']; [congruence | auto].
    + intros H H'. auto.
Qed.

Lemma od_mem_true d k : od_mem d k = true <-> In k (od_keys d).
Proof.
  unfold od_mem. destruct (od_get d k) eqn:E.
  - split; [intros _; eapply od_get_Some_keys, E | done].
  - apply od_get_None_keys in E. split; [done | tauto].
Qed.

Lemma od_mem_false d k : od_mem d k = false <-> ~ In k (od_keys d).
Proof.
  rewrite <- od_mem_true. destruct (od_mem d k); split; congruence.
Qed.

Lemma od_keys_set_in d k v :
  In k (od_keys d) -> od_keys (od_set d k v) = od_keys d.
Proof.
  induction d as [|[k' v'] d IH]; simpl; [done|].
  destruct (String.eqb k k') eqn:E; simpl; [done|].
  apply String.eqb_neq in E. intros [H|H]; [congruence|]. by rewrite IH.
Qed.

Lemma od_keys_set_notin d k v :
  ~ In k (od_keys d) -> od_keys (od_set d k v) = od_keys d ++ [k].
Proof.
  induction d as [|[k' v'] d IH]; simpl; [done|].
  destruct (String.eqb k k') eqn:E; simpl.
  - apply String.eqb_eq in E. intros H. exfalso. auto.
  - intros H. rewrite IH; auto.
Qed.

End OdictFacts.

(** ** The store *)

Lemma fresh_loc_None (h : heap) : h !! fresh_loc h = None.
Proof. apply not_elem_of_dom. unfold fresh_loc. apply is_fresh. Qed.

Lemma preserved_refl (h : heap) : preserved h h.
Proof. by intros l v. Qed.

Lemma preserved_insert_fresh (h0 h : heap) l v :
  preserved h0 h -> h0 !! l = None -> preserved h0 (<[l := v]> h).
Proof.
  intros Hp Hl l' v' H'. rewrite lookup_insert_ne; [by apply Hp | congruence].
Qed.

Lemma preserved_alloc (h0 h : heap) v :
  preserved h0 h -> preserved h0 (<[fresh_loc h := v]> h).
Proof.
  intros Hp. apply preserved_insert_fresh; [done|].
  destruct (h0 !! fresh_loc h) eqn:E; [|done].
  apply Hp in E. by rewrite fresh_loc_None in E.
Qed.

Section Confined.
Context (P : loc -> Prop).

Lemma confined_ret {A} (a : A) : confined P (ret a).
Proof. by intros h0 h Hp _. Qed.

Lemma confined_raise {A} e : confined P (@raise A e).
Proof. by intros h0 h Hp _. Qed.

Lemma confined_lift {A} (r : result A) : confined P (lift r).
Proof. by intros h0 h Hp _. Qed.

Lemma confined_read l : confined P (read l).
Proof. intros h0 h Hp _. unfold read. by destruct (h !! l). Qed.

Lemma confined_alloc v : confined P (alloc v).
Proof. intros h0 h Hp _. simpl. by apply preserved_alloc. Qed.

Lemma confined_write l v : P l -> confined P (write l v).
Proof. intros Hl h0 h Hp HP. simpl. apply preserved_insert_fresh; auto. Qed.

Lemma confined_bind {A B} (m : M A) (k : A -> M B) :
  confined P m -> (forall a, confined P (k a)) -> confined P (bind m k).
Proof.
  intros Hm Hk h0 h Hp HP. unfold bind.
  specialize (Hm h0 h Hp HP). destruct (m h) as [h' [a|e]]; simpl in *.
  - by apply Hk.
  - done.
Qed.

Lemma confined_getitem l name : confined P (getitem l name).
Proof.
  apply confined_bind; [apply confined_read | intros; apply confined_lift].
Qed.

Lemma confined_setitem l name c : P l -> confined P (setitem l name c).
Proof.
  intros Hl. apply confined_bind; [apply confined_read | intros v].
  apply confined_bind; [apply confined_lift | intros v'].
  by apply confined_write.
Qed.

Lemma confined_drop_inplace l name : P l -> confined P (drop_inplace l name).
Proof.
  intros Hl. apply confined_bind; [apply confined_read | intros v].
  apply confined_bind; [apply confined_lift | intros v'].
  by apply confined_write.
Qed.

Lemma confined_call_predict f l : P l -> confined P (call_predict f l).
Proof.
  intros Hl. apply confined_bind; [apply confined_read | intros v].
  apply confined_bind; [by apply confined_write | intros _].
  apply confined_bind; [apply confined_lift | intros out].
  apply confined_alloc.
Qed.

Lemma confined_predict_by_treatment_flag l f b pc :
  P l -> confined P (_predict_by_treatment_flag l f b pc).
Proof.
  intros Hl. apply confined_bind; [apply confined_read | intros v].
  apply confined_bind; [by apply confined_setitem | intros _].
  apply confined_bind; [by apply confined_call_predict | intros out].
  apply confined_bind; [by apply confined_drop_inplace | intros _].
  apply confined_getitem.
Qed.

Lemma confined_simulate_loop l learners pc treatments acc :
  P l -> confined P (simulate_loop l learners pc treatments acc).
Proof.
  intros Hl. revert acc.
  induction treatments as [|t rest IH]; intros acc; simpl.
  - apply confined_ret.
  - apply confined_bind; [apply confined_lift | intros f].
    apply confined_bind;
      [by apply confined_predict_by_treatment_flag | intros on_t].
    apply confined_bind; [by apply confined_setitem | intros _].
    apply confined_bind;
      [by apply confined_predict_by_treatment_flag | intros on_c].
    apply confined_bind; [by apply confined_setitem | intros _].
    apply confined_bind; [apply confined_getitem | intros a].
    apply confined_bind; [apply confined_getitem | intros b].
    apply confined_bind; [apply confined_lift | intros d].
    apply confined_bind; [by apply confined_setitem | intros _].
    apply IH.
Qed.

Lemma confined_aggregate l cn cols : P l -> confined P (aggregate l cn cols).
Proof.
  intros Hl. apply confined_bind; [apply confined_read | intros v].
  apply confined_bind; [apply confined_lift | intros block].
  destruct block as [|c block]; [apply confined_raise|].
  apply confined_bind; [by apply confined_setitem | intros _].
  apply confined_bind; [apply confined_getitem | intros u].
  apply confined_bind; [apply confined_read | intros v'].
  apply confined_bind; [apply confined_lift | intros block'].
  apply confined_bind; [apply confined_lift | intros objects].
  apply confined_bind; [apply confined_lift | intros sg].
  apply confined_bind; [by apply confined_setitem | intros _].
  apply confined_bind; [apply confined_getitem | intros s].
  apply confined_bind; [apply confined_lift | intros s'].
  by apply confined_setitem.
Qed.

End Confined.

(** A computation that starts with [df.copy()] and is then confined to
    the copy leaves every object of the store it started from as it
    was. *)
Lemma copy_then_confined {A} (df : loc) (k : loc -> M A) (h : heap) :
  (forall l, confined (eq l) (k l)) ->
  preserved h (fst (bind (copy df) k h)).
Proof.
  intros Hk. unfold copy, bind, read, alloc.
  destruct (h !! df) as [v|] eqn:E; simpl; [|apply preserved_refl].
  apply (Hk (fresh_loc h)).
  - apply preserved_alloc, preserved_refl.
  - intros l <-. apply fresh_loc_None.
Qed.

(** ** Distinct labels *)

Lemma existsb_eqb_In (x : string) (l : list string) :
  existsb (String.eqb x) l = true <-> In x l.
Proof.
  rewrite existsb_exists. split.
  - intros (y & Hy & E). apply String.eqb_eq in E. by subst.
  - intros H. exists x. split; [done | apply String.eqb_refl].
Qed.

Lemma existsb_eqb_not_In (x : string) (l : list string) :
  existsb (String.eqb x) l = false <-> ~ In x l.
Proof.
  rewrite <- existsb_eqb_In. destruct (existsb _ l); split; congruence.
Qed.

Lemma unique_from_In seen l x :
  In x (unique_from seen l) <-> In x l /\ ~ In x seen.
Proof.
  revert seen. induction l as [|y l IH]; intros seen; simpl; [tauto|].
  destruct (existsb (String.eqb y) seen) eqn:E.
  - apply existsb_eqb_In in E. rewrite IH. split.
    + tauto.
    + intros [[->|H] Hn]; tauto.
  - apply existsb_eqb_not_In in E. simpl. rewrite IH. simpl. split.
    + intros [->|[H Hn]]; [tauto|]. split; [tauto|]. intros H'. apply Hn. auto.
    + intros [[->|H] Hn]; [tauto|].
      destruct (decide (y = x)) as [->|Hne]; [tauto|].
      right. split; [done|]. intros [?|?]; auto.
Qed.

Lemma unique_In l x : In x (unique l) <-> In x l.
Proof. unfold unique. rewrite unique_from_In. simpl. tauto. Qed.

Lemma unique_from_NoDup seen l : List.NoDup (unique_from seen l).
Proof.
  revert seen. induction l as [|y l IH]; intros seen; simpl.
  - constructor.
  - destruct (existsb (String.eqb y) seen); [apply IH|].
    constructor; [|apply IH]. rewrite unique_from_In. simpl. tauto.
Qed.

Lemma unique_from_ext seen seen' l :
  (forall x, In x seen <-> In x seen') ->
  unique_from seen l = unique_from seen' l.
Proof.
  revert seen seen'. induction l as [|y l IH]; intros seen seen' H; simpl; [done|].
  assert (existsb (String.eqb y) seen = existsb (String.eqb y) seen') as ->.
  { destruct (existsb (String.eqb y) seen') eqn:E.
    - apply existsb_eqb_In. apply H. by apply existsb_eqb_In.
    - apply existsb_eqb_not_In. rewrite H. by apply existsb_eqb_not_In. }
  destruct (existsb (String.eqb y) seen'); [by apply IH|].
  f_equal. apply IH. intros x. simpl. rewrite H. tauto.
Qed.

Lemma unique_from_NoDup_id seen l :
  List.NoDup l -> (forall x, In x l -> ~ In x seen) -> unique_from seen l = l.
Proof.
  revert seen. induction l as [|y l IH]; intros seen Hnd Hs; simpl; [done|].
  inversion Hnd as [|? ? Hy Hnd']; subst.
  assert (existsb (String.eqb y) seen = false) as ->.
  { apply existsb_eqb_not_In. apply Hs. by left. }
  f_equal. apply IH; [done|]. intros x Hx [->|H']; [done|].
  apply (Hs x); [by right | done].
Qed.

Lemma unique_NoDup_id l : List.NoDup l -> unique l = l.
Proof. intros H. apply unique_from_NoDup_id; [done | by intros x _ []]. Qed.

Lemma str_in_unique_true name c :
  str_in_unique name c = true <-> col_has_label c name.
Proof.
  destruct c as [l|l]; simpl; [|split; [congruence | done]].
  by rewrite existsb_eqb_In, unique_In.
Qed.

Lemma str_in_unique_false name c :
  str_in_unique name c = false <-> ~ col_has_label c name.
Proof.
  rewrite <- str_in_unique_true. destruct (str_in_unique name c); split; congruence.
Qed.

Lemma non_control_In cn c x :
  In x (non_control cn c) <-> col_has_label c x /\ x <> cn.
Proof.
  destruct c as [l|l]; simpl; [|tauto].
  rewrite List.filter_In, unique_In, negb_true_iff, String.eqb_neq. tauto.
Qed.

Lemma non_control_NoDup cn c : List.NoDup (non_control cn c).
Proof.
  destruct c as [l|l]; simpl; [|constructor].
  apply List.NoDup_filter, unique_from_NoDup.
Qed.

Lemma non_control_several cn c :
  (1 <? length (non_control cn c))%nat = true <-> several_treatments c cn.
Proof.
  rewrite Nat.ltb_lt. split.
  - intros Hlen. pose proof (non_control_NoDup cn c) as Hnd.
    destruct (non_control cn c) as [|a [|b r]] eqn:E; simpl in Hlen; try lia.
    assert (In a (non_control cn c)) as Ha by (rewrite E; simpl; auto).
    assert (In b (non_control cn c)) as Hb by (rewrite E; simpl; auto).
    apply non_control_In in Ha, Hb. exists a, b.
    inversion Hnd as [|? ? Hab _]; subst. simpl in Hab. intuition.
  - intros (a & b & Ha & Hb & Hac & Hbc & Hab).
    assert (In a (non_control cn c)) as Ha' by (by apply non_control_In).
    assert (In b (non_control cn c)) as Hb' by (by apply non_control_In).
    destruct (non_control cn c) as [|x [|y r]]; simpl in *; try lia.
    destruct Ha' as [<-|[]], Hb' as [<-|[]]. congruence.
Qed.

Lemma non_control_not_several cn c :
  (1 <? length (non_control cn c))%nat = false <-> ~ several_treatments c cn.
Proof.
  rewrite <- non_control_several.
  destruct (1 <? length (non_control cn c))%nat; split; congruence.
Qed.

(** ** Running the primitives *)

Lemma bind_ok {A B} (m : M A) (k : A -> M B) h h' a :
  m h = (h', Ok a) -> bind m k h = k a h'.
Proof. intros H. unfold bind. by rewrite H. Qed.

Lemma bind_raise {A B} (m : M A) (k : A -> M B) h h' e :
  m h = (h', Raise e) -> bind m k h = (h', Raise e).
Proof. intros H. unfold bind. by rewrite H. Qed.

Lemma read_run (h : heap) l v : h !! l = Some v -> read l h = (h, Ok v).
Proof. intros H. unfold read. by rewrite H. Qed.

Lemma copy_run (h : heap) l v :
  h !! l = Some v -> copy l h = (<[fresh_loc h := v]> h, Ok (fresh_loc h)).
Proof. intros H. unfold copy. by rewrite (bind_ok _ _ _ _ _ (read_run h l v H)). Qed.

Lemma getitem_run (h : heap) l v name :
  h !! l = Some v -> getitem l name h = (h, df_getitem v name).
Proof.
  intros H. unfold getitem. by rewrite (bind_ok _ _ _ _ _ (read_run h l v H)).
Qed.

Lemma setitem_run (h : heap) l v name c :
  h !! l = Some v ->
  setitem l name c h =
    match df_setitem v name c with
    | Ok v' => (<[l := v']> h, Ok tt)
    | Raise e => (h, Raise e)
    end.
Proof.
  intros H. unfold setitem. rewrite (bind_ok _ _ _ _ _ (read_run h l v H)).
  unfold bind, lift, write. by destruct (df_setitem v name c).
Qed.

Lemma drop_inplace_run (h : heap) l v name :
  h !! l = Some v ->
  drop_inplace l name h =
    match df_drop v name with
    | Ok v' => (<[l := v']> h, Ok tt)
    | Raise e => (h, Raise e)
    end.
Proof.
  intros H. unfold drop_inplace. rewrite (bind_ok _ _ _ _ _ (read_run h l v H)).
  unfold bind, lift, write. by destruct (df_drop v name).
Qed.

Lemma df_getitem_Some v name c :
  od_get (df_cols v) name = Some c -> df_getitem v name = Ok c.
Proof. intros H. unfold df_getitem. by rewrite H. Qed.

(** ** Closed forms of the validating helpers *)

Lemma get_unique_treatments_run df tc cn (h : heap) v c :
  h !! df = Some v -> od_get (df_cols v) tc = Some c ->
  _get_unique_treatments df tc cn h =
    (h, if str_in_unique cn c then Ok (non_control cn c)
        else Raise MissingControlError).
Proof.
  intros Hdf Hc. unfold _get_unique_treatments.
  rewrite (bind_ok _ _ h h c).
  - by destruct (str_in_unique cn c).
  - by rewrite (getitem_run h df v), (df_getitem_Some v tc c).
Qed.

Lemma filter_by_treatment_run df tc tn cn (h : heap) v c :
  h !! df = Some v -> od_get (df_cols v) tc = Some c ->
  _filter_by_treatment df tc tn cn h =
    if negb (str_in_unique cn c) then (h, Raise MissingControlError)
    else if negb (str_in_unique tn c) then (h, Raise MissingTreatmentError)
    else (<[fresh_loc h := df_loc_mask v (treatment_or_control c tn cn)]> h,
          Ok (fresh_loc h)).
Proof.
  intros Hdf Hc. unfold _filter_by_treatment.
  rewrite (bind_ok _ _ h h c)
    by (by rewrite (getitem_run h df v), (df_getitem_Some v tc c)).
  destruct (str_in_unique cn c); simpl; [|done].
  destruct (str_in_unique tn c); simpl; [|done].
  by rewrite (bind_ok _ _ _ _ _ (read_run h df v Hdf)).
Qed.

Lemma create_treatment_flag_run df tc tn cn (h : heap) v c :
  h !! df = Some v -> od_get (df_cols v) tc = Some c ->
  _create_treatment_flag df tc tn cn h =
    let l := fresh_loc h in
    if negb (str_in_unique cn c) then (<[l := v]> h, Raise MissingControlError)
    else if (1 <? length (non_control cn c))%nat
    then (<[l := v]> h, Raise MultipleTreatmentsError)
    else if negb (str_in_unique tn c)
    then (<[l := v]> h, Raise MissingTreatmentError)
    else match df_setitem v TREATMENT_FEATURE (flag_values c tn) with
         | Ok v' => (<[l := v']> h, Ok l)
         | Raise e => (<[l := v]> h, Raise e)
         end.
Proof.
  intros Hdf Hc. unfold _create_treatment_flag. cbv zeta.
  set (l := fresh_loc h). set (h1 := <[l := v]> h).
  assert (h1 !! l = Some v) as Hl by apply lookup_insert_eq.
  rewrite (bind_ok _ _ h h1 l) by (by apply copy_run).
  rewrite (bind_ok _ _ h1 h1 c)
    by (by rewrite (getitem_run h1 l v), (df_getitem_Some v tc c)).
  unfold bind at 1. rewrite (get_unique_treatments_run l tc cn h1 v c Hl Hc).
  destruct (str_in_unique cn c); simpl; [|done].
  destruct (1 <? length (non_control cn c))%nat; [done|].
  destruct (str_in_unique tn c); simpl; [|done].
  rewrite (bind_ok _ _ h1 h1 c)
    by (by rewrite (getitem_run h1 l v), (df_getitem_Some v tc c)).
  unfold bind at 1. rewrite (setitem_run h1 l v) by done.
  destruct (df_setitem v TREATMENT_FEATURE (flag_values c tn)); [|done].
  unfold ret, h1. by rewrite insert_insert_eq.
Qed.

(** ** Validation *)

(** C6. When the treatment column does not hold the control label, the
    resolver, the two-group filter and the flag injection all raise
    [MissingControlError]; none of them returns a value. *)
Theorem missing_control_raised_by_every_validator
  df tc tn cn (h : heap) v c :
  h !! df = Some v -> od_get (df_cols v) tc = Some c ->
  ~ col_has_label c cn ->
  snd (_get_unique_treatments df tc cn h) = Raise MissingControlError /\
  snd (_filter_by_treatment df tc tn cn h) = Raise MissingControlError /\
  snd (_create_treatment_flag df tc tn cn h) = Raise MissingControlError.
Proof.
  intros Hdf Hc Hno. apply str_in_unique_false in Hno.
  rewrite (get_unique_treatments_run df tc cn h v c Hdf Hc).
  rewrite (filter_by_treatment_run df tc tn cn h v c Hdf Hc).
  rewrite (create_treatment_flag_run df tc tn cn h v c Hdf Hc).
  cbv zeta. by rewrite Hno.
Qed.

Lemma missing_control_witness :
  snd (_get_unique_treatments 1%positive "treatment" "control"
         (store1 df_only_treatment_A)) = Raise MissingControlError /\
  snd (_filter_by_treatment 1%positive "treatment" "treatment_A" "control"
         (store1 df_only_treatment_A)) = Raise MissingControlError /\
  snd (_create_treatment_flag 1%positive "treatment" "treatment_A" "control"
         (store1 df_only_treatment_A)) = Raise MissingControlError.
Proof.
  apply (missing_control_raised_by_every_validator 1%positive "treatment"
           "treatment_A" "control" (store1 df_only_treatment_A)
           df_only_treatment_A
           (StrCol ["treatment_A"; "treatment_A"; "treatment_A";
                    "treatment_A"; "treatment_A"])).
  - reflexivity.
  - reflexivity.
  - simpl. intros H. repeat destruct H as [H|H]; try discriminate H. exact H.
Defined.

(** C3, as the code has it.  With several distinct non-control labels in
    the column, flag injection raises [MultipleTreatmentsError] when the
    control label is present, whether or not the requested treatment is
    there; when the control label is absent it raises
    [MissingControlError], because the resolver that counts the
    treatments checks for the control first.  The order in effect is
    control, multiple, treatment. *)
Theorem flag_injection_validation_order df tc tn cn (h : heap) v c :
  h !! df = Some v -> od_get (df_cols v) tc = Some c ->
  several_treatments c cn ->
  (col_has_label c cn ->
   snd (_create_treatment_flag df tc tn cn h) = Raise MultipleTreatmentsError) /\
  (~ col_has_label c cn ->
   snd (_create_treatment_flag df tc tn cn h) = Raise MissingControlError).
Proof.
  intros Hdf Hc Hsev. apply non_control_several in Hsev.
  rewrite (create_treatment_flag_run df tc tn cn h v c Hdf Hc). cbv zeta.
  split; intros Hcn.
  - apply str_in_unique_true in Hcn. by rewrite Hcn, Hsev.
  - apply str_in_unique_false in Hcn. by rewrite Hcn.
Qed.

Lemma flag_injection_validation_order_witness :
  snd (_create_treatment_flag 1%positive "treatment" "A" "control"
         (store1 df_control_B_C)) = Raise MultipleTreatmentsError.
Proof.
  apply (flag_injection_validation_order 1%positive "treatment" "A" "control"
           (store1 df_control_B_C) df_control_B_C
           (StrCol ["control"; "B"; "C"])).
  - reflexivity.
  - reflexivity.
  - exists "B", "C". simpl. repeat split; auto; discriminate.
  - simpl. auto.
Defined.

(** C3 as stated fails: two distinct non-control labels and no control
    give [MissingControlError], not [MultipleTreatmentsError]. *)
Lemma multiple_before_control_counterexample :
  several_treatments (StrCol ["A"; "B"]) "control" /\
  od_get (df_cols df_A_B) "treatment" = Some (StrCol ["A"; "B"]) /\
  snd (_create_treatment_flag 1%positive "treatment" "A" "control"
         (store1 df_A_B)) = Raise MissingControlError /\
  snd (_create_treatment_flag 1%positive "treatment" "A" "control"
         (store1 df_A_B)) <> Raise MultipleTreatmentsError.
Proof.
  split; [|split; [reflexivity|]].
  - exists "A", "B". simpl. repeat split; auto; discriminate.
  - assert (snd (_create_treatment_flag 1%positive "treatment" "A" "control"
                   (store1 df_A_B)) = Raise MissingControlError) as E
      by (vm_compute; reflexivity).
    split; [exact E | rewrite E; discriminate].
Qed.

(** C7, as the code has it.  With the control label present and the
    requested treatment absent, the filter raises [MissingTreatmentError];
    the filter tests the control first, so it raises
    [MissingControlError] when the control is absent whatever else is
    there, and both tests look at the column of the whole input.  Flag
    injection raises [MissingTreatmentError] when the column holds at
    most one distinct non-control label, and [MultipleTreatmentsError]
    when it holds several. *)
Theorem missing_treatment_raised df tc tn cn (h : heap) v c :
  h !! df = Some v -> od_get (df_cols v) tc = Some c ->
  (col_has_label c cn -> ~ col_has_label c tn ->
   snd (_filter_by_treatment df tc tn cn h) = Raise MissingTreatmentError) /\
  (~ col_has_label c cn ->
   snd (_filter_by_treatment df tc tn cn h) = Raise MissingControlError) /\
  (col_has_label c cn -> ~ col_has_label c tn -> ~ several_treatments c cn ->
   snd (_create_treatment_flag df tc tn cn h) = Raise MissingTreatmentError) /\
  (col_has_label c cn -> ~ col_has_label c tn -> several_treatments c cn ->
   snd (_create_treatment_flag df tc tn cn h) = Raise MultipleTreatmentsError).
Proof.
  intros Hdf Hc.
  rewrite (filter_by_treatment_run df tc tn cn h v c Hdf Hc).
  rewrite (create_treatment_flag_run df tc tn cn h v c Hdf Hc). cbv zeta.
  repeat split.
  - intros Hcn Htn. apply str_in_unique_true in Hcn.
    apply str_in_unique_false in Htn. by rewrite Hcn, Htn.
  - intros Hcn. apply str_in_unique_false in Hcn. by rewrite Hcn.
  - intros Hcn Htn Hsev. apply str_in_unique_true in Hcn.
    apply str_in_unique_false in Htn. apply non_control_not_several in Hsev.
    by rewrite Hcn, Htn, Hsev.
  - intros Hcn Htn Hsev. apply str_in_unique_true in Hcn.
    apply non_control_several in Hsev. by rewrite Hcn, Hsev.
Qed.

Lemma missing_treatment_witness :
  snd (_filter_by_treatment 1%positive "treatment" "A" "control"
         (store1 df_control_B)) = Raise MissingTreatmentError /\
  snd (_create_treatment_flag 1%positive "treatment" "A" "control"
         (store1 df_control_B)) = Raise MissingTreatmentError.
Proof.
  pose proof (missing_treatment_raised 1%positive "treatment" "A" "control"
                (store1 df_control_B) df_control_B
                (StrCol ["control"; "B"; "B"]) eq_refl eq_refl)
    as (Hf & _ & Hc & _).
  assert (col_has_label (StrCol ["control"; "B"; "B"]) "control") as Hcn
    by (simpl; auto).
  assert (~ col_has_label (StrCol ["control"; "B"; "B"]) "A") as Htn.
  { simpl. intros H. repeat destruct H as [H|H]; try discriminate H. exact H. }
  split; [exact (Hf Hcn Htn) | apply (Hc Hcn Htn)].
  intros (a & b & Ha & Hb & Hac & Hbc & Hab). simpl in Ha, Hb.
  repeat destruct Ha as [Ha|Ha]; repeat destruct Hb as [Hb|Hb];
    subst; try congruence; try contradiction.
Defined.

(** C7 as stated fails for flag injection: control present, treatment
    [A] absent, and two other treatments give
    [MultipleTreatmentsError]. *)
Lemma missing_treatment_counterexample :
  col_has_label (StrCol ["control"; "B"; "C"]) "control" /\
  ~ col_has_label (StrCol ["control"; "B"; "C"]) "A" /\
  od_get (df_cols df_control_B_C) "treatment"
    = Some (StrCol ["control"; "B"; "C"]) /\
  snd (_create_treatment_flag 1%positive "treatment" "A" "control"
         (store1 df_control_B_C)) = Raise MultipleTreatmentsError /\
  snd (_create_treatment_flag 1%positive "treatment" "A" "control"
         (store1 df_control_B_C)) <> Raise MissingTreatmentError.
Proof.
  split; [simpl; auto|]. split.
  { simpl. intros H. repeat destruct H as [H|H]; try discriminate H. exact H. }
  split; [reflexivity|].
  assert (snd (_create_treatment_flag 1%positive "treatment" "A" "control"
                 (store1 df_control_B_C)) = Raise MultipleTreatmentsError) as E
    by (vm_compute; reflexivity).
  split; [exact E | rewrite E; discriminate].
Qed.

(** ** Flag injection *)

Lemma lookup_map {A B} (f : A -> B) (l : list A) (i : nat) :
  map f l !! i = f <$> (l !! i).
Proof. revert i. induction l as [|x l IH]; intros [|i]; simpl; auto. Qed.

Lemma od_set_append {V} (d : odict V) k v :
  ~ In k (od_keys d) -> od_set d k v = d ++ [(k, v)].
Proof.
  induction d as [|[k' v'] d IH]; simpl; [done|].
  destruct (String.eqb k k') eqn:E.
  - apply String.eqb_eq in E. intros H. exfalso. auto.
  - intros H. rewrite IH; auto.
Qed.

Lemma df_setitem_ok v name c :
  col_len c = nrows v ->
  df_setitem v name c = Ok (mkDF (df_index v) (od_set (df_cols v) name c)).
Proof. intros H. unfold df_setitem. by rewrite H, Nat.eqb_refl. Qed.

Lemma flags_of_length labels tn : length (flags_of labels tn) = length labels.
Proof. unfold flags_of. by rewrite !length_map. Qed.

Lemma flags_of_lookup labels tn i x :
  labels !! i = Some x ->
  flags_of labels tn !! i = Some (if String.eqb x tn then 1%float else 0%float).
Proof. intros H. unfold flags_of. by rewrite !lookup_map, H. Qed.

(** C8. On a valid two-group frame flag injection returns a new frame: the
    rows and the index of the input, every column of the input other than
    [is_treatment] with its values, and [is_treatment] holding exactly 1
    on the rows of the treatment and exactly 0 on the rows of the control
    (appended as the last column when the input has no such column).  The
    frame the caller passed, and every other object of the store, is left
    as it was. *)
Theorem create_treatment_flag_on_two_groups
  df tc tn cn (h : heap) v labels :
  h !! df = Some v ->
  od_get (df_cols v) tc = Some (StrCol labels) ->
  length labels = nrows v ->
  In tn labels -> In cn labels -> tn <> cn ->
  (forall x, In x labels -> x = tn \/ x = cn) ->
  let flags := flags_of labels tn in
  let out := mkDF (df_index v)
               (od_set (df_cols v) TREATMENT_FEATURE (NumCol flags)) in
  let l' := fresh_loc h in
  _create_treatment_flag df tc tn cn h = (<[l' := out]> h, Ok l') /\
  l' <> df /\
  <[l' := out]> h !! l' = Some out /\
  <[l' := out]> h !! df = Some v /\
  preserved h (<[l' := out]> h) /\
  length flags = nrows v /\
  (forall i, labels !! i = Some tn -> flags !! i = Some 1%float) /\
  (forall i, labels !! i = Some cn -> flags !! i = Some 0%float) /\
  df_index out = df_index v /\
  (forall name, name <> TREATMENT_FEATURE ->
     od_get (df_cols out) name = od_get (df_cols v) name) /\
  od_get (df_cols out) TREATMENT_FEATURE = Some (NumCol flags) /\
  (~ In TREATMENT_FEATURE (df_names v) ->
     df_cols out = df_cols v ++ [(TREATMENT_FEATURE, NumCol flags)]).
Proof.
  intros Hdf Hc Hlen Htn Hcn Hne Htwo flags out l'.
  assert (l' <> df) as Hl'.
  { intros E. pose proof (fresh_loc_None h) as Hf. fold l' in Hf.
    rewrite E, Hdf in Hf. discriminate. }
  repeat split.
  - rewrite (create_treatment_flag_run df tc tn cn h v _ Hdf Hc). cbv zeta.
    assert (str_in_unique cn (StrCol labels) = true) as ->
      by (by apply str_in_unique_true).
    assert (str_in_unique tn (StrCol labels) = true) as ->
      by (by apply str_in_unique_true).
    assert ((1 <? length (non_control cn (StrCol labels)))%nat = false) as ->.
    { apply non_control_not_several.
      intros (a & b & Ha & Hb & Hac & Hbc & Hab). simpl in Ha, Hb.
      destruct (Htwo a Ha), (Htwo b Hb); congruence. }
    simpl negb. cbv iota.
    rewrite df_setitem_ok; [done|].
    simpl. by rewrite !length_map.
  - exact Hl'.
  - apply lookup_insert_eq.
  - by rewrite lookup_insert_ne.
  - apply preserved_alloc, preserved_refl.
  - unfold flags. by rewrite flags_of_length.
  - intros i Hi. unfold flags. rewrite (flags_of_lookup _ _ _ _ Hi).
    by rewrite String.eqb_refl.
  - intros i Hi. unfold flags. rewrite (flags_of_lookup _ _ _ _ Hi).
    destruct (String.eqb cn tn) eqn:E; [|done].
    apply String.eqb_eq in E. congruence.
  - intros name Hname. simpl. by apply od_get_set_ne.
  - simpl. apply od_get_set_eq.
  - intros Hnot. simpl. by apply od_set_append.
Qed.

Lemma create_treatment_flag_witness :
  _create_treatment_flag 1%positive "group" "treatment" "control"
    (store1 df_two_groups)
  = (<[2%positive :=
         mkDF [0; 1; 2; 3]%Z
           [("feature", NumCol [1.3; 1.0; 1.8; -0.1]%float);
            ("group", StrCol ["treatment"; "treatment"; "control"; "control"]);
            ("target", NumCol [1; 1; 1; 0]%float);
            ("is_treatment", NumCol [1; 1; 0; 0]%float)]]> (store1 df_two_groups),
     Ok 2%positive).
Proof.
  refine (proj1 (create_treatment_flag_on_two_groups 1%positive "group"
            "treatment" "control" (store1 df_two_groups) df_two_groups
            ["treatment"; "treatment"; "control"; "control"]
            eq_refl eq_refl eq_refl _ _ _ _)).
  - simpl. auto.
  - simpl. auto.
  - discriminate.
  - simpl. intros x H. repeat destruct H as [H|H]; auto; contradiction.
Defined.

(** ** The two-group filter *)

Lemma mask_filter_nil {A} (m : list bool) : mask_filter m (@nil A) = [].
Proof. by destruct m. Qed.

Lemma mask_filter_map {A} (f : A -> bool) (l : list A) :
  mask_filter (map f l) l = List.filter f l.
Proof.
  induction l as [|x l IH]; simpl; [done|]. rewrite IH. by destruct (f x).
Qed.

Lemma mask_filter_length {A B} (m : list bool) (l1 : list A) (l2 : list B) :
  length l1 = length l2 ->
  length (mask_filter m l1) = length (mask_filter m l2).
Proof.
  revert l1 l2. induction m as [|b m IH]; intros [|x l1] [|y l2] H;
    simpl in *; try done.
  destruct b; simpl; auto.
Qed.

Lemma od_get_map_values {V W} (f : V -> W) (d : odict V) k :
  od_get (map (fun kc => (fst kc, f (snd kc))) d) k = f <$> od_get d k.
Proof.
  induction d as [|[k' v'] d IH]; simpl; [done|].
  by destruct (String.eqb k k').
Qed.

Lemma od_keys_map_values {V W} (f : V -> W) (d : odict V) :
  od_keys (map (fun kc => (fst kc, f (snd kc))) d) = od_keys d.
Proof. unfold od_keys. rewrite map_map. by apply map_ext. Qed.

Lemma col_head_mask m c : col_head (col_mask (true :: m) c) = col_head c.
Proof. by destruct c as [[|x l]|[|x l]]. Qed.

Lemma col_tail_mask b m c :
  col_mask m (col_tail c) =
  if b : bool then col_tail (col_mask (b :: m) c) else col_mask (b :: m) c.
Proof.
  destruct c as [[|x l]|[|x l]], b; simpl; by rewrite ?mask_filter_nil.
Qed.

Lemma rows_of_mask m idx cols :
  rows_of (mask_filter m idx)
          (map (fun kc => (fst kc, col_mask m (snd kc))) cols)
  = mask_filter m (rows_of idx cols).
Proof.
  revert idx cols. induction m as [|b m IH]; intros [|i idx] cols; try done.
  simpl. destruct b; simpl.
  - f_equal; [f_equal|].
    + rewrite map_map. apply map_ext. intros [k c]. simpl.
      by rewrite col_head_mask.
    + rewrite <- IH. f_equal. rewrite !map_map. apply map_ext.
      intros [k c]. simpl. by rewrite (col_tail_mask true).
  - rewrite <- IH. f_equal. rewrite !map_map. apply map_ext.
    intros [k c]. simpl. by rewrite (col_tail_mask false).
Qed.

Lemma treatment_or_control_StrCol l tn cn :
  treatment_or_control (StrCol l) tn cn
  = map (fun s => orb (String.eqb s tn) (String.eqb s cn)) l.
Proof.
  unfold treatment_or_control. simpl.
  induction l as [|s l IH]; simpl; [done|]. by rewrite IH.
Qed.

Lemma treatment_or_control_tail c tn cn :
  treatment_or_control (col_tail c) tn cn = tl (treatment_or_control c tn cn).
Proof. by destruct c as [[|x l]|[|x l]]. Qed.

Lemma rows_of_mask_values tc tn cn idx cols c :
  od_get cols tc = Some c -> col_len c = length idx ->
  map (in_two_groups tc tn cn) (rows_of idx cols)
  = treatment_or_control c tn cn.
Proof.
  revert cols c. induction idx as [|i idx IH]; intros cols c Hc Hlen.
  - by destruct c as [[|x l]|[|x l]].
  - simpl. rewrite (IH _ (col_tail c)).
    + rewrite treatment_or_control_tail.
      unfold in_two_groups at 1. simpl.
      rewrite od_get_map_values, Hc. simpl.
      by destruct c as [[|x l]|[|x l]].
    + by rewrite od_get_map_values, Hc.
    + destruct c as [[|x l]|[|x l]]; simpl in *; lia.
Qed.

Lemma df_rows_two_groups v tc tn cn c :
  od_get (df_cols v) tc = Some c -> col_len c = nrows v ->
  df_rows (df_loc_mask v (treatment_or_control c tn cn))
  = List.filter (in_two_groups tc tn cn) (df_rows v).
Proof.
  intros Hc Hlen. unfold df_rows, df_loc_mask. simpl.
  rewrite rows_of_mask.
  rewrite <- (rows_of_mask_values tc tn cn (df_index v) (df_cols v) c Hc Hlen).
  apply mask_filter_map.
Qed.

Lemma col_has_label_two_groups c tn cn x :
  col_has_label (col_mask (treatment_or_control c tn cn) c) x
  <-> col_has_label c x /\ (x = tn \/ x = cn).
Proof.
  destruct c as [l|l]; simpl; [|tauto].
  rewrite treatment_or_control_StrCol, mask_filter_map, List.filter_In.
  rewrite orb_true_iff, !String.eqb_eq. tauto.
Qed.

(** ** Fitting *)

Section FitFacts.
Context {Log : Type}.
Context (df : loc) (tc cn : string) (v : DataFrame) (c : column).
Implicit Types (learner : LearnerFnType Log) (h : heap).
Implicit Types (F : odict PredictFnType) (L : odict Log).
Hypothesis Hc : od_get (df_cols v) tc = Some c.
Hypothesis Hlen : col_len c = nrows v.
Hypothesis Hcn : col_has_label c cn.

Lemma fit_loop_step learner t rest F L h :
  h !! df = Some v -> col_has_label c t ->
  fit_store h v tc t cn !! df = Some v /\
  fit_loop df learner tc cn (t :: rest) F L h =
    match learner (fit_input v tc t cn) with
    | Ok r =>
        fit_loop df learner tc cn rest
          (od_set F t (fst (fst r))) (od_set L t (snd r))
          (fit_store h v tc t cn)
    | Raise e => (fit_store h v tc t cn, Raise e)
    end.
Proof using Hc Hlen Hcn.
  intros Hdf Ht.
  set (m := treatment_or_control c t cn).
  set (sub := df_loc_mask v m).
  set (l1 := fresh_loc h). set (h1 := <[l1 := sub]> h).
  set (fi := fit_input v tc t cn).
  set (l2 := fresh_loc h1). set (h2 := <[l2 := fi]> h1).
  assert (preserved h h1) as Hp1 by apply preserved_alloc, preserved_refl.
  assert (preserved h h2) as Hp2.
  { intros l x Hx. apply (preserved_alloc h1 h1); [apply preserved_refl|].
    by apply Hp1. }
  assert (fit_store h v tc t cn = h2) as ->
    by (unfold fit_store; by rewrite Hc).
  split; [by apply Hp2|].
  assert (h1 !! l1 = Some sub) as Hl1 by apply lookup_insert_eq.
  assert (od_get (df_cols sub) tc = Some (col_mask m c)) as Hc'.
  { unfold sub, df_loc_mask. simpl. by rewrite od_get_map_values, Hc. }
  simpl fit_loop.
  rewrite (bind_ok _ _ h h1 l1).
  2:{ rewrite (filter_by_treatment_run df tc t cn h v c Hdf Hc).
      apply str_in_unique_true in Hcn, Ht. by rewrite Hcn, Ht. }
  rewrite (bind_ok _ _ h1 h2 l2).
  2:{ rewrite (create_treatment_flag_run l1 tc t cn h1 sub _ Hl1 Hc').
      cbv zeta.
      assert (str_in_unique cn (col_mask m c) = true) as ->.
      { apply str_in_unique_true, col_has_label_two_groups. auto. }
      assert (str_in_unique t (col_mask m c) = true) as ->.
      { apply str_in_unique_true, col_has_label_two_groups. auto. }
      assert ((1 <? length (non_control cn (col_mask m c)))%nat = false) as ->.
      { apply non_control_not_several.
        intros (a & b & Ha & Hb & Hac & Hbc & Hab).
        apply col_has_label_two_groups in Ha, Hb.
        destruct Ha as [_ [?|?]], Hb as [_ [?|?]]; congruence. }
      simpl negb. cbv iota.
      rewrite df_setitem_ok.
      - unfold h2, fi, fit_input, l2. rewrite Hc. cbv zeta.
        fold m. by fold sub.
      - unfold flag_values, nrows, sub, df_loc_mask. simpl.
        rewrite length_map.
        destruct c as [l|l]; simpl in *; rewrite length_map;
          by apply mask_filter_length. }
  assert (call_learner learner l2 h2 = (h2, learner fi)) as Hcall.
  { unfold call_learner.
    by rewrite (bind_ok _ _ h2 h2 fi) by (apply read_run, lookup_insert_eq). }
  unfold bind at 1. rewrite Hcall. by destruct (learner fi) as [r|e].
Qed.

Lemma od_keys_set_unique_from {V} (d : odict V) t x rest :
  od_keys (od_set d t x) ++ unique_from (od_keys (od_set d t x)) rest
  = od_keys d ++ unique_from (od_keys d) (t :: rest).
Proof.
  simpl. destruct (existsb (String.eqb t) (od_keys d)) eqn:E.
  - apply existsb_eqb_In in E. by rewrite od_keys_set_in.
  - apply existsb_eqb_not_In in E. rewrite od_keys_set_notin by done.
    rewrite <- app_assoc. simpl. do 2 f_equal.
    apply unique_from_ext. intros y. rewrite in_app_iff. simpl. tauto.
Qed.

Lemma fit_loop_ok learner treatments : forall F L h,
  h !! df = Some v ->
  (forall t, In t treatments -> col_has_label c t) ->
  (forall t, In t treatments ->
     exists r, learner (fit_input v tc t cn) = Ok r) ->
  exists h' F' L',
    fit_loop df learner tc cn treatments F L h = (h', Ok (F', L')) /\
    h' !! df = Some v /\
    od_keys F' = od_keys F ++ unique_from (od_keys F) treatments /\
    od_keys L' = od_keys L ++ unique_from (od_keys L) treatments /\
    (forall t, In t treatments ->
       exists r, learner (fit_input v tc t cn) = Ok r /\
         od_get F' t = Some (fst (fst r)) /\ od_get L' t = Some (snd r)) /\
    (forall k, ~ In k treatments ->
       od_get F' k = od_get F k /\ od_get L' k = od_get L k).
Proof using Hc Hlen Hcn.
  induction treatments as [|t rest IH]; intros F L h Hdf Hlab Hok.
  - exists h, F, L. simpl. rewrite !app_nil_r. repeat split; tauto.
  - destruct (fit_loop_step learner t rest F L h Hdf
                (Hlab t (or_introl eq_refl))) as [Hdf2 ->].
    set (h2 := fit_store h v tc t cn) in *.
    destruct (Hok t) as [r Hr]; [by left|]. rewrite Hr.
    destruct (IH (od_set F t (fst (fst r))) (od_set L t (snd r)) h2 Hdf2)
      as (h' & F' & L' & -> & Hdf' & HkF & HkL & Hval & Hoth).
    { intros t' Ht'. apply Hlab. by right. }
    { intros t' Ht'. apply Hok. by right. }
    exists h', F', L'. split; [done|]. split; [done|].
    split; [by rewrite HkF, od_keys_set_unique_from|].
    split; [by rewrite HkL, od_keys_set_unique_from|].
    split.
    + intros t' Ht'.
      destruct (List.in_dec String.string_dec t' rest) as [Hin|Hnin];
        [by apply Hval|].
      destruct Ht' as [<-|Ht']; [|done].
      exists r. destruct (Hoth t Hnin) as [-> ->].
      by rewrite !od_get_set_eq.
    + intros k Hk. destruct (Hoth k) as [-> ->].
      { intros H. apply Hk. by right. }
      assert (t <> k) by (intros ->; apply Hk; by left).
      by rewrite !od_get_set_ne.
Qed.

Lemma fit_loop_raise learner pre t post e : forall F L h,
  h !! df = Some v ->
  (forall t', In t' (pre ++ [t]) -> col_has_label c t') ->
  (forall t', In t' pre ->
     exists r, learner (fit_input v tc t' cn) = Ok r) ->
  learner (fit_input v tc t cn) = Raise e ->
  snd (fit_loop df learner tc cn (pre ++ t :: post) F L h) = Raise e.
Proof using Hc Hlen Hcn.
  induction pre as [|t0 pre IH]; intros F L h Hdf Hlab Hok Hraise.
  - simpl app.
    destruct (fit_loop_step learner t post F L h Hdf
                (Hlab t (or_introl eq_refl))) as [Hdf2 ->].
    by rewrite Hraise.
  - simpl app.
    destruct (fit_loop_step learner t0 (pre ++ t :: post) F L h Hdf
                (Hlab t0 (or_introl eq_refl))) as [Hdf2 ->].
    destruct (Hok t0) as [r Hr]; [by left|]. rewrite Hr.
    apply IH; [done| |by intros t' Ht'; apply Hok; right|done].
    intros t' Ht'. apply Hlab. by right.
Qed.

Lemma fit_loop_ext learner1 learner2 treatments : forall F L h,
  h !! df = Some v ->
  (forall t, In t treatments -> col_has_label c t) ->
  (forall t, In t treatments ->
     learner1 (fit_input v tc t cn) = learner2 (fit_input v tc t cn)) ->
  fit_loop df learner1 tc cn treatments F L h
  = fit_loop df learner2 tc cn treatments F L h.
Proof using Hc Hlen Hcn.
  induction treatments as [|t rest IH]; intros F L h Hdf Hlab Hagree; [done|].
  assert (col_has_label c t) as Ht by (apply Hlab; by left).
  destruct (fit_loop_step learner1 t rest F L h Hdf Ht) as [Hdf2 ->].
  destruct (fit_loop_step learner2 t rest F L h Hdf Ht) as [_ ->].
  rewrite <- (Hagree t) by (by left).
  destruct (learner1 (fit_input v tc t cn)) as [r|e]; [|done].
  apply IH; [done| |].
  - intros t' Ht'. apply Hlab. by right.
  - intros t' Ht'. apply Hagree. by right.
Qed.
End FitFacts.

(** C5. With the control and every listed treatment present in the
    treatment column, [_fit_by_treatment] returns two dictionaries when
    every fit returns: their keys are the listed treatments in list order
    (each once), and each key holds the predictor and the log that the
    learner returned for the two-group frame of that treatment.  When the
    fit of a treatment raises after the earlier ones returned, the call
    raises that exception and returns no dictionary. *)
Theorem fit_by_treatment_keys_and_failure {Log : Type}
  df (learner : LearnerFnType Log) tc cn treatments (h : heap) v c :
  h !! df = Some v -> od_get (df_cols v) tc = Some c ->
  col_len c = nrows v -> col_has_label c cn ->
  (forall t, In t treatments -> col_has_label c t) ->
  ((forall t, In t treatments ->
      exists r, learner (fit_input v tc t cn) = Ok r) ->
   exists fitted logs,
     snd (_fit_by_treatment df learner tc cn treatments h) = Ok (fitted, logs) /\
     od_keys fitted = unique treatments /\
     od_keys logs = unique treatments /\
     (List.NoDup treatments ->
        od_keys fitted = treatments /\ od_keys logs = treatments) /\
     (forall t, In t treatments ->
        exists r, learner (fit_input v tc t cn) = Ok r /\
          od_get fitted t = Some (fst (fst r)) /\
          od_get logs t = Some (snd r))) /\
  (forall pre t post e,
     treatments = pre ++ t :: post ->
     (forall t', In t' pre ->
        exists r, learner (fit_input v tc t' cn) = Ok r) ->
     learner (fit_input v tc t cn) = Raise e ->
     snd (_fit_by_treatment df learner tc cn treatments h) = Raise e).
Proof.
  intros Hdf Hc Hlen Hcn Hlab. split.
  - intros Hok.
    destruct (fit_loop_ok df tc cn v c Hc Hlen Hcn learner treatments [] [] h
                Hdf Hlab Hok)
      as (h' & F' & L' & E & _ & HkF & HkL & Hval & _).
    exists F', L'. unfold _fit_by_treatment. rewrite E. simpl in HkF, HkL.
    fold (unique treatments) in HkF, HkL.
    repeat split; try done.
    + rewrite HkF. by apply unique_NoDup_id.
    + rewrite HkL. by apply unique_NoDup_id.
  - intros pre t post e -> Hok Hraise. unfold _fit_by_treatment.
    apply (fit_loop_raise df tc cn v c Hc Hlen Hcn); try done.
    intros t' Ht'. apply Hlab. rewrite in_app_iff in *. simpl in *. tauto.
Qed.

Lemma fit_by_treatment_witness :
  (exists fitted logs,
     snd (_fit_by_treatment 1%positive counting_learner "treatment" "control"
            ["A"; "B"] (store1 df_nine_rows)) = Ok (fitted, logs) /\
     od_keys fitted = ["A"; "B"] /\ od_keys logs = ["A"; "B"]) /\
  snd (_fit_by_treatment 1%positive (learner_failing_on "B") "treatment"
         "control" ["A"; "B"] (store1 df_nine_rows))
  = Raise (LearnerFailure "B").
Proof.
  assert (forall t, In t ["A"; "B"] ->
            col_has_label
              (StrCol ["A"; "B"; "A"; "A"; "B"; "control"; "control"; "B";
                       "control"]) t) as Hlab.
  { intros t [<-|[<-|[]]]; simpl; auto. }
  assert (col_has_label
            (StrCol ["A"; "B"; "A"; "A"; "B"; "control"; "control"; "B";
                     "control"]) "control") as Hcn by (simpl; auto 10).
  split.
  - destruct (proj1 (fit_by_treatment_keys_and_failure 1%positive
                       counting_learner "treatment" "control" ["A"; "B"]
                       (store1 df_nine_rows) df_nine_rows _
                       eq_refl eq_refl eq_refl Hcn Hlab))
      as (fitted & logs & E & HkF & HkL & _).
    + intros t _. eexists. reflexivity.
    + exists fitted, logs. split; [exact E|]. split; [exact HkF | exact HkL].
  - apply (proj2 (fit_by_treatment_keys_and_failure 1%positive
                    (learner_failing_on "B") "treatment" "control" ["A"; "B"]
                    (store1 df_nine_rows) df_nine_rows _
                    eq_refl eq_refl eq_refl Hcn Hlab) ["A"] "B" [] _ eq_refl).
    + intros t [<-|[]]. eexists. vm_compute. reflexivity.
    + vm_compute. reflexivity.
Defined.

(** C9. With the treatment and the control present, the filter returns a
    new frame whose rows are exactly the rows of the input whose
    treatment-column value is the treatment or the control, in the order
    of the input, with all the columns of the input; the input is left as
    it was.  The frame a learner is fitted on is that frame with the flag
    column set: for every learner and every list of treatments present
    in the column, when the fits return, [_fit_by_treatment] stores under
    each treatment the predictor and the log that the learner returned on
    the frame of that treatment, whose index and columns other than the
    flag are those of the filter's result for that treatment, so its rows
    are the rows of the input in the treatment's group or in the control
    group, in order.  What [_fit_by_treatment] returns therefore depends
    on the learner only through what it does on those two-group
    frames. *)
Theorem filter_by_treatment_two_groups {Log : Type}
  df tc tn cn (h : heap) v c :
  h !! df = Some v -> od_get (df_cols v) tc = Some c ->
  col_len c = nrows v -> col_has_label c tn -> col_has_label c cn ->
  let sub := df_loc_mask v (treatment_or_control c tn cn) in
  _filter_by_treatment df tc tn cn h
    = (<[fresh_loc h := sub]> h, Ok (fresh_loc h)) /\
  <[fresh_loc h := sub]> h !! df = Some v /\
  df_rows sub = List.filter (in_two_groups tc tn cn) (df_rows v) /\
  (forall r, In r (df_rows sub) <->
             In r (df_rows v) /\ in_two_groups tc tn cn r = true) /\
  df_names sub = df_names v /\
  df_index (fit_input v tc tn cn) = df_index sub /\
  (forall name, name <> TREATMENT_FEATURE ->
     od_get (df_cols (fit_input v tc tn cn)) name = od_get (df_cols sub) name) /\
  (forall (learner1 learner2 : LearnerFnType Log) treatments,
     (forall t, In t treatments -> col_has_label c t) ->
     (forall t, In t treatments ->
        learner1 (fit_input v tc t cn) = learner2 (fit_input v tc t cn)) ->
     _fit_by_treatment df learner1 tc cn treatments h
     = _fit_by_treatment df learner2 tc cn treatments h) /\
  (forall (learner : LearnerFnType Log) treatments,
     (forall t, In t treatments -> col_has_label c t) ->
     (forall t, In t treatments ->
        exists r, learner (fit_input v tc t cn) = Ok r) ->
     exists fitted logs,
       snd (_fit_by_treatment df learner tc cn treatments h)
       = Ok (fitted, logs) /\
       forall t, In t treatments ->
         let sub_t := df_loc_mask v (treatment_or_control c t cn) in
         (exists r, learner (fit_input v tc t cn) = Ok r /\
            od_get fitted t = Some (fst (fst r)) /\
            od_get logs t = Some (snd r)) /\
         df_index (fit_input v tc t cn) = df_index sub_t /\
         (forall name, name <> TREATMENT_FEATURE ->
            od_get (df_cols (fit_input v tc t cn)) name
            = od_get (df_cols sub_t) name) /\
         df_rows sub_t = List.filter (in_two_groups tc t cn) (df_rows v)).
Proof.
  intros Hdf Hc Hlen Htn Hcn sub.
  assert (df_rows sub = List.filter (in_two_groups tc tn cn) (df_rows v))
    as Hrows by (by apply df_rows_two_groups).
  split.
  { rewrite (filter_by_treatment_run df tc tn cn h v c Hdf Hc).
    apply str_in_unique_true in Htn, Hcn. by rewrite Htn, Hcn. }
  split; [exact (preserved_alloc h h sub (preserved_refl h) df v Hdf)|].
  split; [exact Hrows|].
  split; [intros r; rewrite Hrows, List.filter_In; tauto|].
  split.
  { unfold sub, df_names, df_loc_mask. simpl. apply od_keys_map_values. }
  split; [unfold fit_input; by rewrite Hc|].
  split.
  { intros name Hname. unfold fit_input. rewrite Hc. simpl.
    by apply od_get_set_ne. }
  split.
  { intros learner1 learner2 treatments Hlab Hagree.
    unfold _fit_by_treatment.
    by apply (fit_loop_ext df tc cn v c Hc Hlen Hcn). }
  intros learner treatments Hlab Hok.
  destruct (fit_loop_ok df tc cn v c Hc Hlen Hcn learner treatments [] [] h
              Hdf Hlab Hok)
    as (h' & F' & L' & E & _ & _ & _ & Hval & _).
  exists F', L'. unfold _fit_by_treatment. rewrite E. split; [done|].
  intros t Ht. cbv zeta. split; [by apply Hval|].
  split; [unfold fit_input; by rewrite Hc|].
  split; [|by apply df_rows_two_groups].
  intros name Hname. unfold fit_input. rewrite Hc. simpl.
  by apply od_get_set_ne.
Qed.

Lemma filter_by_treatment_witness :
  _filter_by_treatment 1%positive "treatment" "A" "control"
    (store1 df_nine_rows)
  = (<[2%positive :=
         mkDF [0; 2; 3; 5; 6; 8]%Z
           [("x1", NumCol [1.3; 1.8; -0.1; 1.0; 2.2; -5.0]%float);
            ("x2", NumCol [10; 15; 6; 12; 14; 12]%float);
            ("treatment",
             StrCol ["A"; "A"; "A"; "control"; "control"; "control"]);
            ("target", NumCol [1; 1; 0; 1; 0; 1]%float)]]> (store1 df_nine_rows),
     Ok 2%positive) /\
  exists fitted logs,
    snd (_fit_by_treatment 1%positive counting_learner "treatment" "control"
           ["A"; "B"] (store1 df_nine_rows)) = Ok (fitted, logs) /\
    od_get logs "A" = Some 6%nat /\ od_get logs "B" = Some 6%nat.
Proof.
  assert (forall t, In t ["A"; "B"; "control"] ->
            col_has_label
              (StrCol ["A"; "B"; "A"; "A"; "B"; "control"; "control"; "B";
                       "control"]) t) as Hlab.
  { intros t [<-|[<-|[<-|[]]]]; simpl; auto 10. }
  pose proof (filter_by_treatment_two_groups (Log := nat) 1%positive
                "treatment" "A" "control" (store1 df_nine_rows) df_nine_rows
                _ eq_refl eq_refl eq_refl
                (Hlab "A" ltac:(simpl; auto)) (Hlab "control" ltac:(simpl; auto)))
    as (Hfilter & _ & _ & _ & _ & _ & _ & _ & Hfit).
  split; [exact Hfilter|].
  destruct (Hfit counting_learner ["A"; "B"]) as (fitted & logs & E & Hval).
  - intros t Ht. apply Hlab. simpl in *. tauto.
  - intros t _. eexists. reflexivity.
  - exists fitted, logs. split; [exact E|]. split.
    + destruct (Hval "A") as [(r & Hr & _ & ->) _]; [by left|].
      injection Hr as <-. reflexivity.
    + destruct (Hval "B") as [(r & Hr & _ & ->) _]; [right; by left|].
      injection Hr as <-. reflexivity.
Defined.

(** ** Counterfactual scoring *)

Lemma with_flag_setitem v (b : bool) :
  df_setitem v TREATMENT_FEATURE
    (NumCol (repeat (if b then 1%float else 0%float) (nrows v))) = Ok (with_flag v b).
Proof. apply df_setitem_ok. simpl. apply repeat_length. Qed.

(** The scorer in closed form. *)
Lemma predict_by_treatment_flag_run df f b pc (h : heap) v :
  h !! df = Some v ->
  let v1 := with_flag v b in
  let h2 := <[df := fst (f v1)]> h in
  _predict_by_treatment_flag df f b pc h =
    match snd (f v1) with
    | Raise e => (h2, Raise e)
    | Ok out =>
        let l := fresh_loc h2 in
        let h3 := <[l := out]> h2 in
        match df_drop (fst (f v1)) TREATMENT_FEATURE with
        | Raise e => (h3, Raise e)
        | Ok v4 => (<[df := v4]> h3, df_getitem out pc)
        end
    end.
Proof.
  intros Hdf v1 h2. unfold _predict_by_treatment_flag.
  rewrite (bind_ok _ _ h h v) by (by apply read_run).
  set (h1 := <[df := v1]> h).
  rewrite (bind_ok _ _ h h1 tt)
    by (by rewrite (setitem_run h df v), with_flag_setitem).
  assert (h1 !! df = Some v1) as Hdf1 by apply lookup_insert_eq.
  assert (<[df := fst (f v1)]> h1 = h2) as Hh2
    by (unfold h1, h2; apply insert_insert_eq).
  assert (h2 !! df = Some (fst (f v1))) as Hdf2 by apply lookup_insert_eq.
  assert (call_predict f df h1 =
            match snd (f v1) with
            | Ok out => (<[fresh_loc h2 := out]> h2, Ok (fresh_loc h2))
            | Raise e => (h2, Raise e)
            end) as Hcall.
  { unfold call_predict.
    rewrite (bind_ok _ _ h1 h1 v1) by (by apply read_run).
    unfold bind, write, lift, alloc. rewrite Hh2. by destruct (snd (f v1)). }
  unfold bind at 1. rewrite Hcall.
  destruct (snd (f v1)) as [out|e]; [|done]. cbv zeta.
  set (l := fresh_loc h2). set (h3 := <[l := out]> h2).
  assert (l <> df) as Hl.
  { intros E. pose proof (fresh_loc_None h2) as Hf. fold l in Hf.
    rewrite E, Hdf2 in Hf. discriminate. }
  assert (h3 !! df = Some (fst (f v1))) as Hdf3
    by (unfold h3; by rewrite lookup_insert_ne).
  unfold bind at 1. rewrite (drop_inplace_run h3 df _ _ Hdf3).
  destruct (df_drop (fst (f v1)) TREATMENT_FEATURE) as [v4|e]; [|done].
  apply getitem_run. rewrite lookup_insert_ne by done. apply lookup_insert_eq.
Qed.

Lemma with_flag_has_flag v b : In TREATMENT_FEATURE (df_names (with_flag v b)).
Proof.
  unfold df_names, with_flag. simpl.
  eapply od_get_Some_keys, od_get_set_eq.
Qed.

(** C4, as the code has it.  Whenever the predictor returns, the frame
    the scorer worked on has no [is_treatment] column after the call,
    whether or not it had one before and whether or not the prediction
    column is then found.  When the predictor raises, its exception
    propagates from the scorer and the frame is left as the predictor
    left it: there is no clean-up on that path, so a predictor that does
    not touch the frame leaves the flag column on it. *)
Theorem predict_by_treatment_flag_cleanup df f b pc (h : heap) v :
  h !! df = Some v ->
  let run := _predict_by_treatment_flag df f b pc h in
  (forall out, snd (f (with_flag v b)) = Ok out ->
     exists v', fst run !! df = Some v' /\
       ~ In TREATMENT_FEATURE (df_names v')) /\
  (forall e, snd (f (with_flag v b)) = Raise e ->
     snd run = Raise e /\ fst run !! df = Some (fst (f (with_flag v b)))) /\
  (forall e, f (with_flag v b) = (with_flag v b, Raise e) ->
     snd run = Raise e /\
     exists v', fst run !! df = Some v' /\ In TREATMENT_FEATURE (df_names v')).
Proof.
  intros Hdf run. unfold run.
  rewrite (predict_by_treatment_flag_run df f b pc h v Hdf). cbv zeta.
  set (v1 := with_flag v b). set (h2 := <[df := fst (f v1)]> h).
  split; [|split].
  - intros out ->.
    assert (fresh_loc h2 <> df) as Hl.
    { intros E. pose proof (fresh_loc_None h2) as Hf.
      rewrite E in Hf. unfold h2 in Hf.
      rewrite lookup_insert_eq in Hf. discriminate. }
    unfold df_drop.
    destruct (od_mem (df_cols (fst (f v1))) TREATMENT_FEATURE) eqn:E; simpl.
    + eexists. split; [apply lookup_insert_eq|].
      unfold df_names. simpl. apply od_get_None_keys, od_get_del_eq.
    + exists (fst (f v1)). split.
      * rewrite lookup_insert_ne by done. apply lookup_insert_eq.
      * by apply od_mem_false.
  - intros e ->. simpl. split; [done | apply lookup_insert_eq].
  - intros e E. unfold h2. rewrite E. simpl. split; [done|].
    exists v1. split; [apply lookup_insert_eq | apply with_flag_has_flag].
Qed.

Lemma predict_by_treatment_flag_witness :
  (exists v', fst (_predict_by_treatment_flag 1%positive ones_or_zeros_model
                     true "prediction" (store1 df_two_groups)) !! 1%positive
              = Some v' /\ ~ In TREATMENT_FEATURE (df_names v')) /\
  snd (_predict_by_treatment_flag 1%positive failing_predictor
         true "prediction" (store1 df_two_groups))
  = Raise (LearnerFailure "predict").
Proof.
  split.
  - apply (proj1 (predict_by_treatment_flag_cleanup 1%positive
                    ones_or_zeros_model true "prediction"
                    (store1 df_two_groups) df_two_groups eq_refl)
             (mkDF [0; 1; 2; 3]%Z
                [("feature", NumCol [1.3; 1.0; 1.8; -0.1]%float);
                 ("group",
                  StrCol ["treatment"; "treatment"; "control"; "control"]);
                 ("target", NumCol [1; 1; 1; 0]%float);
                 ("is_treatment", NumCol [1; 1; 1; 1]%float);
                 ("prediction", NumCol [1; 1; 1; 1]%float)])).
    reflexivity.
  - apply (proj1 (proj2 (predict_by_treatment_flag_cleanup 1%positive
                           failing_predictor true "prediction"
                           (store1 df_two_groups) df_two_groups eq_refl))
             (LearnerFailure "predict")).
    reflexivity.
Defined.

(** C4 as stated fails: when the predictor raises, the flag column
    stays on the frame the scorer worked on. *)
Lemma flag_left_after_failure_counterexample :
  snd (_predict_by_treatment_flag 1%positive failing_predictor true
         "prediction" (store1 df_two_groups))
  = Raise (LearnerFailure "predict") /\
  ~ In TREATMENT_FEATURE (df_names df_two_groups) /\
  fst (_predict_by_treatment_flag 1%positive failing_predictor true
         "prediction" (store1 df_two_groups)) !! 1%positive
  = Some (mkDF [0; 1; 2; 3]%Z
            [("feature", NumCol [1.3; 1.0; 1.8; -0.1]%float);
             ("group", StrCol ["treatment"; "treatment"; "control"; "control"]);
             ("target", NumCol [1; 1; 1; 0]%float);
             ("is_treatment", NumCol [1; 1; 1; 1]%float)]) /\
  In TREATMENT_FEATURE
    (df_names (mkDF [0; 1; 2; 3]%Z
                 [("feature", NumCol [1.3; 1.0; 1.8; -0.1]%float);
                  ("group",
                   StrCol ["treatment"; "treatment"; "control"; "control"]);
                  ("target", NumCol [1; 1; 1; 0]%float);
                  ("is_treatment", NumCol [1; 1; 1; 1]%float)])).
Proof.
  split; [vm_compute; reflexivity|]. split.
  { simpl. intros H. repeat destruct H as [H|H]; try discriminate H. exact H. }
  split; [vm_compute; reflexivity|]. simpl. auto.
Qed.

(** ** The simulator and the caller's frame *)

Lemma confined_simulate_body l treatments cn learners pc :
  confined (eq l)
    (uplift_cols <- simulate_loop l learners pc treatments [] ;;
     aggregate l cn uplift_cols ;;; ret l).
Proof.
  apply confined_bind; [by apply confined_simulate_loop | intros cols].
  apply confined_bind; [by apply confined_aggregate | intros _].
  apply confined_ret.
Qed.

Lemma simulate_returns_copy df treatments cn learners pc (h : heap) l' :
  snd (_simulate_treatment_effect df treatments cn learners pc h) = Ok l' ->
  l' = fresh_loc h.
Proof.
  unfold _simulate_treatment_effect, copy, bind, read, alloc, ret.
  destruct (h !! df) as [v|]; [|done].
  destruct (simulate_loop _ _ _ _ _ _) as [h1 [cols|e]]; [|done].
  destruct (aggregate _ _ _ _) as [h2 [[]|e]]; [|done].
  simpl. congruence.
Qed.

(** C10. The simulator works on a copy: whatever the predictors do with
    the frame they are handed, and whether the call returns or raises,
    the caller's frame, and every other object that existed before the
    call, has afterwards the index, the columns and the values it had
    before; the frame that is returned is a new object.  The same holds
    of the prediction closure, which is a call of the simulator. *)
Theorem simulate_treatment_effect_keeps_caller_frame
  df treatments cn learners pc (h : heap) v :
  h !! df = Some v ->
  let run := _simulate_treatment_effect df treatments cn learners pc h in
  let run_p :=
    causal_s_classification_learner_p treatments learners cn pc df h in
  fst run !! df = Some v /\
  preserved h (fst run) /\
  (forall l', snd run = Ok l' -> l' <> df /\ h !! l' = None) /\
  fst run_p !! df = Some v /\
  preserved h (fst run_p).
Proof.
  intros Hdf run run_p.
  assert (preserved h (fst run)) as Hp.
  { apply copy_then_confined. intros l. apply confined_simulate_body. }
  split; [by apply Hp|]. split; [exact Hp|]. split.
  - intros l' Hl'. apply simulate_returns_copy in Hl'. subst l'.
    pose proof (fresh_loc_None h) as Hf. split; [|exact Hf].
    intros E. rewrite E, Hdf in Hf. discriminate.
  - split; [by apply Hp | exact Hp].
Qed.

Lemma simulate_treatment_effect_keeps_caller_frame_witness :
  fst (_simulate_treatment_effect 1%positive ["A"; "B"] "control"
         learners_A_B "prediction" (store1 df_four_rows)) !! 1%positive
  = Some df_four_rows.
Proof.
  exact (proj1 (simulate_treatment_effect_keeps_caller_frame 1%positive
                  ["A"; "B"] "control" learners_A_B "prediction"
                  (store1 df_four_rows) df_four_rows eq_refl)).
Defined.

(** ** Column names *)

Lemma list_ascii_of_string_app a b :
  String.list_ascii_of_string (a +:+ b)
  = String.list_ascii_of_string a ++ String.list_ascii_of_string b.
Proof. induction a as [|x a IH]; simpl; [done|]. by rewrite IH. Qed.

Lemma list_ascii_of_string_inj a b :
  String.list_ascii_of_string a = String.list_ascii_of_string b -> a = b.
Proof.
  intros H. rewrite <- (String.string_of_list_ascii_of_string a),
    <- (String.string_of_list_ascii_of_string b). by rewrite H.
Qed.

Lemma append_inv_tail a b s : a +:+ s = b +:+ s -> a = b.
Proof.
  intros H. apply list_ascii_of_string_inj.
  apply (f_equal String.list_ascii_of_string) in H.
  rewrite !list_ascii_of_string_app in H. by apply app_inv_tail in H.
Qed.

Lemma rev_chars_app a b : rev_chars (a +:+ b) = rev_chars b ++ rev_chars a.
Proof. unfold rev_chars. by rewrite list_ascii_of_string_app, rev_app_distr. Qed.

Lemma col_on_treatment_inj L L' pc :
  col_on_treatment L pc = col_on_treatment L' pc -> L = L'.
Proof.
  unfold col_on_treatment. intros H. simpl in H.
  injection H as H. exact (append_inv_tail L L' ("__" +:+ pc +:+ "_on_treatment") H).
Qed.

Lemma col_on_control_inj L L' pc :
  col_on_control L pc = col_on_control L' pc -> L = L'.
Proof.
  unfold col_on_control. intros H. simpl in H.
  injection H as H. exact (append_inv_tail L L' ("__" +:+ pc +:+ "_on_control") H).
Qed.

Lemma col_uplift_inj L L' : col_uplift L = col_uplift L' -> L = L'.
Proof.
  unfold col_uplift. intros H. simpl in H.
  injection H as H. exact (append_inv_tail L L' "__uplift" H).
Qed.

Ltac by_suffix H :=
  apply (f_equal rev_chars) in H;
  unfold col_on_treatment, col_on_control, col_uplift in H;
  rewrite !rev_chars_app in H; simpl in H; discriminate H.

Lemma col_on_treatment_not_on_control L L' pc :
  col_on_treatment L pc <> col_on_control L' pc.
Proof. intros H. by_suffix H. Qed.

Lemma col_on_treatment_not_uplift L L' pc :
  col_on_treatment L pc <> col_uplift L'.
Proof. intros H. by_suffix H. Qed.

Lemma col_on_control_not_uplift L L' pc :
  col_on_control L pc <> col_uplift L'.
Proof. intros H. by_suffix H. Qed.

(** The names the loop writes differ from the three fixed names. *)
Lemma generated_not_fixed L pc name :
  name = col_on_treatment L pc \/ name = col_on_control L pc \/
  name = col_uplift L ->
  name <> TREATMENT_FEATURE /\ name <> "uplift" /\
  name <> "suggested_treatment".
Proof. intros [->|[->| ->]]; repeat split; discriminate. Qed.

(** ** Stripping the suffix *)

Lemma replace_go_cons old new a s :
  replace_go old new 0 (String a s) =
    if String.prefix old (String a s)
    then new +:+ replace_go old new (String.length old - 1) s
    else String a (replace_go old new 0 s).
Proof. reflexivity. Qed.

Lemma strip_uplift_clean s :
  has_sub "__uplift" s = false -> strip_uplift s = s.
Proof.
  unfold strip_uplift, str_replace.
  induction s as [|a s IH]; [done|].
  intros H. cbn [has_sub] in H. apply orb_false_iff in H as [Hp Hs].
  rewrite replace_go_cons, Hp. by rewrite IH.
Qed.

Lemma prefix_uplift_border s :
  s <> "" -> String.prefix "__uplift" s = false ->
  String.prefix "__uplift" (s +:+ "__uplift") = false.
Proof.
  intros Hne Hp.
  destruct s as [|c1 [|c2 [|c3 [|c4 [|c5 [|c6 [|c7 [|c8 s]]]]]]]];
    [done|..];
    cbv beta iota delta [String.append]; fold String.append;
    repeat (cbn -[Ascii.ascii_dec String.append] in *; try done;
            match goal with
            | |- context [Ascii.ascii_dec ?a ?b] =>
                destruct (Ascii.ascii_dec a b) as [?|?]; [try subst|]
            | H : context [Ascii.ascii_dec ?a ?b] |- _ =>
                destruct (Ascii.ascii_dec a b) as [?|?]; [try subst|]
            end).
  by destruct s.
Qed.

Lemma strip_uplift_suffix s :
  has_sub "__uplift" s = false -> strip_uplift (s +:+ "__uplift") = s.
Proof.
  unfold strip_uplift, str_replace.
  induction s as [|a s IH]; [done|].
  intros H. cbn [has_sub] in H. apply orb_false_iff in H as [Hp Hs].
  change (String a s +:+ "__uplift") with (String a (s +:+ "__uplift")).
  rewrite replace_go_cons.
  change (String a (s +:+ "__uplift")) with (String a s +:+ "__uplift").
  rewrite prefix_uplift_border by done.
  by rewrite IH.
Qed.

Lemma strip_col_uplift L :
  has_sub "__uplift" ("treatment_" +:+ L) = false ->
  strip_uplift (col_uplift L) = "treatment_" +:+ L.
Proof. intros H. by rewrite <- (strip_uplift_suffix _ H). Qed.

(** ** The simulator's loop *)

Lemma od_del_set_same {V} (d : odict V) k x : od_del (od_set d k x) k = od_del d k.
Proof.
  induction d as [|[k' v'] d IH]; simpl.
  - by rewrite String.eqb_refl.
  - destruct (String.eqb k k') eqn:E; simpl; rewrite E; [done|].
    by rewrite IH.
Qed.

Lemma od_keys_set {V} (d : odict V) k x :
  od_keys (od_set d k x) = add_name (od_keys d) k.
Proof.
  unfold add_name. destruct (existsb (String.eqb k) (od_keys d)) eqn:E.
  - apply existsb_eqb_In in E. by apply od_keys_set_in.
  - apply existsb_eqb_not_In in E. by apply od_keys_set_notin.
Qed.

Lemma od_keys_del {V} (d : odict V) k :
  od_keys (od_del d k) = rm_name k (od_keys d).
Proof.
  induction d as [|[k' v'] d IH]; simpl; [done|].
  destruct (String.eqb k k'); simpl; by rewrite IH.
Qed.

Lemma without_with_flag v b : without_flag (with_flag v b) = without_flag v.
Proof. unfold without_flag, with_flag. simpl. by rewrite od_del_set_same. Qed.

Lemma scorer_step l f b pc (h : heap) v out c :
  h !! l = Some v ->
  fst (f (with_flag v b)) = with_flag v b ->
  snd (f (with_flag v b)) = Ok out ->
  od_get (df_cols out) pc = Some c ->
  exists h', _predict_by_treatment_flag l f b pc h = (h', Ok c) /\
    h' !! l = Some (without_flag v).
Proof.
  intros Hl Hfst Hsnd Hc.
  rewrite (predict_by_treatment_flag_run l f b pc h v Hl). cbv zeta.
  rewrite Hsnd, Hfst.
  assert (df_drop (with_flag v b) TREATMENT_FEATURE = Ok (without_flag v)) as ->.
  { unfold df_drop, od_mem. simpl. rewrite od_get_set_eq.
    by rewrite <- (without_with_flag v b). }
  eexists. split.
  - by rewrite (df_getitem_Some out pc c).
  - apply lookup_insert_eq.
Qed.

Lemma generated_flag all pc : generated all pc TREATMENT_FEATURE.
Proof. by left. Qed.

Lemma generated_three all pc L name :
  In L all -> In name (three_names pc L) -> generated all pc name.
Proof.
  intros HL Hn. right. exists L. split; [done|].
  simpl in Hn. destruct Hn as [<-|[<-|[<-|[]]]]; auto.
Qed.

(** One round of the loop touches four names only. *)
Lemma od_get_round {V} (d : odict V) k1 k2 k3 x1 x2 x3 n :
  n <> TREATMENT_FEATURE -> n <> k1 -> n <> k2 -> n <> k3 ->
  od_get
    (od_set
       (od_set (od_del (od_set (od_del d TREATMENT_FEATURE) k1 x1)
                  TREATMENT_FEATURE) k2 x2) k3 x3) n
  = od_get d n.
Proof.
  intros H0 H1 H2 H3.
  rewrite od_get_set_ne by done. rewrite od_get_set_ne by done.
  rewrite od_get_del_ne by done. rewrite od_get_set_ne by done.
  by rewrite od_get_del_ne.
Qed.

Lemma three_names_disjoint pc L L' n :
  L <> L' -> In n (three_names pc L') -> ~ In n (three_names pc L).
Proof.
  intros Hne H' H. simpl in H, H'.
  destruct H' as [<-|[<-|[<-|[]]]]; destruct H as [H|[H|[H|[]]]].
  - by apply col_on_treatment_inj in H.
  - symmetry in H. by apply col_on_treatment_not_on_control in H.
  - symmetry in H. by apply col_on_treatment_not_uplift in H.
  - by apply col_on_treatment_not_on_control in H.
  - by apply col_on_control_inj in H.
  - symmetry in H. by apply col_on_control_not_uplift in H.
  - by apply col_on_treatment_not_uplift in H.
  - by apply col_on_control_not_uplift in H.
  - by apply col_uplift_inj in H.
Qed.

Lemma three_names_not_flag pc L n :
  In n (three_names pc L) -> n <> TREATMENT_FEATURE.
Proof.
  intros H. simpl in H. destruct H as [<-|[<-|[<-|[]]]]; discriminate.
Qed.

Section SimulateLoop.
Context (l : loc) (learners : odict PredictFnType) (pc : string).
Context (all : list string) (v0 : DataFrame).
Hypothesis Hfit : fitted_for all pc v0 learners.

Lemma agrees_round v L x1 x2 x3 :
  In L all -> agrees all pc v0 v ->
  agrees all pc v0
    (mkDF (df_index v)
       (od_set
          (od_set
             (od_del
                (od_set (od_del (df_cols v) TREATMENT_FEATURE)
                   (col_on_treatment L pc) x1)
                TREATMENT_FEATURE)
             (col_on_control L pc) x2)
          (col_uplift L) x3)).
Proof using Type.
  intros HL [Hi Hc]. split; [done|]. intros name Hg. simpl.
  rewrite od_get_round; [by apply Hc|..]; intros ->; apply Hg.
  - apply generated_flag.
  - apply (generated_three all pc L); simpl; auto.
  - apply (generated_three all pc L); simpl; auto.
  - apply (generated_three all pc L); simpl; auto.
Qed.

Lemma agrees_half v L x1 :
  In L all -> agrees all pc v0 v ->
  agrees all pc v0
    (mkDF (df_index v)
       (od_set (od_del (df_cols v) TREATMENT_FEATURE)
          (col_on_treatment L pc) x1)).
Proof using Type.
  intros HL [Hi Hc]. split; [done|]. intros name Hg. simpl.
  rewrite od_get_set_ne, od_get_del_ne; [by apply Hc|..]; intros <-; apply Hg.
  - apply generated_flag.
  - apply (generated_three all pc L); simpl; auto.
Qed.

Lemma simulate_round L rest acc (h : heap) v :
  In L all -> h !! l = Some v -> agrees all pc v0 v ->
  exists h5 qs1 qs2,
    simulate_loop l learners pc (L :: rest) acc h
    = simulate_loop l learners pc rest (acc ++ [col_uplift L]) h5 /\
    h5 !! l =
      Some (mkDF (df_index v)
              (od_set
                 (od_set
                    (od_del
                       (od_set (od_del (df_cols v) TREATMENT_FEATURE)
                          (col_on_treatment L pc) (NumCol qs1))
                       TREATMENT_FEATURE)
                    (col_on_control L pc) (NumCol qs2))
                 (col_uplift L)
                 (NumCol (map fsub (combine qs1 qs2))))) /\
    length qs1 = nrows v /\ length qs2 = nrows v /\
    Forall finite qs1 /\ Forall finite qs2.
Proof using Hfit.
  intros HL Hl Hag.
  destruct (Hfit L HL) as (f & Hf & Hs).
  destruct (Hs v true Hag)
    as (Hfst1 & out1 & qs1 & Hsnd1 & Hpc1 & Hlen1 & Hfin1).
  destruct (scorer_step l f true pc h v out1 _ Hl Hfst1 Hsnd1 Hpc1)
    as (h1 & Hrun1 & Hl1).
  set (on_t := col_on_treatment L pc) in *.
  set (on_c := col_on_control L pc) in *.
  set (v2 := mkDF (df_index v)
               (od_set (od_del (df_cols v) TREATMENT_FEATURE) on_t
                  (NumCol qs1))).
  set (h2 := <[l := v2]> h1).
  assert (h2 !! l = Some v2) as Hl2 by apply lookup_insert_eq.
  assert (agrees all pc v0 v2) as Hag2 by (by apply agrees_half).
  destruct (Hs v2 false Hag2)
    as (Hfst2 & out2 & qs2 & Hsnd2 & Hpc2 & Hlen2 & Hfin2).
  destruct (scorer_step l f false pc h2 v2 out2 _ Hl2 Hfst2 Hsnd2 Hpc2)
    as (h3 & Hrun2 & Hl3).
  set (v4 := mkDF (df_index v)
               (od_set (od_del (df_cols v2) TREATMENT_FEATURE) on_c
                  (NumCol qs2))).
  set (h4 := <[l := v4]> h3).
  assert (h4 !! l = Some v4) as Hl4 by apply lookup_insert_eq.
  set (d := NumCol (map fsub (combine qs1 qs2))).
  set (v5 := mkDF (df_index v) (od_set (df_cols v4) (col_uplift L) d)).
  exists (<[l := v5]> h4), qs1, qs2.
  split; [|split; [apply lookup_insert_eq | by repeat split]].
  assert (on_c <> on_t) as Hct.
  { intros E. symmetry in E. by apply col_on_treatment_not_on_control in E. }
  assert (TREATMENT_FEATURE <> on_t) as Hft by discriminate.
  simpl simulate_loop. rewrite Hf.
  rewrite (bind_ok _ _ h h f) by done.
  rewrite (bind_ok _ _ h h1 (NumCol qs1)) by done.
  rewrite (bind_ok _ _ h1 h2 tt).
  2:{ rewrite (setitem_run h1 l _ _ _ Hl1), df_setitem_ok; [done|].
      simpl. exact Hlen1. }
  rewrite (bind_ok _ _ h2 h3 (NumCol qs2)) by done.
  rewrite (bind_ok _ _ h3 h4 tt).
  2:{ rewrite (setitem_run h3 l _ _ _ Hl3), df_setitem_ok; [done|].
      simpl. exact Hlen2. }
  rewrite (bind_ok _ _ h4 h4 (NumCol qs1)).
  2:{ rewrite (getitem_run h4 l v4) by done. f_equal.
      apply df_getitem_Some. unfold v4, v2. simpl.
      rewrite od_get_set_ne by done. rewrite od_get_del_ne by done.
      apply od_get_set_eq. }
  rewrite (bind_ok _ _ h4 h4 (NumCol qs2)).
  2:{ rewrite (getitem_run h4 l v4) by done. f_equal.
      apply df_getitem_Some, od_get_set_eq. }
  rewrite (bind_ok _ _ h4 h4 d) by done.
  rewrite (bind_ok _ _ h4 (<[l := v5]> h4) tt); [done|].
  rewrite (setitem_run h4 l _ _ _ Hl4), df_setitem_ok; [done|].
  unfold d. simpl. rewrite length_map, length_combine.
  unfold nrows in *. simpl in *. lia.
Qed.

Lemma scored_round v L L' qs1 qs2 :
  length qs1 = nrows v -> length qs2 = nrows v ->
  Forall finite qs1 -> Forall finite qs2 ->
  (L' <> L -> scored pc v L') ->
  scored pc
    (mkDF (df_index v)
       (od_set
          (od_set
             (od_del
                (od_set (od_del (df_cols v) TREATMENT_FEATURE)
                   (col_on_treatment L pc) (NumCol qs1))
                TREATMENT_FEATURE)
             (col_on_control L pc) (NumCol qs2))
          (col_uplift L)
          (NumCol (map fsub (combine qs1 qs2)))))
    L'.
Proof using Type.
  intros Hlen1 Hlen2 Hfin1 Hfin2 Hold.
  destruct (decide (L' = L)) as [->|Hne].
  - exists qs1, qs2. simpl. repeat split; try done.
    + rewrite od_get_set_ne
        by (intros E; symmetry in E; by apply col_on_treatment_not_uplift in E).
      rewrite od_get_set_ne
        by (intros E; symmetry in E;
            by apply col_on_treatment_not_on_control in E).
      rewrite od_get_del_ne by discriminate. apply od_get_set_eq.
    + rewrite od_get_set_ne
        by (intros E; symmetry in E; by apply col_on_control_not_uplift in E).
      apply od_get_set_eq.
    + apply od_get_set_eq.
  - destruct (Hold Hne) as (a & b & Ha & Hb & Hu & Hla & Hlb & Hfa & Hfb).
    assert (forall n, In n (three_names pc L') ->
              od_get
                (od_set
                   (od_set
                      (od_del
                         (od_set (od_del (df_cols v) TREATMENT_FEATURE)
                            (col_on_treatment L pc) (NumCol qs1))
                         TREATMENT_FEATURE)
                      (col_on_control L pc) (NumCol qs2))
                   (col_uplift L)
                   (NumCol (map fsub
                              (combine qs1 qs2)))) n
              = od_get (df_cols v) n) as Hsame.
    { intros n Hn.
      pose proof (three_names_disjoint pc L L' n (not_eq_sym Hne) Hn) as Hd.
      apply od_get_round.
      - by apply (three_names_not_flag pc L').
      - intros ->. apply Hd. simpl. auto.
      - intros ->. apply Hd. simpl. auto.
      - intros ->. apply Hd. simpl. auto. }
    exists a, b. simpl.
    rewrite !Hsame by (simpl; auto). by repeat split.
Qed.

Lemma simulate_loop_ok treatments : forall done (h : heap) v,
  (forall L, In L treatments -> In L all) ->
  h !! l = Some v -> agrees all pc v0 v ->
  (forall L, In L done -> scored pc v L) ->
  exists h' v',
    simulate_loop l learners pc treatments (map col_uplift done) h
    = (h', Ok (map col_uplift (done ++ treatments))) /\
    h' !! l = Some v' /\ agrees all pc v0 v' /\
    (forall L, In L (done ++ treatments) -> scored pc v' L) /\
    df_names v' = fold_left (names_step pc) treatments (df_names v).
Proof using Hfit.
  induction treatments as [|L rest IH]; intros done h v Hall Hl Hag Hdone.
  - exists h, v. simpl. rewrite app_nil_r. repeat split; try done.
    by destruct Hag. by destruct Hag.
  - destruct (simulate_round L rest (map col_uplift done) h v)
      as (h5 & qs1 & qs2 & E & Hl5 & Hlen1 & Hlen2 & Hfin1 & Hfin2);
      [apply Hall; by left | done | done |].
    destruct (IH (done ++ [L]) h5 _ (fun L' H' => Hall L' (or_intror H')) Hl5)
      as (h' & v' & E' & Hl' & Hag' & Hsc' & Hn').
    { apply agrees_round; [apply Hall; by left | done]. }
    { intros L' HL'. apply scored_round; [done..|].
      intros Hne. apply Hdone. apply in_app_iff in HL'.
      destruct HL' as [?|[?|[]]]; [done | congruence]. }
    exists h', v'. rewrite E. rewrite map_app in E'. simpl in E'.
    rewrite E'. rewrite <- app_assoc in *. simpl in *.
    repeat split; try done.
    + by destruct Hag'.
    + by destruct Hag'.
    + rewrite Hn'. unfold df_names, names_step. simpl.
      by rewrite !od_keys_set, !od_keys_del, !od_keys_set, !od_keys_del.
Qed.
End SimulateLoop.

(** ** Blocks of numeric columns *)

Lemma od_set_set {V} (d : odict V) k x y : od_set (od_set d k x) k y = od_set d k y.
Proof.
  induction d as [|[k' v'] d IH]; simpl.
  - by rewrite String.eqb_refl.
  - destruct (String.eqb k k') eqn:E; simpl; rewrite E; [done|].
    by rewrite IH.
Qed.

Lemma select_num_block v names :
  (forall n, In n names -> exists qs, od_get (df_cols v) n = Some (NumCol qs)) ->
  select_num v names = Ok (block_of v names).
Proof.
  induction names as [|n names IH]; intros H; simpl; [done|].
  destruct (H n) as [qs Hq]; [by left|].
  unfold df_getitem, num_values. rewrite Hq.
  rewrite IH; [done|]. intros n' Hn'. apply H. by right.
Qed.

Lemma block_of_ext v v' names :
  (forall n, In n names -> od_get (df_cols v') n = od_get (df_cols v) n) ->
  block_of v' names = block_of v names.
Proof.
  intros H. unfold block_of. apply map_ext_in. intros n Hn.
  unfold num_values. by rewrite H.
Qed.

Lemma max_axis1_length n cs : length (max_axis1 n cs) = n.
Proof. unfold max_axis1. by rewrite length_map, length_seq. Qed.

Lemma idxmax_axis1_length n cs : length (idxmax_axis1 n cs) = n.
Proof. unfold idxmax_axis1. by rewrite length_map, length_seq. Qed.

(** ** Binary64 numbers: order, NaN and subtraction *)

Section Rounding.
Variables prec emax : Z.

Lemma shr_1_nonneg mrs : (0 <= shr_m mrs)%Z -> (0 <= shr_m (shr_1 mrs))%Z.
Proof. destruct mrs as [[|[p|p|]|p] r s]; simpl; lia. Qed.

Lemma iter_shr_1_nonneg p : forall mrs,
  (0 <= shr_m mrs)%Z -> (0 <= shr_m (SpecFloat.iter_pos shr_1 p mrs))%Z.
Proof.
  induction p as [p IH|p IH|]; intros mrs H; simpl.
  - apply IH, IH, shr_1_nonneg, H.
  - apply IH, IH, H.
  - apply shr_1_nonneg, H.
Qed.

Lemma shr_nonneg mrs e n :
  (0 <= shr_m mrs)%Z -> (0 <= shr_m (fst (shr mrs e n)))%Z.
Proof.
  intros H. destruct n as [|p|p]; cbn [shr fst]; try exact H.
  by apply iter_shr_1_nonneg.
Qed.

Lemma shr_fexp_nonneg m e l :
  (0 <= m)%Z -> (0 <= shr_m (fst (shr_fexp prec emax m e l)))%Z.
Proof.
  intros H. unfold shr_fexp. apply shr_nonneg.
  destruct l as [|[]]; exact H.
Qed.

Lemma round_nearest_even_nonneg m l :
  (0 <= m)%Z -> (0 <= round_nearest_even m l)%Z.
Proof.
  intros H. destruct l as [|[]]; simpl; try lia. destruct (Z.even m); lia.
Qed.

Lemma binary_round_aux_not_nan sx mx ex lx :
  (0 <= mx)%Z -> binary_round_aux prec emax sx mx ex lx <> S754_nan.
Proof.
  intros H. unfold binary_round_aux.
  pose proof (shr_fexp_nonneg mx ex lx H) as H1.
  destruct (shr_fexp prec emax mx ex lx) as [mrs' e']. simpl in H1.
  pose proof (shr_fexp_nonneg _ e' loc_Exact
                (round_nearest_even_nonneg _ (loc_of_shr_record mrs') H1)) as H2.
  destruct (shr_fexp prec emax _ e' loc_Exact) as [mrs'' e'']. simpl in H2.
  destruct (shr_m mrs''); [done| |lia].
  by destruct (Z.leb _ _).
Qed.

Lemma binary_normalize_not_nan m e sz :
  binary_normalize prec emax m e sz <> S754_nan.
Proof.
  destruct m; simpl; [done| |]; unfold binary_round;
    destruct (shl_align _ _ _); by apply binary_round_aux_not_nan.
Qed.
End Rounding.

Lemma SFsub_not_nan x y :
  SFnum x -> SFnum y -> SF64sub x y <> S754_nan.
Proof.
  destruct x as [sx|sx| |sx mx ex], y as [sy|sy| |sy my ey]; simpl; try done.
  - intros _ _. by destruct sx, sy.
  - intros _ _. apply binary_normalize_not_nan.
Qed.

Lemma SFsub_diag x : SFnum x -> SF64sub x x = S754_zero false.
Proof.
  destruct x as [sx|sx| |sx mx ex]; simpl; try done.
  - intros _. by destruct sx.
  - intros _. by rewrite Z.sub_diag.
Qed.

Lemma SFcompare_refl x : x <> S754_nan -> SFcompare x x = Some Eq.
Proof.
  destruct x as [s|s| |s m e]; simpl; try done.
  - by destruct s.
  - intros _. rewrite Z.compare_refl.
    change (Pos.compare_cont Eq m m) with (Pos.compare m m).
    rewrite Pos.compare_refl. by destruct s.
Qed.

Ltac cmp_cases :=
  repeat match goal with
  | H : context [Z.compare ?a ?b] |- _ =>
      destruct (Z.compare_spec a b); simpl in H
  | |- context [Z.compare ?a ?b] => destruct (Z.compare_spec a b); simpl
  | H : context [Pos.compare_cont Eq ?a ?b] |- _ =>
      change (Pos.compare_cont Eq a b) with (Pos.compare a b) in H;
      destruct (Pos.compare_spec a b); simpl in H
  | |- context [Pos.compare_cont Eq ?a ?b] =>
      change (Pos.compare_cont Eq a b) with (Pos.compare a b);
      destruct (Pos.compare_spec a b); simpl
  end; try done; try lia.

Ltac by_compare :=
  unfold SFleb, SFltb; intros;
  repeat match goal with
  | x : spec_float |- _ => destruct x as [[]|[]| |[] ? ?]
  end; simpl in *; try done; cmp_cases.

Lemma SFleb_trans x y z :
  SFleb x y = true -> SFleb y z = true -> SFleb x z = true.
Proof. by_compare. Qed.

Lemma SFltb_leb_trans x y z :
  SFltb x y = true -> SFleb y z = true -> SFltb x z = true.
Proof. by_compare. Qed.

Lemma SFleb_ltb_trans x y z :
  SFleb x y = true -> SFltb y z = true -> SFltb x z = true.
Proof. by_compare. Qed.

Lemma SFltb_false x y :
  x <> S754_nan -> y <> S754_nan -> SFltb x y = false -> SFleb y x = true.
Proof. by_compare. Qed.

Lemma SFltb_not_leb x y : SFltb x y = true -> SFleb y x = false.
Proof. by_compare. Qed.

Lemma is_nan_spec x : is_nan x = true <-> Prim2SF x = S754_nan.
Proof.
  unfold is_nan. rewrite FloatAxioms.eqb_spec. unfold SFeqb. split.
  - intros H. destruct (Prim2SF x) eqn:E; try done;
      rewrite SFcompare_refl in H; done.
  - by intros ->.
Qed.

Lemma not_nan_spec x : not_nan x <-> Prim2SF x <> S754_nan.
Proof.
  unfold not_nan. pose proof (is_nan_spec x) as H. destruct (is_nan x).
  - split; [done|]. intros Hn. exfalso. apply Hn. by apply H.
  - split; [|done]. intros _ Hn. apply H in Hn. done.
Qed.

Lemma finite_SFnum x : finite x -> SFnum (Prim2SF x).
Proof.
  unfold finite, is_finite. intros H.
  apply negb_true_iff, orb_false_iff in H as [Hn Hi].
  apply not_nan_spec in Hn. unfold is_infinity in Hi.
  rewrite FloatAxioms.eqb_spec, FloatAxioms.abs_spec in Hi.
  by destruct (Prim2SF x) as [s|s| |s m e].
Qed.

Lemma finite_not_nan x : finite x -> not_nan x.
Proof.
  intros H. apply not_nan_spec. apply finite_SFnum in H.
  by destruct (Prim2SF x).
Qed.

(** The difference of two numbers is never NaN (it is an infinity when
    it overflows). *)
Lemma fsub_not_nan a b : finite a -> finite b -> not_nan (a - b)%float.
Proof.
  intros Ha Hb. apply not_nan_spec. rewrite FloatAxioms.sub_spec.
  by apply SFsub_not_nan; apply finite_SFnum.
Qed.

(** The difference of a number and itself is [+0.0]. *)
Lemma fsub_diag a : finite a -> (a - a)%float = 0%float.
Proof.
  intros Ha. apply Prim2SF_inj. rewrite FloatAxioms.sub_spec.
  by rewrite SFsub_diag by by apply finite_SFnum.
Qed.

Lemma leb_trans a b c :
  PrimFloat.leb a b = true -> PrimFloat.leb b c = true ->
  PrimFloat.leb a c = true.
Proof. rewrite !FloatAxioms.leb_spec. apply SFleb_trans. Qed.

Lemma ltb_leb_trans a b c :
  PrimFloat.ltb a b = true -> PrimFloat.leb b c = true ->
  PrimFloat.ltb a c = true.
Proof.
  rewrite !FloatAxioms.ltb_spec, FloatAxioms.leb_spec. apply SFltb_leb_trans.
Qed.

Lemma leb_ltb_trans a b c :
  PrimFloat.leb a b = true -> PrimFloat.ltb b c = true ->
  PrimFloat.ltb a c = true.
Proof.
  rewrite !FloatAxioms.ltb_spec, FloatAxioms.leb_spec. apply SFleb_ltb_trans.
Qed.

Lemma ltb_leb a b : PrimFloat.ltb a b = true -> PrimFloat.leb a b = true.
Proof.
  rewrite FloatAxioms.ltb_spec, FloatAxioms.leb_spec. unfold SFltb, SFleb.
  by destruct (SFcompare _ _) as [[]|].
Qed.

Lemma ltb_false_leb a b :
  not_nan a -> not_nan b -> PrimFloat.ltb a b = false ->
  PrimFloat.leb b a = true.
Proof.
  rewrite !not_nan_spec, FloatAxioms.ltb_spec, FloatAxioms.leb_spec.
  apply SFltb_false.
Qed.

Lemma ltb_not_leb a b : PrimFloat.ltb a b = true -> PrimFloat.leb b a = false.
Proof.
  rewrite FloatAxioms.ltb_spec, FloatAxioms.leb_spec. apply SFltb_not_leb.
Qed.

Lemma leb_or_ltb a b :
  not_nan a -> not_nan b ->
  PrimFloat.leb a b = true \/ PrimFloat.ltb b a = true.
Proof.
  intros Ha Hb. destruct (PrimFloat.ltb b a) eqn:E; [by right|].
  left. by apply ltb_false_leb.
Qed.

Lemma leb_refl a : not_nan a -> PrimFloat.leb a a = true.
Proof.
  rewrite not_nan_spec, FloatAxioms.leb_spec. intros H. unfold SFleb.
  by rewrite SFcompare_refl.
Qed.

Lemma Forall_fsub_not_nan (a b : list float) :
  Forall finite a -> Forall finite b ->
  Forall not_nan (map fsub (combine a b)).
Proof.
  intros Ha. revert b. induction Ha as [|x a Hx Ha IH]; intros b Hb; simpl.
  - constructor.
  - destruct Hb as [|y b Hy Hb]; simpl; constructor.
    + by apply fsub_not_nan.
    + by apply IH.
Qed.

(** ** Rows without NaN *)

Lemma skipna_id x : not_nan x -> skipna x = x.
Proof. unfold skipna, not_nan. by intros ->. Qed.

Lemma row_skipna_id r : no_nan r -> row_skipna r = r.
Proof.
  induction 1 as [|[n x] r Hx Hr IH]; simpl; [done|].
  simpl in Hx. by rewrite skipna_id, IH.
Qed.

Lemma all_nan_false x r : no_nan (x :: r) -> all_nan (x :: r) = false.
Proof.
  intros H. apply Forall_cons_1 in H as [Hx _]. simpl.
  unfold not_nan in Hx. by rewrite Hx.
Qed.

Lemma nth_not_nan (qs : list float) i :
  Forall not_nan qs -> not_nan (nth i qs 0%float).
Proof.
  intros H. revert i. induction H as [|q qs Hq Hqs IH]; intros [|i]; simpl;
    done.
Qed.

Lemma row_at_block v names i :
  row_at i (block_of v names)
  = map (fun n => (n, nth i (num_values v n) 0%float)) names.
Proof. unfold row_at, block_of. rewrite map_map. by apply map_ext. Qed.

Lemma num_block_row v names i :
  num_block v names -> no_nan (row_at i (block_of v names)).
Proof.
  intros H. rewrite row_at_block. unfold no_nan.
  apply Forall_map, Forall_forall. intros n Hn. simpl.
  apply list_elem_of_In in Hn. destruct (H n Hn) as (qs & Hq & Hqs).
  unfold num_values. rewrite Hq. by apply nth_not_nan.
Qed.

Lemma row_max_argmax x r :
  no_nan (x :: r) -> row_max (x :: r) = snd (argmax_from x r).
Proof.
  intros H. unfold row_max. rewrite (row_skipna_id _ H), (all_nan_false _ _ H).
  clear H. revert x. induction r as [|y r IH]; intros x; simpl; [done|].
  destruct (PrimFloat.ltb (snd x) (snd y)); apply IH.
Qed.

Lemma row_idxmax_argmax x r :
  no_nan (x :: r) -> row_idxmax (x :: r) = Some (fst (argmax_from x r)).
Proof.
  intros H. unfold row_idxmax.
  by rewrite (row_skipna_id _ H), (all_nan_false _ _ H).
Qed.

Lemma row_idxmax_Some r : r <> [] -> no_nan r -> row_idxmax r <> None.
Proof. destruct r as [|x r]; [done|]. intros _ H. by rewrite row_idxmax_argmax. Qed.

(** ** The aggregation *)

Lemma all_str_where cn (U : list float) : forall I : list (option string),
  Forall (fun o => o <> None) I ->
  all_str (map (fun un : float * option string =>
                  if PrimFloat.leb (fst un) 0 then Some cn else snd un)
             (combine U I))
  = Ok (map (fun un : float * option string =>
               if PrimFloat.leb (fst un) 0 then cn else default "" (snd un))
          (combine U I)).
Proof.
  induction U as [|u U IH]; intros [|o I] H; simpl; try done.
  apply Forall_cons_1 in H as [Ho HI]. rewrite (IH I HI).
  destruct (PrimFloat.leb u 0); [done|]. by destruct o.
Qed.

Lemma idxmax_axis1_Some v cols n :
  cols <> [] -> num_block v cols ->
  Forall (fun o => o <> None) (idxmax_axis1 n (block_of v cols)).
Proof.
  intros Hne Hnum. unfold idxmax_axis1. apply Forall_map, Forall_forall.
  intros i _. simpl. apply row_idxmax_Some; [|by apply num_block_row].
  rewrite row_at_block. by destruct cols.
Qed.

Lemma aggregate_run l cn cols (h : heap) v :
  h !! l = Some v -> cols <> [] -> num_block v cols ->
  ~ In "uplift" cols ->
  aggregate l cn cols h = (<[l := with_summary v cn cols]> h, Ok tt).
Proof.
  intros Hl Hne Hnum Hup. unfold aggregate.
  assert (forall n, In n cols ->
            exists qs, od_get (df_cols v) n = Some (NumCol qs)) as Hnum'.
  { intros n Hn. destruct (Hnum n Hn) as (qs & Hq & _). eauto. }
  rewrite (bind_ok _ _ h h v) by (by apply read_run).
  rewrite (bind_ok _ _ h h (block_of v cols))
    by (unfold lift; by rewrite select_num_block).
  destruct (block_of v cols) as [|c0 block] eqn:Eb.
  { destruct cols; [done | discriminate Eb]. }
  rewrite <- Eb. clear c0 block Eb.
  set (U := NumCol (max_axis1 (nrows v) (block_of v cols))).
  set (v1 := mkDF (df_index v) (od_set (df_cols v) "uplift" U)).
  set (h1 := <[l := v1]> h).
  assert (h1 !! l = Some v1) as Hl1 by apply lookup_insert_eq.
  rewrite (bind_ok _ _ h h1 tt).
  2:{ rewrite (setitem_run h l v) by done. rewrite df_setitem_ok; [done|].
      simpl. apply max_axis1_length. }
  rewrite (bind_ok _ _ h1 h1 U).
  2:{ rewrite (getitem_run h1 l v1) by done. f_equal.
      apply df_getitem_Some, od_get_set_eq. }
  rewrite (bind_ok _ _ h1 h1 v1) by (by apply read_run).
  assert (block_of v1 cols = block_of v cols) as Hb.
  { apply block_of_ext. intros n Hn. simpl. apply od_get_set_ne.
    intros <-. by apply Hup. }
  rewrite (bind_ok _ _ h1 h1 (block_of v cols)).
  2:{ unfold lift. rewrite select_num_block; [by rewrite Hb|].
      intros n Hn. destruct (Hnum' n Hn) as [qs Hq]. exists qs. simpl.
      rewrite od_get_set_ne; [done|]. intros <-. by apply Hup. }
  set (ob := map (fun un : float * option string =>
                    if PrimFloat.leb (fst un) 0 then Some cn else snd un)
               (combine (max_axis1 (nrows v) (block_of v cols))
                  (idxmax_axis1 (nrows v1) (block_of v cols)))).
  rewrite (bind_ok _ _ h1 h1 ob) by done.
  set (sg := map (fun un : float * option string =>
                    if PrimFloat.leb (fst un) 0 then cn
                    else default "" (snd un))
               (combine (max_axis1 (nrows v) (block_of v cols))
                  (idxmax_axis1 (nrows v1) (block_of v cols)))).
  rewrite (bind_ok _ _ h1 h1 sg).
  2:{ unfold lift, ob, sg. rewrite all_str_where; [done|].
      by apply idxmax_axis1_Some. }
  set (v2 := mkDF (df_index v)
               (od_set (df_cols v1) "suggested_treatment" (StrCol sg))).
  set (h2 := <[l := v2]> h1).
  assert (h2 !! l = Some v2) as Hl2 by apply lookup_insert_eq.
  rewrite (bind_ok _ _ h1 h2 tt).
  2:{ rewrite (setitem_run h1 l v1) by done. rewrite df_setitem_ok; [done|].
      unfold sg. simpl.
      rewrite length_map, length_combine, max_axis1_length,
        idxmax_axis1_length.
      unfold nrows. simpl. lia. }
  rewrite (bind_ok _ _ h2 h2 (StrCol sg)).
  2:{ rewrite (getitem_run h2 l v2) by done. f_equal.
      apply df_getitem_Some, od_get_set_eq. }
  rewrite (bind_ok _ _ h2 h2 (StrCol (map strip_uplift sg))) by done.
  rewrite (setitem_run h2 l v2) by done. rewrite df_setitem_ok.
  - unfold h2, h1. rewrite !insert_insert_eq. unfold v2, v1. simpl.
    by rewrite od_set_set.
  - unfold sg. simpl.
    rewrite !length_map, length_combine, max_axis1_length,
      idxmax_axis1_length.
    unfold nrows. simpl. lia.
Qed.

(** ** The maximum of a row and where it stands *)

Lemma argmax_from_spec (r : list (string * float)) : forall best,
  no_nan (best :: r) ->
  (exists k, (best :: r) !! k = Some (argmax_from best r) /\
     forall j y, (j < k)%nat -> (best :: r) !! j = Some y ->
       PrimFloat.ltb (snd y) (snd (argmax_from best r)) = true) /\
  (forall y, In y (best :: r) ->
     PrimFloat.leb (snd y) (snd (argmax_from best r)) = true).
Proof.
  induction r as [|y r IH]; intros best Hnn.
  - simpl. split.
    + exists 0%nat. split; [done|]. intros j z Hj. lia.
    + intros z [<-|[]]. apply leb_refl. by apply Forall_cons_1 in Hnn as [? _].
  - apply Forall_cons_1 in Hnn as [Hbest Hnn].
    pose proof Hnn as Hyr. apply Forall_cons_1 in Hnn as [Hy Hr].
    simpl argmax_from. destruct (PrimFloat.ltb (snd best) (snd y)) eqn:E.
    + destruct (IH y Hyr) as [(k & Hk & Hbefore) Hall].
      assert (PrimFloat.leb (snd y) (snd (argmax_from y r)) = true) as Hy'
        by (apply Hall; by left).
      split.
      * exists (S k). split; [exact Hk|].
        intros [|j] z Hj Hz.
        -- injection Hz as <-. by apply (ltb_leb_trans _ (snd y)).
        -- apply (Hbefore j z); [lia | exact Hz].
      * intros z [<-|Hz]; [|by apply Hall].
        apply ltb_leb. by apply (ltb_leb_trans _ (snd y)).
    + apply ltb_false_leb in E; [|done..].
      destruct (IH best (Forall_cons_2 (fun y => not_nan (snd y)) _ _ Hbest Hr))
        as [(k & Hk & Hbefore) Hall].
      split.
      * destruct k as [|k].
        -- exists 0%nat. split; [exact Hk|]. intros j z Hj. lia.
        -- exists (S (S k)). split; [exact Hk|].
           assert (PrimFloat.ltb (snd best) (snd (argmax_from best r)) = true)
             as Hb by (apply (Hbefore 0%nat best); [lia | done]).
           intros [|[|j]] z Hj Hz.
           ++ injection Hz as <-. exact Hb.
           ++ injection Hz as <-. by apply (leb_ltb_trans _ (snd best)).
           ++ apply (Hbefore (S j) z); [lia | exact Hz].
      * intros z [<-|[<-|Hz]].
        -- apply Hall. by left.
        -- apply (leb_trans _ (snd best)); [done|]. apply Hall. by left.
        -- apply Hall. by right.
Qed.

Lemma lookup_In {A} (l : list A) i x : l !! i = Some x -> In x l.
Proof.
  revert i. induction l as [|y l IH]; intros [|i] H; simpl in *; try done.
  - injection H as ->. by left.
  - right. by apply (IH i).
Qed.

Lemma lookup_combine {A B} (l1 : list A) (l2 : list B) i a b :
  combine l1 l2 !! i = Some (a, b) <-> l1 !! i = Some a /\ l2 !! i = Some b.
Proof.
  revert l2 i. induction l1 as [|x l1 IH]; intros [|y l2] [|i]; simpl;
    try (split; [done | intros [? ?]; done]).
  - split; [intros [= -> ->]; done | intros [[= ->] [= ->]]; done].
  - apply IH.
Qed.

Lemma lookup_seq_map {A} (f : nat -> A) n i x :
  map f (seq 0 n) !! i = Some x <-> (i < n)%nat /\ x = f i.
Proof.
  rewrite lookup_map. split.
  - intros H. destruct (seq 0 n !! i) as [j|] eqn:E; [|done].
    apply lookup_seq in E as [-> Hi]. simpl in H. injection H as <-. done.
  - intros [Hi ->]. by rewrite (lookup_seq_lt 0 n i Hi).
Qed.

(** The value of the [uplift] column at a row is the maximum of the
    per-treatment uplift columns at that row, and it stands first at some
    treatment in list order. *)
Lemma uplift_row v treatments i u :
  num_block v (map col_uplift treatments) ->
  uplift_values v (map col_uplift treatments) !! i = Some u ->
  treatments <> [] ->
  (i < nrows v)%nat /\ not_nan u /\
  exists k L,
    treatments !! k = Some L /\
    u = nth i (num_values v (col_uplift L)) 0%float /\
    row_idxmax (row_at i (block_of v (map col_uplift treatments)))
      = Some (col_uplift L) /\
    (forall j L', (j < k)%nat -> treatments !! j = Some L' ->
       PrimFloat.ltb (nth i (num_values v (col_uplift L')) 0%float) u
       = true) /\
    (forall L', In L' treatments ->
       PrimFloat.leb (nth i (num_values v (col_uplift L')) 0%float) u
       = true).
Proof.
  intros Hnum HU Hne. unfold uplift_values, max_axis1 in HU.
  apply lookup_seq_map in HU as [Hi ->]. split; [exact Hi|].
  pose proof (num_block_row v _ i Hnum) as Hnn.
  rewrite row_at_block, map_map in *.
  set (g := fun L => (col_uplift L, nth i (num_values v (col_uplift L)) 0%float)).
  change (map (fun x => (col_uplift x,
                         nth i (num_values v (col_uplift x)) 0%float))
            treatments) with (map g treatments) in *.
  destruct treatments as [|L0 rest]; [done|].
  change (map g (L0 :: rest)) with (g L0 :: map g rest) in *.
  rewrite (row_max_argmax _ _ Hnn), (row_idxmax_argmax _ _ Hnn).
  destruct (argmax_from_spec (map g rest) (g L0) Hnn)
    as [(k & Hk & Hbefore) Hall].
  change (g L0 :: map g rest) with (map g (L0 :: rest)) in *.
  rewrite lookup_map in Hk.
  destruct ((L0 :: rest) !! k) as [L|] eqn:EL; [|done].
  simpl in Hk. injection Hk as Hk.
  rewrite <- Hk in Hbefore, Hall. rewrite <- Hk.
  split.
  { assert (In (g L) (g L0 :: map g rest)) as Hin
      by (change (g L0 :: map g rest) with (map g (L0 :: rest));
          apply in_map; by apply (lookup_In _ k)).
    unfold no_nan in Hnn. rewrite Forall_forall in Hnn.
    apply (Hnn (g L)). by apply list_elem_of_In. }
  exists k, L. repeat split; try done.
  - intros j L' Hj HL'.
    apply (Hbefore j (g L')); [done|]. by rewrite lookup_map, HL'.
  - intros L' HL'. apply (Hall (g L')). by apply in_map.
Qed.

Lemma suggested_row v cn cols i s :
  suggested_values v cn cols !! i = Some s ->
  exists u,
    uplift_values v cols !! i = Some u /\
    s = strip_uplift
          (if PrimFloat.leb u 0 then cn
           else default "" (row_idxmax (row_at i (block_of v cols)))).
Proof.
  unfold suggested_values. rewrite !lookup_map.
  destruct (combine _ _ !! i) as [[u name]|] eqn:E; [|done].
  simpl. intros [= <-].
  apply lookup_combine in E as [HU Hidx].
  exists u. split; [exact HU|].
  unfold idxmax_axis1 in Hidx. apply lookup_seq_map in Hidx as [_ ->]. done.
Qed.

(** ** The simulator on predictors that score *)

Lemma agrees_refl all pc v0 : agrees all pc v0 v0.
Proof. by split. Qed.

Lemma scored_num_block pc v treatments :
  (forall L, In L treatments -> scored pc v L) ->
  num_block v (map col_uplift treatments).
Proof.
  intros Hsc n Hn. apply in_map_iff in Hn as (L & <- & HL).
  destruct (Hsc L HL) as (a & b & _ & _ & Hu & _ & _ & Hfa & Hfb).
  eexists. split; [exact Hu|]. by apply Forall_fsub_not_nan.
Qed.

Lemma simulate_ok df treatments cn learners pc (h : heap) v0 :
  h !! df = Some v0 -> fitted_for treatments pc v0 learners ->
  treatments <> [] ->
  exists h' vL,
    _simulate_treatment_effect df treatments cn learners pc h
    = (h', Ok (fresh_loc h)) /\
    h' !! fresh_loc h
    = Some (with_summary vL cn (map col_uplift treatments)) /\
    agrees treatments pc v0 vL /\
    (forall L, In L treatments -> scored pc vL L) /\
    df_names vL = fold_left (names_step pc) treatments (df_names v0).
Proof.
  intros Hdf Hfit Hne. unfold _simulate_treatment_effect.
  set (l := fresh_loc h). set (h0 := <[l := v0]> h).
  rewrite (bind_ok _ _ h h0 l) by (by apply copy_run).
  destruct (simulate_loop_ok l learners pc treatments v0 Hfit treatments []
              h0 v0 (fun L H => H) (lookup_insert_eq _ _ _)
              (agrees_refl _ _ _))
    as (h1 & vL & E & Hl1 & Hag & Hsc & Hn); [by intros L []|].
  simpl in E, Hsc.
  rewrite (bind_ok _ _ h0 h1 _ E).
  rewrite (bind_ok _ _ h1 (<[l := with_summary vL cn
                                     (map col_uplift treatments)]> h1) tt).
  2:{ apply aggregate_run; [done| | |].
      - by destruct treatments.
      - by apply (scored_num_block pc).
      - intros Hin. apply in_map_iff in Hin as (L & HL & _). discriminate HL. }
  exists (<[l := with_summary vL cn (map col_uplift treatments)]> h1), vL.
  split; [done|]. split; [apply lookup_insert_eq|].
  split; [exact Hag|]. split; [exact Hsc | exact Hn].
Qed.

Lemma with_summary_get_other v cn cols name :
  name <> "uplift" -> name <> "suggested_treatment" ->
  od_get (df_cols (with_summary v cn cols)) name = od_get (df_cols v) name.
Proof.
  intros H1 H2. unfold with_summary. simpl.
  rewrite od_get_set_ne by done. by rewrite od_get_set_ne.
Qed.

Lemma with_summary_get_uplift v cn cols :
  od_get (df_cols (with_summary v cn cols)) "uplift"
  = Some (NumCol (uplift_values v cols)).
Proof.
  unfold with_summary. simpl. rewrite od_get_set_ne by discriminate.
  apply od_get_set_eq.
Qed.

Lemma with_summary_get_suggested v cn cols :
  od_get (df_cols (with_summary v cn cols)) "suggested_treatment"
  = Some (StrCol (suggested_values v cn cols)).
Proof. unfold with_summary. simpl. apply od_get_set_eq. Qed.

Lemma with_summary_scored v cn cols pc L :
  scored pc v L -> scored pc (with_summary v cn cols) L.
Proof.
  intros (a & b & Ha & Hb & Hu & Hla & Hlb & Hfa & Hfb). exists a, b.
  rewrite !with_summary_get_other; try done;
    apply (generated_not_fixed L pc); auto.
Qed.

Lemma scored_num_values pc v L ups :
  scored pc v L ->
  od_get (df_cols v) (col_uplift L) = Some (NumCol ups) ->
  num_values v (col_uplift L) = ups /\ length ups = nrows v.
Proof.
  intros (a & b & _ & _ & Hu & Hla & Hlb & _) Hups.
  unfold num_values. rewrite Hups. split; [done|].
  rewrite Hu in Hups. injection Hups as <-.
  rewrite length_map, length_combine. lia.
Qed.

Lemma uplift_values_length v cols : length (uplift_values v cols) = nrows v.
Proof. apply max_axis1_length. Qed.

Lemma suggested_values_length v cn cols :
  length (suggested_values v cn cols) = nrows v.
Proof.
  unfold suggested_values.
  rewrite !length_map, length_combine, uplift_values_length,
    idxmax_axis1_length. lia.
Qed.

Lemma scored_uplift_at pc v cn cols L i :
  scored pc v L -> (i < nrows v)%nat ->
  exists ups,
    od_get (df_cols (with_summary v cn cols)) (col_uplift L)
      = Some (NumCol ups) /\
    ups !! i = Some (nth i (num_values v (col_uplift L)) 0%float).
Proof.
  intros Hsc Hi. pose proof Hsc as (a & b & _ & _ & Hu & _).
  destruct (scored_num_values pc v L _ Hsc Hu) as [Hnv Hlen].
  eexists. split.
  - rewrite with_summary_get_other; [exact Hu|discriminate|discriminate].
  - rewrite Hnv, nth_lookup.
    destruct (lookup_lt_is_Some_2
                (map fsub (combine a b)) i)
      as [x Hx]; [lia|].
    by rewrite Hx.
Qed.

(** ** Column names of the result *)

Lemma In_add_name ns k n : In n (add_name ns k) <-> In n ns \/ n = k.
Proof.
  unfold add_name. destruct (existsb (String.eqb k) ns) eqn:E.
  - apply existsb_eqb_In in E. split; [auto | intros [?| ->]; done].
  - rewrite in_app_iff. simpl. split; intros [?|?]; auto.
    + destruct H as [->|[]]. auto.
Qed.

Lemma In_rm_name k ns n : In n (rm_name k ns) <-> In n ns /\ n <> k.
Proof.
  unfold rm_name. rewrite List.filter_In, negb_true_iff, String.eqb_neq.
  split; intros [? ?]; split; auto.
Qed.

Lemma add_name_fresh ns k : ~ In k ns -> add_name ns k = ns ++ [k].
Proof.
  intros H. unfold add_name. apply existsb_eqb_not_In in H. by rewrite H.
Qed.

Lemma rm_name_fresh k ns : ~ In k ns -> rm_name k ns = ns.
Proof.
  intros H. unfold rm_name. induction ns as [|n ns IH]; simpl; [done|].
  destruct (String.eqb k n) eqn:E; simpl.
  - apply String.eqb_eq in E. subst. exfalso. apply H. by left.
  - rewrite IH; [done|]. intros H'. apply H. by right.
Qed.

Lemma names_step_In pc ns L n :
  In n (names_step pc ns L) -> In n ns \/ In n (three_names pc L).
Proof.
  unfold names_step. simpl.
  rewrite !In_add_name, In_rm_name, In_add_name, In_rm_name.
  intuition (subst; auto).
Qed.

Lemma names_loop_In pc treatments : forall ns n,
  In n (fold_left (names_step pc) treatments ns) ->
  In n ns \/ exists L, In L treatments /\ In n (three_names pc L).
Proof.
  induction treatments as [|L rest IH]; intros ns n H; simpl in H; [auto|].
  apply IH in H as [H|(L' & HL' & H)].
  - apply names_step_In in H as [H|H]; [auto|].
    right. exists L. split; [by left | done].
  - right. exists L'. split; [by right | done].
Qed.

Lemma names_step_fresh pc ns L :
  ~ In TREATMENT_FEATURE ns ->
  (forall n, In n (three_names pc L) -> ~ In n ns) ->
  names_step pc ns L = ns ++ three_names pc L.
Proof.
  intros Hf Hn. unfold names_step.
  assert (~ In (col_on_treatment L pc) ns) as H1 by (apply Hn; simpl; auto).
  assert (~ In (col_on_control L pc) ns) as H2 by (apply Hn; simpl; auto).
  assert (~ In (col_uplift L) ns) as H3 by (apply Hn; simpl; auto).
  rewrite (rm_name_fresh _ ns Hf).
  rewrite (add_name_fresh ns (col_on_treatment L pc)) by done.
  rewrite (rm_name_fresh TREATMENT_FEATURE (ns ++ [col_on_treatment L pc])).
  2:{ intros H. apply in_app_iff in H as [?|[?|[]]]; [done | discriminate]. }
  rewrite (add_name_fresh (ns ++ [col_on_treatment L pc])
             (col_on_control L pc)).
  2:{ intros H. apply in_app_iff in H as [H|[H|[]]]; [done|].
      by apply col_on_treatment_not_on_control in H. }
  rewrite add_name_fresh.
  2:{ intros H. apply in_app_iff in H as [H|[H|[]]].
      - apply in_app_iff in H as [H|[H|[]]]; [done|].
        by apply col_on_treatment_not_uplift in H.
      - by apply col_on_control_not_uplift in H. }
  by rewrite <- !app_assoc.
Qed.

Lemma names_loop_fresh pc treatments : forall ns,
  List.NoDup treatments ->
  ~ In TREATMENT_FEATURE ns ->
  (forall L n, In L treatments -> In n (three_names pc L) -> ~ In n ns) ->
  fold_left (names_step pc) treatments ns
  = ns ++ flat_map (three_names pc) treatments.
Proof.
  induction treatments as [|L rest IH]; intros ns Hnd Hf Hn; simpl.
  - by rewrite app_nil_r.
  - inversion Hnd as [|? ? HL Hnd']; subst.
    rewrite names_step_fresh; [|done|by intros n; apply Hn; left].
    rewrite IH; [by rewrite <- app_assoc | done | |].
    + intros H. apply in_app_iff in H as [?|H]; [done|].
      by apply three_names_not_flag in H.
    + intros L' n HL' Hn' H. apply in_app_iff in H as [H|H].
      * revert H. apply (Hn L'); [by right | done].
      * revert H. apply (three_names_disjoint pc L L'); [|done].
        intros ->. done.
Qed.

Lemma with_summary_names v cn cols :
  df_names (with_summary v cn cols)
  = add_name (add_name (df_names v) "uplift") "suggested_treatment".
Proof. unfold df_names, with_summary. simpl. by rewrite !od_keys_set. Qed.

(** ** The example predictors score *)

Lemma table_predictor_scores all v0 on_treatment on_control :
  (0 < nrows v0)%nat ->
  length on_treatment = nrows v0 -> length on_control = nrows v0 ->
  Forall finite on_treatment -> Forall finite on_control ->
  scores_on all "prediction" v0 (table_predictor on_treatment on_control).
Proof.
  intros Hpos Ht Hc Hft Hfc v b [Hi _].
  assert (nrows v = nrows v0) as Hn by (unfold nrows; by rewrite Hi).
  split; [done|].
  unfold table_predictor. cbn [snd].
  assert (od_get (df_cols (with_flag v b)) TREATMENT_FEATURE
          = Some (NumCol (repeat (if b then 1%float else 0%float) (nrows v)))) as ->
    by apply od_get_set_eq.
  rewrite Hn. destruct (nrows v0) as [|n] eqn:E; [lia|]. cbn [repeat].
  set (tbl := if PrimFloat.eqb (if b then 1 else 0) 1 then on_treatment
              else on_control).
  assert (length tbl = S n /\ Forall finite tbl) as [Htbl Hfin]
    by (unfold tbl; by destruct (PrimFloat.eqb _ _)).
  eexists. exists tbl. split; [|split; [|by rewrite Htbl]].
  - apply df_setitem_ok. cbn [col_len]. by rewrite Htbl.
  - apply od_get_set_eq.
Qed.

Ltac finite_table := repeat constructor.

Lemma learners_A_B_fitted :
  fitted_for ["A"; "B"] "prediction" df_four_rows learners_A_B.
Proof.
  intros L [<-|[<-|[]]]; eexists; (split; [reflexivity|]);
    (apply table_predictor_scores;
       [unfold nrows; simpl; lia | reflexivity | reflexivity
       | finite_table | finite_table]).
Qed.

(** ** The simulator's output *)

(** C1, as the code has it.  When the predictors score, the control
    label does not contain [__uplift] and no [treatment_<label>] does,
    the simulator returns a frame in which, at every row, the [uplift]
    column bounds every per-treatment uplift at that row and is either
    at most 0 or above 0 (it is not NaN), and the
    [suggested_treatment] column holds the control label when that
    maximum is at most 0 and otherwise [treatment_<L>], the uplift
    column's name without its [__uplift] suffix, for the first treatment
    [L] in list order whose uplift is the maximum. *)
Theorem suggested_treatment_policy
  df treatments cn learners pc (h : heap) v0 :
  h !! df = Some v0 -> fitted_for treatments pc v0 learners ->
  treatments <> [] ->
  has_sub "__uplift" cn = false ->
  (forall L, In L treatments ->
     has_sub "__uplift" ("treatment_" +:+ L) = false) ->
  exists h' l' out U S,
    _simulate_treatment_effect df treatments cn learners pc h = (h', Ok l') /\
    h' !! l' = Some out /\
    od_get (df_cols out) "uplift" = Some (NumCol U) /\
    od_get (df_cols out) "suggested_treatment" = Some (StrCol S) /\
    length U = nrows v0 /\ length S = nrows v0 /\
    forall i u s, U !! i = Some u -> S !! i = Some s ->
      (forall L, In L treatments ->
         exists ups x,
           od_get (df_cols out) (col_uplift L) = Some (NumCol ups) /\
           ups !! i = Some x /\ PrimFloat.leb x u = true) /\
      (PrimFloat.leb u 0 = true \/ PrimFloat.ltb 0 u = true) /\
      (PrimFloat.leb u 0 = true -> s = cn) /\
      (PrimFloat.ltb 0 u = true ->
         exists k L ups,
           treatments !! k = Some L /\
           s = "treatment_" +:+ L /\
           od_get (df_cols out) (col_uplift L) = Some (NumCol ups) /\
           ups !! i = Some u /\
           forall j L', (j < k)%nat -> treatments !! j = Some L' ->
             exists ups' x,
               od_get (df_cols out) (col_uplift L') = Some (NumCol ups') /\
               ups' !! i = Some x /\ PrimFloat.ltb x u = true).
Proof.
  intros Hdf Hfit Hne Hcn Hlab.
  destruct (simulate_ok df treatments cn learners pc h v0 Hdf Hfit Hne)
    as (h' & vL & E & Hl & Hag & Hsc & _).
  set (cols := map col_uplift treatments) in *.
  assert (nrows vL = nrows v0) as Hn
    by (unfold nrows; destruct Hag as [-> _]; done).
  exists h', (fresh_loc h), (with_summary vL cn cols),
    (uplift_values vL cols), (suggested_values vL cn cols).
  split; [exact E|]. split; [exact Hl|].
  split; [apply with_summary_get_uplift|].
  split; [apply with_summary_get_suggested|].
  split; [by rewrite uplift_values_length|].
  split; [by rewrite suggested_values_length|].
  intros i u s HU HS.
  destruct (uplift_row vL treatments i u (scored_num_block pc vL _ Hsc) HU Hne)
    as (Hi & Hnu & k & L & Hk & Hu & Hidx & Hbefore & Hall).
  destruct (suggested_row vL cn cols i s HS) as (u' & HU' & Hs).
  rewrite HU in HU'. injection HU' as <-. fold cols in Hidx.
  rewrite Hidx in Hs. cbn [default] in Hs.
  assert (In L treatments) as HL by (by apply (lookup_In _ k)).
  split; [|split; [|split]].
  - intros L' HL'.
    destruct (scored_uplift_at pc vL cn cols L' i (Hsc L' HL') Hi)
      as (ups & Hups & Hx).
    exists ups, (nth i (num_values vL (col_uplift L')) 0%float).
    split; [done|]. split; [done|]. by apply Hall.
  - by apply leb_or_ltb.
  - intros Hle. rewrite Hle in Hs.
    rewrite Hs. by apply strip_uplift_clean.
  - intros Hlt.
    assert (PrimFloat.leb u 0 = false) as Hf by (by apply ltb_not_leb).
    rewrite Hf in Hs.
    destruct (scored_uplift_at pc vL cn cols L i (Hsc L HL) Hi)
      as (ups & Hups & Hx).
    exists k, L, ups. split; [done|].
    split; [rewrite Hs; by apply strip_col_uplift, Hlab|].
    split; [done|]. split; [by rewrite Hu|].
    intros j L' Hj HL'.
    destruct (scored_uplift_at pc vL cn cols L' i
                (Hsc L' (lookup_In _ _ _ HL')) Hi) as (ups' & Hups' & Hx').
    exists ups', (nth i (num_values vL (col_uplift L')) 0%float).
    split; [done|]. split; [done|]. by apply (Hbefore j).
Qed.

Lemma suggested_treatment_policy_witness :
  exists h' l' out U S,
    _simulate_treatment_effect 1%positive ["A"; "B"] "control" learners_A_B
      "prediction" (store1 df_four_rows) = (h', Ok l') /\
    h' !! l' = Some out /\
    od_get (df_cols out) "uplift" = Some (NumCol U) /\
    od_get (df_cols out) "suggested_treatment" = Some (StrCol S) /\
    length U = 4%nat /\ length S = 4%nat.
Proof.
  destruct (suggested_treatment_policy 1%positive ["A"; "B"] "control"
              learners_A_B "prediction" (store1 df_four_rows) df_four_rows
              eq_refl learners_A_B_fitted)
    as (h' & l' & out & U & S & E & Hl & HU & HS & HlU & HlS & _).
  - discriminate.
  - reflexivity.
  - intros L [<-|[<-|[]]]; reflexivity.
  - exists h', l', out, U, S. repeat split; assumption.
Defined.

(** C1 as stated fails: on the data of the repository's test the first
    row has a positive maximal uplift, reached by treatment [A], and the
    suggestion there is [treatment_A], not the bare label [A]. *)
Lemma bare_label_counterexample :
  exists out U S,
    snd (_simulate_treatment_effect 1%positive ["A"; "B"] "control"
           learners_A_B "prediction" (store1 df_four_rows)) = Ok 2%positive /\
    fst (_simulate_treatment_effect 1%positive ["A"; "B"] "control"
           learners_A_B "prediction" (store1 df_four_rows)) !! 2%positive
    = Some out /\
    od_get (df_cols out) "uplift" = Some (NumCol U) /\
    od_get (df_cols out) "suggested_treatment" = Some (StrCol S) /\
    (exists u, U !! 0%nat = Some u /\ PrimFloat.ltb 0 u = true) /\
    S = ["treatment_A"; "treatment_B"; "control"; "treatment_A"] /\
    S <> ["A"; "B"; "control"; "A"].
Proof.
  eexists. eexists. eexists.
  split; [vm_compute; reflexivity|].
  split; [vm_compute; reflexivity|].
  split; [vm_compute; reflexivity|].
  split; [vm_compute; reflexivity|].
  split; [eexists; split; [reflexivity | reflexivity]|].
  split; [reflexivity | discriminate].
Qed.

(** C2.  When the predictors score, the simulator returns a frame with
    the index of the input in which every treatment of the list has its
    three columns, named [treatment_<L>__<prediction_column>_on_treatment],
    [treatment_<L>__<prediction_column>_on_control] and
    [treatment_<L>__uplift], the third being the binary64 difference of
    the first and the second at every row; the [uplift] column is the
    maximum over the
    per-treatment uplift columns at every row; no column is added beyond
    those and the two summary columns, and the columns of the input under
    other names are kept.  When the input has none of these names and the
    treatments are distinct, the new columns stand after the input's
    columns, three per treatment in list order, then the two summary
    columns. *)
Theorem simulator_columns df treatments cn learners pc (h : heap) v0 :
  h !! df = Some v0 -> fitted_for treatments pc v0 learners ->
  treatments <> [] ->
  exists h' l' out U,
    _simulate_treatment_effect df treatments cn learners pc h = (h', Ok l') /\
    h' !! l' = Some out /\
    df_index out = df_index v0 /\
    (forall L, In L treatments -> scored pc out L) /\
    od_get (df_cols out) "uplift" = Some (NumCol U) /\
    length U = nrows v0 /\
    (forall i u, U !! i = Some u ->
       (exists L ups, In L treatments /\
          od_get (df_cols out) (col_uplift L) = Some (NumCol ups) /\
          ups !! i = Some u) /\
       (forall L, In L treatments ->
          exists ups x,
            od_get (df_cols out) (col_uplift L) = Some (NumCol ups) /\
            ups !! i = Some x /\ PrimFloat.leb x u = true)) /\
    (forall name, In name (df_names out) ->
       In name (df_names v0) \/
       (exists L, In L treatments /\ In name (three_names pc L)) \/
       name = "uplift" \/ name = "suggested_treatment") /\
    (forall name, ~ generated treatments pc name ->
       name <> "uplift" -> name <> "suggested_treatment" ->
       od_get (df_cols out) name = od_get (df_cols v0) name) /\
    (List.NoDup treatments ->
     (forall name, In name (df_names v0) ->
        ~ generated treatments pc name /\
        name <> "uplift" /\ name <> "suggested_treatment") ->
     df_names out
     = df_names v0 ++ flat_map (three_names pc) treatments
         ++ ["uplift"; "suggested_treatment"]).
Proof.
  intros Hdf Hfit Hne.
  destruct (simulate_ok df treatments cn learners pc h v0 Hdf Hfit Hne)
    as (h' & vL & E & Hl & Hag & Hsc & Hnames).
  set (cols := map col_uplift treatments) in *.
  assert (nrows vL = nrows v0) as Hn
    by (unfold nrows; destruct Hag as [-> _]; done).
  exists h', (fresh_loc h), (with_summary vL cn cols), (uplift_values vL cols).
  split; [exact E|]. split; [exact Hl|].
  split; [by destruct Hag|].
  split; [intros L HL; by apply with_summary_scored, Hsc|].
  split; [apply with_summary_get_uplift|].
  split; [by rewrite uplift_values_length|].
  split; [|split; [|split]].
  - intros i u HU.
    destruct (uplift_row vL treatments i u (scored_num_block pc vL _ Hsc)
                HU Hne)
      as (Hi & Hnu & k & L & Hk & Hu & _ & _ & Hall).
    assert (In L treatments) as HL by (by apply (lookup_In _ k)).
    split.
    + destruct (scored_uplift_at pc vL cn cols L i (Hsc L HL) Hi)
        as (ups & Hups & Hx).
      exists L, ups. split; [done|]. split; [done|]. by rewrite Hu.
    + intros L' HL'.
      destruct (scored_uplift_at pc vL cn cols L' i (Hsc L' HL') Hi)
        as (ups & Hups & Hx).
      exists ups, (nth i (num_values vL (col_uplift L')) 0%float).
      split; [done|]. split; [done|]. by apply Hall.
  - intros name Hin. rewrite with_summary_names in Hin.
    apply In_add_name in Hin as [Hin| ->]; [|auto].
    apply In_add_name in Hin as [Hin| ->]; [|auto].
    rewrite Hnames in Hin. apply names_loop_In in Hin as [?|?]; auto.
  - intros name Hg H1 H2. rewrite with_summary_get_other by done.
    destruct Hag as [_ Hag]. by apply Hag.
  - intros Hnd Hfresh. rewrite with_summary_names, Hnames.
    rewrite names_loop_fresh; [|done| |].
    + assert (forall name,
                In name (df_names v0 ++ flat_map (three_names pc) treatments) ->
                name <> "uplift" /\ name <> "suggested_treatment") as Hnot.
      { intros name Hin. apply in_app_iff in Hin as [Hin|Hin].
        - by destruct (Hfresh name Hin) as (_ & ? & ?).
        - apply in_flat_map in Hin as (L & _ & Hin).
          destruct (generated_not_fixed L pc name) as (_ & ? & ?); [|done].
          simpl in Hin. destruct Hin as [<-|[<-|[<-|[]]]]; auto. }
      rewrite (add_name_fresh
                 (df_names v0 ++ flat_map (three_names pc) treatments)
                 "uplift") by (intros Hin; by destruct (Hnot _ Hin)).
      rewrite add_name_fresh.
      * by rewrite <- !app_assoc.
      * intros Hin. apply in_app_iff in Hin as [Hin|[Hin|[]]].
        -- by destruct (Hnot _ Hin).
        -- discriminate Hin.
    + intros Hin. destruct (Hfresh _ Hin) as (Hg & _). apply Hg.
      apply generated_flag.
    + intros L n HL Hn' Hin. destruct (Hfresh _ Hin) as (Hg & _). apply Hg.
      by apply (generated_three treatments pc L).
Qed.

Lemma simulator_columns_witness :
  exists h' l' out,
    _simulate_treatment_effect 1%positive ["A"; "B"] "control" learners_A_B
      "prediction" (store1 df_four_rows) = (h', Ok l') /\
    h' !! l' = Some out /\
    df_names out
    = ["x1"; "x2"; "treatment"; "target";
       "treatment_A__prediction_on_treatment";
       "treatment_A__prediction_on_control"; "treatment_A__uplift";
       "treatment_B__prediction_on_treatment";
       "treatment_B__prediction_on_control"; "treatment_B__uplift";
       "uplift"; "suggested_treatment"].
Proof.
  destruct (simulator_columns 1%positive ["A"; "B"] "control"
              learners_A_B "prediction" (store1 df_four_rows) df_four_rows
              eq_refl learners_A_B_fitted)
    as (h' & l' & out & U & E & Hl & _ & _ & _ & _ & _ & _ & _ & Hnames).
  - discriminate.
  - exists h', l', out. split; [exact E|]. split; [exact Hl|].
    apply Hnames.
    + repeat constructor; simpl; intros H;
        repeat destruct H as [H|H]; try discriminate H; exact H.
    + intros name Hin. simpl in Hin.
      repeat destruct Hin as [Hin|Hin]; try contradiction; subst name;
        (split; [|split; discriminate]);
        (intros [Hg|(L & HL & Hg)]; [discriminate Hg|]);
        simpl in HL; destruct HL as [<-|[<-|[]]];
        destruct Hg as [Hg|[Hg|Hg]]; discriminate Hg.
Defined.

(** The uplift is the difference as binary64 rounds it, and the maximum
    and the suggestion are taken over the rounded differences.  Here the
    predictions of treatment [B] differ by more than those of treatment
    [A] as real numbers (1/2 + 2^-54 against 1/2), yet both uplift
    columns hold 0.5 and the tie goes to the first treatment. *)
Lemma rounded_differences_tie :
  exists out,
    snd (_simulate_treatment_effect 1%positive ["A"; "B"] "control"
           learners_half "prediction" (store1 df_one_row)) = Ok 2%positive /\
    fst (_simulate_treatment_effect 1%positive ["A"; "B"] "control"
           learners_half "prediction" (store1 df_one_row)) !! 2%positive
    = Some out /\
    od_get (df_cols out) "treatment_A__uplift" = Some (NumCol [0.5]%float) /\
    od_get (df_cols out) "treatment_B__uplift" = Some (NumCol [0.5]%float) /\
    od_get (df_cols out) "suggested_treatment" = Some (StrCol ["treatment_A"]).
Proof.
  eexists.
  split; [vm_compute; reflexivity|].
  split; [vm_compute; reflexivity|].
  split; [vm_compute; reflexivity|].
  split; [vm_compute; reflexivity | vm_compute; reflexivity].
Qed.

(** * Further properties of the module *)

(** ** The resolver *)

Lemma filter_unique_from (p : string -> bool) l : forall seen seen',
  (forall y, p y = true -> (In y seen <-> In y seen')) ->
  List.filter p (unique_from seen l) = unique_from seen' (List.filter p l).
Proof.
  induction l as [|x l IH]; intros seen seen' H; simpl; [done|].
  destruct (p x) eqn:Px.
  - assert (existsb (String.eqb x) seen = existsb (String.eqb x) seen') as E.
    { destruct (existsb (String.eqb x) seen') eqn:E'.
      - apply existsb_eqb_In, H; [done|]. by apply existsb_eqb_In.
      - apply existsb_eqb_not_In. intros Hin. apply H in Hin; [|done].
        apply existsb_eqb_not_In in E'. done. }
    simpl. rewrite <- E. destruct (existsb (String.eqb x) seen).
    + by apply IH.
    + simpl. rewrite Px. f_equal. apply IH. intros y Py. simpl.
      rewrite (H y Py). tauto.
  - destruct (existsb (String.eqb x) seen); [by apply IH|].
    simpl. rewrite Px. apply IH. intros y Py. simpl. rewrite <- (H y Py).
    split; [|tauto]. intros [->|?]; [congruence | done].
Qed.

(** X1. When the control label is in the treatment column, the resolver
    returns the labels of the column other than the control, each once,
    in the order in which they first appear, and leaves the store as it
    was. *)
Theorem get_unique_treatments_first_seen df tc cn (h : heap) v labels :
  h !! df = Some v ->
  od_get (df_cols v) tc = Some (StrCol labels) ->
  In cn labels ->
  let found :=
    unique (List.filter (fun l => negb (String.eqb l cn)) labels) in
  _get_unique_treatments df tc cn h = (h, Ok found) /\
  List.NoDup found /\
  (forall x, In x found <-> In x labels /\ x <> cn).
Proof.
  intros Hdf Hc Hcn found.
  assert (non_control cn (StrCol labels) = found) as E.
  { unfold found, unique. simpl. by apply filter_unique_from. }
  split; [|split].
  - rewrite (get_unique_treatments_run df tc cn h v _ Hdf Hc).
    assert (str_in_unique cn (StrCol labels) = true) as ->
      by (by apply str_in_unique_true).
    by rewrite E.
  - rewrite <- E. apply non_control_NoDup.
  - intros x. rewrite <- E. apply (non_control_In cn (StrCol labels)).
Qed.

Lemma get_unique_treatments_first_seen_witness :
  _get_unique_treatments 1%positive "treatment" "control"
    (store1 df_nine_rows)
  = (store1 df_nine_rows, Ok ["A"; "B"]).
Proof.
  refine (proj1 (get_unique_treatments_first_seen 1%positive "treatment"
            "control" (store1 df_nine_rows) df_nine_rows
            ["A"; "B"; "A"; "A"; "B"; "control"; "control"; "B"; "control"]
            eq_refl eq_refl _)).
  simpl. auto 10.
Defined.

(** ** A missing treatment column *)

Lemma getitem_missing (h : heap) l v name :
  h !! l = Some v -> od_get (df_cols v) name = None ->
  getitem l name h = (h, Raise (KeyError name)).
Proof.
  intros Hl Hn. rewrite (getitem_run h l v) by done.
  unfold df_getitem. by rewrite Hn.
Qed.

(** X2. When the frame has no column of the given name, the resolver, the
    filter and flag injection raise [KeyError] for that name before any
    label is looked at, and so does the fitting loop on its first
    treatment, without calling the learner; the caller's frame is left
    as it was. *)
Theorem missing_treatment_column_raises_key_error {Log : Type}
  df tc tn cn (h : heap) v :
  h !! df = Some v -> od_get (df_cols v) tc = None ->
  _get_unique_treatments df tc cn h = (h, Raise (KeyError tc)) /\
  _filter_by_treatment df tc tn cn h = (h, Raise (KeyError tc)) /\
  snd (_create_treatment_flag df tc tn cn h) = Raise (KeyError tc) /\
  fst (_create_treatment_flag df tc tn cn h) !! df = Some v /\
  (forall (learner : LearnerFnType Log) rest,
     _fit_by_treatment df learner tc cn (tn :: rest) h
     = (h, Raise (KeyError tc))).
Proof.
  intros Hdf Hc.
  assert (_filter_by_treatment df tc tn cn h = (h, Raise (KeyError tc))) as Hf.
  { unfold _filter_by_treatment.
    by rewrite (bind_raise _ _ h h (KeyError tc))
      by (by apply (getitem_missing h df v)). }
  split; [|split; [exact Hf|split; [|split]]].
  - unfold _get_unique_treatments.
    by rewrite (bind_raise _ _ h h (KeyError tc))
      by (by apply (getitem_missing h df v)).
  - unfold _create_treatment_flag.
    rewrite (bind_ok _ _ h _ _ (copy_run h df v Hdf)).
    by rewrite (bind_raise _ _ _ _ (KeyError tc))
      by (apply (getitem_missing _ _ v); [apply lookup_insert_eq | done]).
  - unfold _create_treatment_flag.
    rewrite (bind_ok _ _ h _ _ (copy_run h df v Hdf)).
    rewrite (bind_raise _ _ _ _ (KeyError tc))
      by (apply (getitem_missing _ _ v); [apply lookup_insert_eq | done]).
    simpl. exact (preserved_alloc h h v (preserved_refl h) df v Hdf).
  - intros learner rest. unfold _fit_by_treatment. simpl fit_loop.
    by rewrite (bind_raise _ _ h h (KeyError tc)).
Qed.

Lemma missing_treatment_column_witness :
  _filter_by_treatment 1%positive "group" "A" "control" (store1 df_nine_rows)
  = (store1 df_nine_rows, Raise (KeyError "group")).
Proof.
  exact (proj1 (proj2 (missing_treatment_column_raises_key_error (Log := nat)
                         1%positive "group" "A" "control"
                         (store1 df_nine_rows) df_nine_rows
                         eq_refl eq_refl))).
Defined.

(** ** The fitting side never writes to a frame it was given *)

Lemma confined_mono {A} (P Q : loc -> Prop) (m : M A) :
  (forall l, P l -> Q l) -> confined P m -> confined Q m.
Proof. intros HPQ Hm h0 h Hp HQ. apply Hm; [done|]. intros l Hl. auto. Qed.

Lemma confined_copy_then {A} (P : loc -> Prop) df (k : loc -> M A) :
  (forall l, confined (fun x => P x \/ x = l) (k l)) ->
  confined P (bind (copy df) k).
Proof.
  intros Hk h0 h Hp HP. unfold copy, bind, read, alloc.
  destruct (h !! df) as [v|] eqn:E; simpl; [|done].
  apply (Hk (fresh_loc h)).
  - by apply preserved_alloc.
  - intros l [Hl| ->]; [by apply HP|].
    destruct (h0 !! fresh_loc h) eqn:E'; [|done].
    apply Hp in E'. by rewrite fresh_loc_None in E'.
Qed.

Lemma confined_get_unique_treatments P l tc cn :
  confined P (_get_unique_treatments l tc cn).
Proof.
  apply confined_bind; [apply confined_getitem | intros c].
  destruct (negb _); [apply confined_raise | apply confined_ret].
Qed.

Lemma confined_filter_by_treatment P l tc tn cn :
  confined P (_filter_by_treatment l tc tn cn).
Proof.
  apply confined_bind; [apply confined_getitem | intros c].
  destruct (negb _); [apply confined_raise|].
  destruct (negb _); [apply confined_raise|].
  apply confined_bind; [apply confined_read | intros v].
  apply confined_alloc.
Qed.

Lemma confined_create_treatment_flag P l tc tn cn :
  confined P (_create_treatment_flag l tc tn cn).
Proof.
  apply confined_copy_then. intros l'.
  apply confined_bind; [apply confined_getitem | intros c].
  apply confined_bind; [apply confined_get_unique_treatments | intros ts].
  destruct (_ <? _)%nat; [apply confined_raise|].
  destruct (negb _); [apply confined_raise|].
  destruct (negb _); [apply confined_raise|].
  apply confined_bind; [apply confined_getitem | intros c'].
  apply confined_bind; [apply confined_setitem; by right | intros _].
  apply confined_ret.
Qed.

Lemma confined_fit_loop {Log : Type} P df (learner : LearnerFnType Log)
  tc cn treatments : forall F L,
  confined P (fit_loop df learner tc cn treatments F L).
Proof.
  induction treatments as [|t rest IH]; intros F L; simpl.
  - apply confined_ret.
  - apply confined_bind; [apply confined_filter_by_treatment | intros sub].
    apply confined_bind; [apply confined_create_treatment_flag | intros fl].
    apply confined_bind; [|intros r; apply IH].
    apply confined_bind; [apply confined_read | intros x].
    apply confined_lift.
Qed.

(** X3. The resolver, the filter, flag injection and the fitting loop
    never write to an object that existed before the call: whether they
    return or raise, and whether the learner returns or raises, every
    frame of the store has afterwards the value it had before. *)
Theorem fitting_side_preserves_store {Log : Type}
  df tc tn cn (learner : LearnerFnType Log) treatments (h : heap) :
  fst (_get_unique_treatments df tc cn h) = h /\
  preserved h (fst (_filter_by_treatment df tc tn cn h)) /\
  preserved h (fst (_create_treatment_flag df tc tn cn h)) /\
  preserved h (fst (_fit_by_treatment df learner tc cn treatments h)).
Proof.
  split; [|split; [|split]].
  - unfold _get_unique_treatments, getitem, bind, read, lift, raise, ret.
    destruct (h !! df) as [v|]; [|done].
    destruct (df_getitem v tc) as [c|e]; [|done].
    by destruct (negb _).
  - apply (confined_filter_by_treatment (fun _ => False));
      [apply preserved_refl | by intros l []].
  - apply (confined_create_treatment_flag (fun _ => False));
      [apply preserved_refl | by intros l []].
  - apply (confined_fit_loop (fun _ => False));
      [apply preserved_refl | by intros l []].
Qed.

(** ** Filter, then flag *)

Lemma two_group_labels labels tn cn :
  col_mask (treatment_or_control (StrCol labels) tn cn) (StrCol labels)
  = StrCol (List.filter
              (fun s => orb (String.eqb s tn) (String.eqb s cn)) labels).
Proof. simpl. by rewrite treatment_or_control_StrCol, mask_filter_map. Qed.

(** X4. On a frame whose treatment column holds the control and the
    requested treatment, the filter followed by flag injection on its
    result always returns, however many other treatments the frame
    holds: the second step never raises [MultipleTreatmentsError].  The
    frame it returns has the treatment column restricted to the two
    groups and a flag column that is 1 on the treatment's rows and 0 on
    the others; the input frame is left as it was. *)
Theorem filter_then_flag_returns df tc tn cn (h : heap) v labels :
  h !! df = Some v ->
  od_get (df_cols v) tc = Some (StrCol labels) ->
  length labels = nrows v ->
  In tn labels -> In cn labels ->
  let kept :=
    List.filter (fun s => orb (String.eqb s tn) (String.eqb s cn)) labels in
  exists l2,
    (sub <- _filter_by_treatment df tc tn cn ;;
     _create_treatment_flag sub tc tn cn) h
    = (fit_store h v tc tn cn, Ok l2) /\
    l2 <> df /\
    fit_store h v tc tn cn !! l2 = Some (fit_input v tc tn cn) /\
    fit_store h v tc tn cn !! df = Some v /\
    od_get (df_cols (fit_input v tc tn cn)) TREATMENT_FEATURE
      = Some (NumCol (flags_of kept tn)) /\
    nrows (fit_input v tc tn cn) = length kept /\
    (tc <> TREATMENT_FEATURE ->
     od_get (df_cols (fit_input v tc tn cn)) tc = Some (StrCol kept)).
Proof.
  intros Hdf Hc Hlen Htn Hcn kept.
  set (c := StrCol labels) in *.
  set (m := treatment_or_control c tn cn).
  set (sub := df_loc_mask v m).
  set (l1 := fresh_loc h). set (h1 := <[l1 := sub]> h).
  set (l2 := fresh_loc h1).
  assert (fit_store h v tc tn cn = <[l2 := fit_input v tc tn cn]> h1) as Hst
    by (unfold fit_store; by rewrite Hc).
  assert (h1 !! l1 = Some sub) as Hl1 by apply lookup_insert_eq.
  assert (h1 !! df = Some v) as Hdf1
    by exact (preserved_alloc h h sub (preserved_refl h) df v Hdf).
  assert (od_get (df_cols sub) tc = Some (col_mask m c)) as Hc'.
  { unfold sub, df_loc_mask. simpl. by rewrite od_get_map_values, Hc. }
  assert (col_mask m c = StrCol kept) as Hkept by apply two_group_labels.
  assert (fit_input v tc tn cn
          = mkDF (df_index sub)
              (od_set (df_cols sub) TREATMENT_FEATURE
                 (NumCol (flags_of kept tn)))) as Hfi.
  { unfold fit_input. rewrite Hc. cbv zeta. fold c. fold m. fold sub.
    by rewrite Hkept. }
  assert (length kept = nrows sub) as Hlk.
  { unfold nrows, sub, df_loc_mask. simpl.
    assert (col_len (col_mask m c) = length kept) as <- by (by rewrite Hkept).
    unfold c. simpl. by apply mask_filter_length. }
  exists l2. rewrite Hst. split; [|split; [|split; [|split; [|split; [|split]]]]].
  - rewrite (bind_ok _ _ h h1 l1).
    2:{ rewrite (filter_by_treatment_run df tc tn cn h v c Hdf Hc).
        assert (str_in_unique cn c = true) as ->
          by (by apply str_in_unique_true).
        assert (str_in_unique tn c = true) as ->
          by (by apply str_in_unique_true).
        done. }
    rewrite (create_treatment_flag_run l1 tc tn cn h1 sub _ Hl1 Hc').
    cbv zeta.
    assert (str_in_unique cn (col_mask m c) = true) as ->.
    { apply str_in_unique_true, col_has_label_two_groups. simpl. auto. }
    assert (str_in_unique tn (col_mask m c) = true) as ->.
    { apply str_in_unique_true, col_has_label_two_groups. simpl. auto. }
    assert ((1 <? length (non_control cn (col_mask m c)))%nat = false) as ->.
    { apply non_control_not_several.
      intros (a & b & Ha & Hb & Hac & Hbc & Hab).
      apply col_has_label_two_groups in Ha, Hb.
      destruct Ha as [_ [?|?]], Hb as [_ [?|?]]; congruence. }
    simpl negb. cbv iota.
    rewrite df_setitem_ok.
    + rewrite Hfi, Hkept. done.
    + rewrite Hkept. simpl. rewrite !length_map. exact Hlk.
  - intros E. pose proof (fresh_loc_None h1) as Hf. fold l2 in Hf.
    rewrite E, Hdf1 in Hf. discriminate.
  - apply lookup_insert_eq.
  - exact (preserved_alloc h1 h1 _ (preserved_refl h1) df v Hdf1).
  - rewrite Hfi. simpl. apply od_get_set_eq.
  - rewrite Hfi. unfold nrows at 1. simpl. symmetry. exact Hlk.
  - intros Hne. rewrite Hfi. cbn [df_cols].
    rewrite od_get_set_ne by done. by rewrite Hc', Hkept.
Qed.

Lemma filter_then_flag_witness :
  exists l2,
    (sub <- _filter_by_treatment 1%positive "treatment" "A" "control" ;;
     _create_treatment_flag sub "treatment" "A" "control")
      (store1 df_nine_rows)
    = (fit_store (store1 df_nine_rows) df_nine_rows "treatment" "A" "control",
       Ok l2) /\
    od_get (df_cols (fit_input df_nine_rows "treatment" "A" "control"))
      TREATMENT_FEATURE
    = Some (NumCol [1; 1; 1; 0; 0; 0]%float).
Proof.
  destruct (filter_then_flag_returns 1%positive "treatment" "A" "control"
              (store1 df_nine_rows) df_nine_rows
              ["A"; "B"; "A"; "A"; "B"; "control"; "control"; "B"; "control"]
              eq_refl eq_refl eq_refl)
    as (l2 & E & _ & _ & _ & Hflag & _).
  - simpl. auto.
  - simpl. auto 10.
  - exists l2. split; [exact E | exact Hflag].
Defined.

(** ** Validation inside the fitting loop *)

Lemma fit_loop_missing_treatment {Log : Type} df tc cn v c
  (learner : LearnerFnType Log) pre t post :
  od_get (df_cols v) tc = Some c -> col_len c = nrows v ->
  col_has_label c cn ->
  forall F L (h : heap),
  h !! df = Some v ->
  (forall t', In t' pre -> col_has_label c t') ->
  (forall t', In t' pre ->
     exists r, learner (fit_input v tc t' cn) = Ok r) ->
  ~ col_has_label c t ->
  snd (fit_loop df learner tc cn (pre ++ t :: post) F L h)
  = Raise MissingTreatmentError.
Proof.
  intros Hc Hlen Hcn.
  induction pre as [|t0 pre IH]; intros F L h Hdf Hlab Hok Hno.
  - simpl app. simpl fit_loop.
    rewrite (bind_raise _ _ h h MissingTreatmentError); [done|].
    rewrite (filter_by_treatment_run df tc t cn h v c Hdf Hc).
    apply str_in_unique_true in Hcn. apply str_in_unique_false in Hno.
    by rewrite Hcn, Hno.
  - simpl app.
    destruct (fit_loop_step df tc cn v c Hc Hlen Hcn learner t0
                (pre ++ t :: post) F L h Hdf (Hlab t0 (or_introl eq_refl)))
      as [Hdf2 ->].
    destruct (Hok t0) as [r Hr]; [by left|]. rewrite Hr.
    apply IH; [done| | |done].
    + intros t' Ht'. apply Hlab. by right.
    + intros t' Ht'. apply Hok. by right.
Qed.

(** X5. The fitting loop validates one treatment at a time.  With an
    empty list it returns two empty dictionaries and checks nothing, not
    even that the frame or the control exists.  With a first treatment
    and no control in the column it raises [MissingControlError] without
    calling the learner.  When the treatments before some treatment are
    present and fitted and that treatment is not in the column, it
    raises [MissingTreatmentError] and returns none of the earlier
    predictors. *)
Theorem fit_by_treatment_validation {Log : Type}
  df (learner : LearnerFnType Log) tc cn (h : heap) v c :
  h !! df = Some v -> od_get (df_cols v) tc = Some c ->
  col_len c = nrows v ->
  (forall h' df' tc' cn',
     _fit_by_treatment df' learner tc' cn' [] h' = (h', Ok ([], []))) /\
  (~ col_has_label c cn ->
   forall t rest,
     _fit_by_treatment df learner tc cn (t :: rest) h
     = (h, Raise MissingControlError)) /\
  (col_has_label c cn ->
   forall pre t post,
     (forall t', In t' pre -> col_has_label c t') ->
     (forall t', In t' pre ->
        exists r, learner (fit_input v tc t' cn) = Ok r) ->
     ~ col_has_label c t ->
     snd (_fit_by_treatment df learner tc cn (pre ++ t :: post) h)
     = Raise MissingTreatmentError).
Proof.
  intros Hdf Hc Hlen. split; [done|]. split.
  - intros Hno t rest. unfold _fit_by_treatment. simpl fit_loop.
    rewrite (bind_raise _ _ h h MissingControlError); [done|].
    rewrite (filter_by_treatment_run df tc t cn h v c Hdf Hc).
    apply str_in_unique_false in Hno. by rewrite Hno.
  - intros Hcn pre t post Hlab Hok Hno. unfold _fit_by_treatment.
    by apply (fit_loop_missing_treatment df tc cn v c).
Qed.

Lemma fit_by_treatment_validation_witness :
  snd (_fit_by_treatment 1%positive counting_learner "treatment" "control"
         ["A"; "C"; "B"] (store1 df_nine_rows))
  = Raise MissingTreatmentError.
Proof.
  refine (proj2 (proj2 (fit_by_treatment_validation 1%positive
                          counting_learner "treatment" "control"
                          (store1 df_nine_rows) df_nine_rows _
                          eq_refl eq_refl eq_refl)) _ ["A"] "C" ["B"] _ _ _).
  - simpl. auto 10.
  - intros t' [<-|[]]. simpl. auto.
  - intros t' _. eexists. reflexivity.
  - simpl. intros H. repeat destruct H as [H|H]; try discriminate H. exact H.
Defined.

Lemma fit_loop_outcome {Log : Type} df tc cn v c
  (learner : LearnerFnType Log) treatments :
  od_get (df_cols v) tc = Some c -> col_len c = nrows v ->
  col_has_label c cn ->
  forall F L (h : heap),
  h !! df = Some v ->
  (forall t, In t treatments -> col_has_label c t) ->
  (exists fl, snd (fit_loop df learner tc cn treatments F L h) = Ok fl) \/
  (exists t e, In t treatments /\
     learner (fit_input v tc t cn) = Raise e /\
     snd (fit_loop df learner tc cn treatments F L h) = Raise e).
Proof.
  intros Hc Hlen Hcn.
  induction treatments as [|t rest IH]; intros F L h Hdf Hlab.
  - left. by eexists.
  - destruct (fit_loop_step df tc cn v c Hc Hlen Hcn learner t rest F L h
                Hdf (Hlab t (or_introl eq_refl))) as [Hdf2 ->].
    destruct (learner (fit_input v tc t cn)) as [r|e] eqn:Er.
    + destruct (IH (od_set F t (fst (fst r))) (od_set L t (snd r)) _ Hdf2)
        as [Hok|(t' & e & Hin & Hr & Hs)].
      * intros t' Ht'. apply Hlab. by right.
      * by left.
      * right. exists t', e. split; [by right | done].
    + right. exists t, e. split; [by left | done].
Qed.

(** X6. Fitting on the treatments the resolver finds in the same frame
    cannot fail validation: the call either returns, with one predictor
    and one log per resolved treatment in the resolver's order, or raises
    an exception that the learner raised on the two-group frame of one of
    those treatments. *)
Theorem fit_on_resolved_treatments {Log : Type}
  df (learner : LearnerFnType Log) tc cn (h : heap) v c :
  h !! df = Some v -> od_get (df_cols v) tc = Some c ->
  col_len c = nrows v -> col_has_label c cn ->
  let treatments := non_control cn c in
  snd (_get_unique_treatments df tc cn h) = Ok treatments /\
  ((exists fitted logs,
      snd (_fit_by_treatment df learner tc cn treatments h)
        = Ok (fitted, logs) /\
      od_keys fitted = treatments /\ od_keys logs = treatments) \/
   (exists t e, In t treatments /\
      learner (fit_input v tc t cn) = Raise e /\
      snd (_fit_by_treatment df learner tc cn treatments h) = Raise e)) /\
  ((forall t, In t treatments ->
      exists r, learner (fit_input v tc t cn) = Ok r) ->
   exists fitted logs,
     snd (_fit_by_treatment df learner tc cn treatments h)
       = Ok (fitted, logs) /\
     od_keys fitted = treatments /\ od_keys logs = treatments).
Proof.
  intros Hdf Hc Hlen Hcn treatments.
  assert (forall t, In t treatments -> col_has_label c t) as Hlab
    by (intros t Ht; by apply non_control_In in Ht as [? _]).
  assert (unique treatments = treatments) as Hu
    by apply unique_NoDup_id, non_control_NoDup.
  assert (forall fl,
            snd (_fit_by_treatment df learner tc cn treatments h) = Ok fl ->
            od_keys (fst fl) = treatments /\ od_keys (snd fl) = treatments)
    as Hkeys.
  { intros fl Hfl.
    assert (forall t, In t treatments ->
              exists r, learner (fit_input v tc t cn) = Ok r) as Hok.
    { intros t Ht. destruct (learner (fit_input v tc t cn)) as [r|e] eqn:Er;
        [by eexists|].
      exfalso. apply in_split in Ht as (pre & post & Hsplit).
      assert (exists pre' t' post' e', treatments = pre' ++ t' :: post' /\
                (forall x, In x pre' ->
                   exists r, learner (fit_input v tc x cn) = Ok r) /\
                learner (fit_input v tc t' cn) = Raise e')
        as (pre' & t' & post' & e' & Hs & Hp & Hr).
      { clear Hfl Hu Hlab. revert Hsplit. generalize treatments.
        induction pre as [|x pre IHp]; intros ts ->.
        - exists [], t, post, e. split; [done|]. split; [by intros ? []|done].
        - destruct (learner (fit_input v tc x cn)) as [rx|ex] eqn:Ex.
          + destruct (IHp _ eq_refl) as (pre' & t' & post' & e' & Hs & Hp & Hr).
            exists (x :: pre'), t', post', e'. simpl. rewrite Hs.
            split; [done|]. split; [|done].
            intros y [<-|Hy]; [by eexists | by apply Hp].
          + exists [], x, (pre ++ t :: post), ex.
            split; [done|]. split; [by intros ? []|done]. }
      unfold _fit_by_treatment in Hfl. rewrite Hs in Hfl.
      rewrite (fit_loop_raise df tc cn v c Hc Hlen Hcn learner pre' t' post'
                 e' [] [] h Hdf) in Hfl; [discriminate| |done|done].
      intros x Hx. apply Hlab. rewrite Hs. apply in_app_iff in Hx.
      apply in_app_iff. simpl in *. tauto. }
    destruct (fit_loop_ok df tc cn v c Hc Hlen Hcn learner treatments [] [] h
                Hdf Hlab Hok)
      as (h' & F' & L' & E & _ & HkF & HkL & _).
    unfold _fit_by_treatment in Hfl. rewrite E in Hfl. simpl in Hfl.
    injection Hfl as <-. simpl in *. fold (unique treatments) in HkF, HkL.
    by rewrite HkF, HkL, Hu. }
  split; [|split].
  - rewrite (get_unique_treatments_run df tc cn h v c Hdf Hc).
    apply str_in_unique_true in Hcn. by rewrite Hcn.
  - destruct (fit_loop_outcome df tc cn v c learner treatments Hc Hlen Hcn
                [] [] h Hdf Hlab) as [[[F' L'] Hfl]|Hraise].
    + left. exists F', L'. split; [exact Hfl|].
      exact (Hkeys (F', L') Hfl).
    + by right.
  - intros Hok.
    destruct (fit_loop_ok df tc cn v c Hc Hlen Hcn learner treatments [] [] h
                Hdf Hlab Hok)
      as (h' & F' & L' & E & _ & _).
    exists F', L'. unfold _fit_by_treatment. rewrite E. split; [done|].
    apply (Hkeys (F', L')). unfold _fit_by_treatment. by rewrite E.
Qed.

Lemma fit_on_resolved_treatments_witness :
  exists fitted logs,
    snd (_fit_by_treatment 1%positive counting_learner "treatment" "control"
           ["A"; "B"] (store1 df_nine_rows)) = Ok (fitted, logs) /\
    od_keys fitted = ["A"; "B"] /\ od_keys logs = ["A"; "B"].
Proof.
  refine (proj2 (proj2 (fit_on_resolved_treatments 1%positive
                          counting_learner "treatment" "control"
                          (store1 df_nine_rows) df_nine_rows _
                          eq_refl eq_refl eq_refl _)) _).
  - simpl. auto 10.
  - intros t _. eexists. reflexivity.
Defined.

(** ** More on the counterfactual scorer *)

(** X7. With a predictor that leaves the frame it is handed as it got it
    and returns a frame, the scorer hands the predictor the caller's
    frame with [is_treatment] set to all ones or all zeros, one per row,
    whatever that column held before; it returns the values of the
    prediction column of what the predictor returned, or raises
    [KeyError] when that column is not there; and in both cases the
    frame is left with its index and every other column as before and
    without [is_treatment], even when it had that column before the
    call. *)
Theorem predict_by_treatment_flag_result df f b pc (h : heap) v out :
  h !! df = Some v ->
  f (with_flag v b) = (with_flag v b, Ok out) ->
  let run := _predict_by_treatment_flag df f b pc h in
  od_get (df_cols (with_flag v b)) TREATMENT_FEATURE
    = Some (NumCol (repeat (if b then 1%float else 0%float) (nrows v))) /\
  (forall name, name <> TREATMENT_FEATURE ->
     od_get (df_cols (with_flag v b)) name = od_get (df_cols v) name) /\
  (forall c, od_get (df_cols out) pc = Some c -> snd run = Ok c) /\
  (od_get (df_cols out) pc = None -> snd run = Raise (KeyError pc)) /\
  fst run !! df = Some (without_flag v) /\
  df_index (without_flag v) = df_index v /\
  od_get (df_cols (without_flag v)) TREATMENT_FEATURE = None /\
  (forall name, name <> TREATMENT_FEATURE ->
     od_get (df_cols (without_flag v)) name = od_get (df_cols v) name).
Proof.
  intros Hdf Hf run.
  assert (run = (<[df := without_flag v]>
                   (<[fresh_loc (<[df := with_flag v b]> h) := out]>
                      (<[df := with_flag v b]> h)),
                 df_getitem out pc)) as Hrun.
  { unfold run.
    rewrite (predict_by_treatment_flag_run df f b pc h v Hdf). cbv zeta.
    rewrite Hf. cbn [fst snd].
    assert (df_drop (with_flag v b) TREATMENT_FEATURE = Ok (without_flag v))
      as ->; [|done].
    unfold df_drop, od_mem. cbn [df_cols with_flag]. rewrite od_get_set_eq.
    by rewrite <- (without_with_flag v b). }
  split; [apply od_get_set_eq|].
  split; [intros name Hn; cbn [df_cols with_flag]; by apply od_get_set_ne|].
  split; [intros c Hc'; rewrite Hrun; cbn [snd]; by apply df_getitem_Some|].
  split.
  { intros Hnone. rewrite Hrun. cbn [snd]. unfold df_getitem. by rewrite Hnone. }
  split; [rewrite Hrun; apply lookup_insert_eq|].
  split; [done|].
  split; [apply od_get_del_eq|].
  intros name Hn. cbn [df_cols without_flag]. by apply od_get_del_ne.
Qed.

Lemma predict_by_treatment_flag_result_witness :
  snd (_predict_by_treatment_flag 1%positive ones_or_zeros_model true
         "prediction" (store1 df_two_groups))
  = Ok (NumCol [1; 1; 1; 1]%float).
Proof.
  refine (proj1 (proj2 (proj2 (predict_by_treatment_flag_result 1%positive
            ones_or_zeros_model true "prediction" (store1 df_two_groups)
            df_two_groups _ eq_refl eq_refl))) _ _).
  reflexivity.
Defined.

(** X8. A predictor that removes [is_treatment] from the frame it is
    handed makes the scorer raise [KeyError] for that column after the
    prediction was made: the scorer's own drop finds nothing to drop.
    The prediction is lost and the frame stays as the predictor left
    it. *)
Theorem predict_by_treatment_flag_double_drop df f b pc (h : heap) v out :
  h !! df = Some v ->
  snd (f (with_flag v b)) = Ok out ->
  ~ In TREATMENT_FEATURE (df_names (fst (f (with_flag v b)))) ->
  snd (_predict_by_treatment_flag df f b pc h)
    = Raise (KeyError TREATMENT_FEATURE) /\
  fst (_predict_by_treatment_flag df f b pc h) !! df
    = Some (fst (f (with_flag v b))).
Proof.
  intros Hdf Hsnd Hno.
  rewrite (predict_by_treatment_flag_run df f b pc h v Hdf). cbv zeta.
  rewrite Hsnd.
  assert (df_drop (fst (f (with_flag v b))) TREATMENT_FEATURE
          = Raise (KeyError TREATMENT_FEATURE)) as ->.
  { unfold df_drop. apply od_mem_false in Hno. unfold df_names in Hno.
    by rewrite Hno. }
  cbn [fst snd]. split; [done|].
  rewrite lookup_insert_ne; [apply lookup_insert_eq|].
  intros E.
  pose proof (fresh_loc_None (<[df := fst (f (with_flag v b))]> h)) as Hf.
  rewrite E, lookup_insert_eq in Hf. discriminate.
Qed.

Lemma predict_by_treatment_flag_double_drop_witness :
  snd (_predict_by_treatment_flag 1%positive flag_dropping_predictor true
         "prediction" (store1 df_two_groups))
  = Raise (KeyError TREATMENT_FEATURE).
Proof.
  refine (proj1 (predict_by_treatment_flag_double_drop 1%positive
            flag_dropping_predictor true "prediction" (store1 df_two_groups)
            df_two_groups _ eq_refl eq_refl _)).
  simpl. intros H. repeat destruct H as [H|H]; try discriminate H. exact H.
Defined.

(** ** Failures inside the simulator's loop *)

Lemma bind_raise_snd {A B} (m : M A) (k : A -> M B) (h : heap) e :
  snd (m h) = Raise e -> snd (bind m k h) = Raise e.
Proof. unfold bind. destruct (m h) as [h' [a|e']]; simpl; congruence. Qed.

Lemma simulate_loop_prefix l learners pc all v0 pre rest :
  fitted_for all pc v0 learners ->
  forall done (h : heap) v,
  (forall L, In L pre -> In L all) ->
  h !! l = Some v -> agrees all pc v0 v ->
  exists h' v',
    simulate_loop l learners pc (pre ++ rest) (map col_uplift done) h
    = simulate_loop l learners pc rest (map col_uplift (done ++ pre)) h' /\
    h' !! l = Some v' /\ agrees all pc v0 v'.
Proof.
  intros Hfit. induction pre as [|L pre IH]; intros done h v Hall Hl Hag.
  - exists h, v. by rewrite app_nil_r.
  - simpl app.
    destruct (simulate_round l learners pc all v0 Hfit L (pre ++ rest)
                (map col_uplift done) h v)
      as (h5 & qs1 & qs2 & E & Hl5 & _ & _);
      [apply Hall; by left | done | done |].
    destruct (IH (done ++ [L]) h5 _ (fun L' H' => Hall L' (or_intror H')) Hl5)
      as (h' & v' & E' & Hl' & Hag').
    { apply agrees_round; [apply Hall; by left | done]. }
    exists h', v'. rewrite E. rewrite map_app in E'. simpl in E'.
    rewrite E'. rewrite <- app_assoc. by simpl.
Qed.

(** X9. What stops the simulator in the middle of its loop.  After the
    treatments before it were scored: a treatment with no predictor in
    the dictionary raises [KeyError] for that treatment; a predictor
    that raises makes the simulator raise the same exception; and a
    predictor whose prediction column does not have one value per row
    makes the assignment of the column raise [ValueError]. *)
Theorem simulator_failures df pre t post cn learners pc (h : heap) v0 :
  h !! df = Some v0 -> fitted_for pre pc v0 learners ->
  let run :=
    _simulate_treatment_effect df (pre ++ t :: post) cn learners pc h in
  (od_get learners t = None -> snd run = Raise (KeyError t)) /\
  (forall f e, od_get learners t = Some f ->
     (forall w, snd (f w) = Raise e) -> snd run = Raise e) /\
  (forall f, od_get learners t = Some f ->
     (forall w, fst (f w) = w /\
        exists out c, snd (f w) = Ok out /\
          od_get (df_cols out) pc = Some c /\ col_len c <> nrows w) ->
     snd run = Raise ValueError).
Proof.
  intros Hdf Hfit run.
  set (l := fresh_loc h). set (h0 := <[l := v0]> h).
  destruct (simulate_loop_prefix l learners pc pre v0 pre (t :: post) Hfit []
              h0 v0 (fun L H => H) (lookup_insert_eq _ _ _)
              (agrees_refl _ _ _))
    as (h1 & v1 & E & Hl1 & Hag).
  simpl in E.
  assert (forall e,
            snd (simulate_loop l learners pc (t :: post)
                   (map col_uplift pre) h1) = Raise e ->
            snd run = Raise e) as Hrun.
  { intros e He. unfold run, _simulate_treatment_effect.
    rewrite (bind_ok _ _ h h0 l) by (by apply copy_run).
    apply bind_raise_snd. by rewrite E. }
  split; [|split].
  - intros Hnone. apply Hrun. simpl simulate_loop. by rewrite Hnone.
  - intros f e Hf Hraise. apply Hrun. simpl simulate_loop. rewrite Hf.
    rewrite (bind_ok _ _ h1 h1 f) by done.
    apply bind_raise_snd.
    rewrite (predict_by_treatment_flag_run l f true pc h1 v1 Hl1). cbv zeta.
    by rewrite Hraise.
  - intros f Hf Hbad. apply Hrun. simpl simulate_loop. rewrite Hf.
    rewrite (bind_ok _ _ h1 h1 f) by done.
    destruct (Hbad (with_flag v1 true)) as (Hfst & out & c & Hsnd & Hc & Hlen).
    destruct (scorer_step l f true pc h1 v1 out c Hl1 Hfst Hsnd Hc)
      as (h2 & Hrun2 & Hl2).
    rewrite (bind_ok _ _ h1 h2 c Hrun2).
    apply bind_raise_snd.
    rewrite (setitem_run h2 l _ _ _ Hl2). unfold df_setitem.
    assert (Nat.eqb (col_len c) (nrows (without_flag v1)) = false) as ->;
      [|done].
    apply Nat.eqb_neq. intros E'. apply Hlen. rewrite E'.
    unfold nrows. simpl. done.
Qed.

Lemma simulator_failures_witness :
  snd (_simulate_treatment_effect 1%positive ["A"; "C"] "control"
         learners_A_B "prediction" (store1 df_four_rows))
  = Raise (KeyError "C") /\
  snd (_simulate_treatment_effect 1%positive ["A"] "control"
         [("A", long_predictor)] "prediction" (store1 df_four_rows))
  = Raise ValueError.
Proof.
  split.
  - refine (proj1 (simulator_failures 1%positive ["A"] "C" [] "control"
              learners_A_B "prediction" (store1 df_four_rows) df_four_rows
              eq_refl _) eq_refl).
    intros L [<-|[]]. eexists. split; [reflexivity|].
    apply table_predictor_scores;
      [unfold nrows; simpl; lia | reflexivity | reflexivity
       | finite_table | finite_table].
  - refine (proj2 (proj2 (simulator_failures 1%positive [] "A" [] "control"
              [("A", long_predictor)] "prediction" (store1 df_four_rows)
              df_four_rows eq_refl _)) long_predictor eq_refl _).
    + intros L [].
    + intros w. split; [reflexivity|].
      eexists. eexists. split; [reflexivity|]. split.
      * apply od_get_set_eq.
      * simpl. rewrite repeat_length. lia.
Defined.

(** ** The flag column and the scored frame *)

Lemma names_step_no_flag pc ns L :
  ~ In TREATMENT_FEATURE (names_step pc ns L).
Proof.
  unfold names_step. intros H.
  apply In_add_name in H as [H|H]; [|discriminate H].
  apply In_add_name in H as [H|H]; [|discriminate H].
  apply In_rm_name in H as [_ H]. done.
Qed.

Lemma names_loop_no_flag pc treatments : forall ns,
  ~ In TREATMENT_FEATURE ns ->
  ~ In TREATMENT_FEATURE (fold_left (names_step pc) treatments ns).
Proof.
  induction treatments as [|L rest IH]; intros ns Hns; simpl; [done|].
  apply IH, names_step_no_flag.
Qed.

(** X10. The frame the simulator returns never has an [is_treatment]
    column: a column of that name in the caller's frame is not in the
    scored frame, while the caller's own frame keeps it. *)
Theorem simulator_output_has_no_flag
  df treatments cn learners pc (h : heap) v0 :
  h !! df = Some v0 -> fitted_for treatments pc v0 learners ->
  treatments <> [] ->
  exists h' l' out,
    _simulate_treatment_effect df treatments cn learners pc h = (h', Ok l') /\
    h' !! l' = Some out /\
    ~ In TREATMENT_FEATURE (df_names out) /\
    od_get (df_cols out) TREATMENT_FEATURE = None /\
    h' !! df = Some v0.
Proof.
  intros Hdf Hfit Hne.
  destruct (simulate_ok df treatments cn learners pc h v0 Hdf Hfit Hne)
    as (h' & vL & E & Hl & _ & _ & Hnames).
  assert (~ In TREATMENT_FEATURE
            (df_names (with_summary vL cn (map col_uplift treatments))))
    as Hno.
  { rewrite with_summary_names. intros H.
    apply In_add_name in H as [H|H]; [|discriminate H].
    apply In_add_name in H as [H|H]; [|discriminate H].
    rewrite Hnames in H. destruct treatments as [|L rest]; [done|].
    simpl in H. revert H. apply names_loop_no_flag, names_step_no_flag. }
  exists h', (fresh_loc h), (with_summary vL cn (map col_uplift treatments)).
  split; [exact E|]. split; [exact Hl|]. split; [exact Hno|].
  split; [by apply od_get_None_keys|].
  assert (preserved h
            (fst (_simulate_treatment_effect df treatments cn learners pc h)))
    as Hp.
  { apply copy_then_confined. intros l. apply confined_simulate_body. }
  rewrite E in Hp. by apply Hp.
Qed.

Lemma simulator_output_has_no_flag_witness :
  In TREATMENT_FEATURE (df_names df_four_rows_flagged) /\
  exists h' l' out,
    _simulate_treatment_effect 1%positive ["A"; "B"] "control" learners_A_B
      "prediction" (store1 df_four_rows_flagged) = (h', Ok l') /\
    h' !! l' = Some out /\
    ~ In TREATMENT_FEATURE (df_names out) /\
    od_get (df_cols out) TREATMENT_FEATURE = None /\
    h' !! 1%positive = Some df_four_rows_flagged.
Proof.
  split; [simpl; auto|].
  apply (simulator_output_has_no_flag 1%positive ["A"; "B"] "control"
           learners_A_B "prediction" (store1 df_four_rows_flagged)
           df_four_rows_flagged eq_refl).
  - intros L [<-|[<-|[]]]; eexists; (split; [reflexivity|]);
      (apply table_predictor_scores;
         [unfold nrows; simpl; lia | reflexivity | reflexivity
       | finite_table | finite_table]).
  - discriminate.
Defined.

(** ** Labels that contain the suffix *)

Lemma replace_go_length s : forall k,
  (String.length (replace_go "__uplift" "" k s) + Nat.min k (String.length s)
   <= String.length s)%nat.
Proof.
  induction s as [|a s IH]; intros k; [simpl; lia|].
  destruct k as [|k].
  - rewrite replace_go_cons.
    destruct (String.prefix "__uplift" (String a s)).
    + change ("" +:+ ?x) with x. specialize (IH 7%nat).
      change (String.length "__uplift" - 1)%nat with 7%nat.
      cbn [String.length]. lia.
    + specialize (IH 0%nat). cbn [String.length]. lia.
  - specialize (IH k). cbn [replace_go String.length]. lia.
Qed.

Lemma prefix_length a : forall b,
  String.prefix a b = true -> (String.length a <= String.length b)%nat.
Proof.
  induction a as [|x a IH]; intros [|y b] H; simpl in *; try lia; try done.
  destruct (Ascii.ascii_dec x y); [|done]. apply IH in H. lia.
Qed.

Lemma strip_uplift_shrinks s :
  has_sub "__uplift" s = true ->
  (String.length (strip_uplift s) + 8 <= String.length s)%nat.
Proof.
  unfold strip_uplift, str_replace.
  induction s as [|a s IH]; intros H; [discriminate H|].
  cbn [has_sub] in H. rewrite replace_go_cons.
  change (String.length "__uplift" - 1)%nat with 7%nat.
  destruct (String.prefix "__uplift" (String a s)) eqn:Hp.
  - apply prefix_length in Hp. cbn [String.length] in *.
    change ("" +:+ ?x) with x.
    pose proof (replace_go_length s 7). lia.
  - simpl in H. apply IH in H. cbn [String.length]. lia.
Qed.

(** X11. For any labels, clean or not, the suggestion at a row is what
    [str.replace("__uplift", "")] makes of the control label when the
    row's [uplift] is at most 0, and of the name of the uplift column of
    the first maximal treatment otherwise: the treatment whose uplift at
    that row is the row's [uplift], which no treatment exceeds and which
    every treatment before it in the list falls short of.  The
    replacement is applied to
    the control label too: a control label that contains [__uplift] is
    written without those occurrences, so the suggestion on such rows is
    not the control label. *)
Theorem suggestion_is_replaced_name
  df treatments cn learners pc (h : heap) v0 :
  h !! df = Some v0 -> fitted_for treatments pc v0 learners ->
  treatments <> [] ->
  exists h' l' out U S,
    _simulate_treatment_effect df treatments cn learners pc h = (h', Ok l') /\
    h' !! l' = Some out /\
    od_get (df_cols out) "uplift" = Some (NumCol U) /\
    od_get (df_cols out) "suggested_treatment" = Some (StrCol S) /\
    (forall i u s, U !! i = Some u -> S !! i = Some s ->
       (PrimFloat.leb u 0 = true \/ PrimFloat.ltb 0 u = true) /\
       (PrimFloat.leb u 0 = true -> s = strip_uplift cn) /\
       (PrimFloat.ltb 0 u = true ->
          exists k L ups,
            treatments !! k = Some L /\
            od_get (df_cols out) (col_uplift L) = Some (NumCol ups) /\
            ups !! i = Some u /\
            s = strip_uplift (col_uplift L) /\
            (forall L', In L' treatments ->
               exists ups' x,
                 od_get (df_cols out) (col_uplift L') = Some (NumCol ups') /\
                 ups' !! i = Some x /\ PrimFloat.leb x u = true) /\
            (forall j L', (j < k)%nat -> treatments !! j = Some L' ->
               exists ups' x,
                 od_get (df_cols out) (col_uplift L') = Some (NumCol ups') /\
                 ups' !! i = Some x /\ PrimFloat.ltb x u = true))) /\
    (has_sub "__uplift" cn = true ->
     strip_uplift cn <> cn /\
     forall i u s, U !! i = Some u -> S !! i = Some s ->
       PrimFloat.leb u 0 = true -> s <> cn).
Proof.
  intros Hdf Hfit Hne.
  destruct (simulate_ok df treatments cn learners pc h v0 Hdf Hfit Hne)
    as (h' & vL & E & Hl & Hag & Hsc & _).
  set (cols := map col_uplift treatments) in *.
  set (out := with_summary vL cn cols).
  exists h', (fresh_loc h), out,
    (uplift_values vL cols), (suggested_values vL cn cols).
  split; [exact E|]. split; [exact Hl|].
  split; [apply with_summary_get_uplift|].
  split; [apply with_summary_get_suggested|].
  assert (forall i u s,
            uplift_values vL cols !! i = Some u ->
            suggested_values vL cn cols !! i = Some s ->
            (PrimFloat.leb u 0 = true \/ PrimFloat.ltb 0 u = true) /\
            (PrimFloat.leb u 0 = true -> s = strip_uplift cn) /\
            (PrimFloat.ltb 0 u = true ->
               exists k L ups,
                 treatments !! k = Some L /\
                 od_get (df_cols out) (col_uplift L) = Some (NumCol ups) /\
                 ups !! i = Some u /\
                 s = strip_uplift (col_uplift L) /\
                 (forall L', In L' treatments ->
                    exists ups' x,
                      od_get (df_cols out) (col_uplift L')
                        = Some (NumCol ups') /\
                      ups' !! i = Some x /\ PrimFloat.leb x u = true) /\
                 (forall j L', (j < k)%nat -> treatments !! j = Some L' ->
                    exists ups' x,
                      od_get (df_cols out) (col_uplift L')
                        = Some (NumCol ups') /\
                      ups' !! i = Some x /\ PrimFloat.ltb x u = true)))
    as Hrows.
  { intros i u s HU HS.
    destruct (uplift_row vL treatments i u (scored_num_block pc vL _ Hsc)
                HU Hne)
      as (Hi & Hnu & k & L & Hk & Hu & Hidx & Hbefore & Hall).
    destruct (suggested_row vL cn cols i s HS) as (u' & HU' & Hs).
    rewrite HU in HU'. injection HU' as <-. fold cols in Hidx.
    rewrite Hidx in Hs. cbn [default] in Hs.
    split; [by apply leb_or_ltb|]. split.
    - intros Hle. by rewrite Hle in Hs.
    - intros Hlt.
      assert (PrimFloat.leb u 0 = false) as Hf by (by apply ltb_not_leb).
      rewrite Hf in Hs.
      destruct (scored_uplift_at pc vL cn cols L i
                  (Hsc L (lookup_In _ _ _ Hk)) Hi) as (ups & Hups & Hx).
      exists k, L, ups. split; [done|]. split; [done|].
      split; [by rewrite Hu|]. split; [done|]. split.
      + intros L' HL'.
        destruct (scored_uplift_at pc vL cn cols L' i (Hsc L' HL') Hi)
          as (ups' & Hups' & Hx').
        exists ups', (nth i (num_values vL (col_uplift L')) 0%float).
        split; [done|]. split; [done|]. by apply Hall.
      + intros j L' Hj HL'.
        destruct (scored_uplift_at pc vL cn cols L' i
                    (Hsc L' (lookup_In _ _ _ HL')) Hi)
          as (ups' & Hups' & Hx').
        exists ups', (nth i (num_values vL (col_uplift L')) 0%float).
        split; [done|]. split; [done|]. by apply (Hbefore j). }
  split; [exact Hrows|].
  intros Hsub.
  assert (strip_uplift cn <> cn) as Hneq.
  { intros Heq. apply strip_uplift_shrinks in Hsub. rewrite Heq in Hsub. lia. }
  split; [exact Hneq|].
  intros i u s HU HS Hle. destruct (Hrows i u s HU HS) as (_ & Hc & _).
  rewrite (Hc Hle). exact Hneq.
Qed.

Lemma suggestion_is_replaced_name_witness :
  exists h' l' out S,
    _simulate_treatment_effect 1%positive ["A"; "B"] "no__uplift"
      learners_A_B "prediction" (store1 df_four_rows) = (h', Ok l') /\
    h' !! l' = Some out /\
    od_get (df_cols out) "suggested_treatment" = Some (StrCol S) /\
    strip_uplift "no__uplift" <> "no__uplift".
Proof.
  destruct (suggestion_is_replaced_name 1%positive ["A"; "B"] "no__uplift"
              learners_A_B "prediction" (store1 df_four_rows) df_four_rows
              eq_refl learners_A_B_fitted)
    as (h' & l' & out & U & S & E & Hl & _ & HS & _ & Hbad).
  - discriminate.
  - exists h', l', out, S. split; [exact E|]. split; [exact Hl|].
    split; [exact HS|]. apply Hbad. reflexivity.
Defined.

(** ** Column names *)

Lemma NoDup_app_intro {A} (a b : list A) :
  List.NoDup a -> List.NoDup b -> (forall x, In x a -> ~ In x b) ->
  List.NoDup (a ++ b).
Proof.
  induction a as [|x a IH]; intros Ha Hb Hd; simpl; [done|].
  inversion Ha as [|? ? Hx Ha']; subst. constructor.
  - intros H. apply in_app_iff in H as [H|H]; [done|].
    apply (Hd x); [by left | done].
  - apply IH; [done | done |]. intros y Hy. apply Hd. by right.
Qed.

(** X12. The column names the simulator writes never collide: for
    distinct treatments the three names of each treatment, taken over the
    whole list, are pairwise different, and none of them is
    [is_treatment], [uplift] or [suggested_treatment], whatever the
    labels and the prediction column are. *)
Theorem generated_names_distinct pc treatments :
  List.NoDup treatments ->
  List.NoDup
    (flat_map (three_names pc) treatments
       ++ [TREATMENT_FEATURE; "uplift"; "suggested_treatment"]).
Proof.
  intros Hnd. apply NoDup_app_intro.
  - induction treatments as [|L rest IH]; [constructor|].
    inversion Hnd as [|? ? HL Hnd']; subst.
    change (flat_map (three_names pc) (L :: rest))
      with (three_names pc L ++ flat_map (three_names pc) rest).
    apply NoDup_app_intro; [|by apply IH|].
    + repeat constructor; simpl.
      * intros [H|[H|[]]]; symmetry in H.
        -- by apply col_on_treatment_not_on_control in H.
        -- by apply col_on_treatment_not_uplift in H.
      * intros [H|[]]. symmetry in H.
        by apply col_on_control_not_uplift in H.
      * by intros [].
    + intros n Hn Hin. apply in_flat_map in Hin as (L' & HL' & Hin).
      revert Hn. apply (three_names_disjoint pc L L'); [|done].
      intros ->. done.
  - repeat constructor; simpl; intros H;
      repeat destruct H as [H|H]; try discriminate H; exact H.
  - intros n Hn Hin. apply in_flat_map in Hn as (L & _ & Hn).
    destruct (generated_not_fixed L pc n) as (H1 & H2 & H3).
    + simpl in Hn. destruct Hn as [<-|[<-|[<-|[]]]]; auto.
    + simpl in Hin. destruct Hin as [<-|[<-|[<-|[]]]]; done.
Qed.

Lemma generated_names_distinct_witness :
  List.NoDup
    (flat_map (three_names "prediction") ["A"; "B"]
       ++ [TREATMENT_FEATURE; "uplift"; "suggested_treatment"]).
Proof.
  apply (generated_names_distinct "prediction" ["A"; "B"]).
  repeat constructor; simpl; intros H;
    repeat destruct H as [H|H]; try discriminate H; exact H.
Defined.

(** ** The entry point *)

Section OrchestratorFacts.
Context {Log : Type}.
Context (build_pipeline : list (LearnerFnType Log) -> LearnerFnType Log).
Context (df : loc) (tc cn pc : string) (learner : Learner Log).
Context (transformers : option (list (LearnerFnType Log))).

Lemma orchestrator_features_run (h : heap) fs :
  od_get (learner_signature learner) "features" = Some (Some fs) ->
  causal_s_classification_learner build_pipeline df tc cn pc learner
    transformers h
  = bind (_get_unique_treatments df tc cn)
      (fun unique_treatments =>
         let fwt := _append_treatment_feature fs TREATMENT_FEATURE in
         let learner_pipe :=
           match transformers with
           | Some ts =>
               build_pipeline ([learner_with_features learner fwt] ++ ts)
           | None => learner_with_features learner fwt
           end in
         fl <- _fit_by_treatment df learner_pipe tc cn unique_treatments ;;
         scored <- causal_s_classification_learner_p unique_treatments
                     (fst fl) cn pc df ;;
         ret (causal_s_classification_learner_p unique_treatments (fst fl)
                cn pc,
              scored,
              [("causal_s_classification_learner",
                od_set (map (fun kl => (fst kl, LearnerLog (snd kl))) (snd fl))
                  "causal_features" (CausalFeatures fwt))])) h.
Proof using Type.
  intros Hsig. unfold causal_s_classification_learner, _get_learner_features.
  rewrite Hsig. by rewrite (bind_ok _ _ h h (Some fs)).
Qed.

(** X13. The entry point fails in this order.  A learner with no
    [features] parameter raises [KeyError] for [features], and one whose
    [features] has no default raises [TypeError], both before the data
    is looked at; then a treatment column without the control label
    raises [MissingControlError] before the learner is built or fitted.
    In all three cases the store is left as it was. *)
Theorem orchestrator_failure_order (h : heap) :
  let run :=
    causal_s_classification_learner build_pipeline df tc cn pc learner
      transformers h in
  (od_get (learner_signature learner) "features" = None ->
   run = (h, Raise (KeyError "features"))) /\
  (od_get (learner_signature learner) "features" = Some None ->
   run = (h, Raise TypeError)) /\
  (forall fs v c,
     od_get (learner_signature learner) "features" = Some (Some fs) ->
     h !! df = Some v -> od_get (df_cols v) tc = Some c ->
     ~ col_has_label c cn ->
     run = (h, Raise MissingControlError)).
Proof using Type.
  intros run. split; [|split].
  - intros Hsig. unfold run, causal_s_classification_learner,
      _get_learner_features. by rewrite Hsig.
  - intros Hsig. unfold run, causal_s_classification_learner,
      _get_learner_features. rewrite Hsig.
    by rewrite (bind_ok _ _ h h None).
  - intros fs v c Hsig Hdf Hc Hno. unfold run.
    rewrite (orchestrator_features_run h fs Hsig).
    rewrite (bind_raise _ _ h h MissingControlError); [done|].
    rewrite (get_unique_treatments_run df tc cn h v c Hdf Hc).
    apply str_in_unique_false in Hno. by rewrite Hno.
Qed.
End OrchestratorFacts.

Lemma orchestrator_failure_order_witness :
  causal_s_classification_learner first_stage 1%positive "treatment"
    "control" "prediction" learner_x1_x2 None (store1 df_only_treatment_A)
  = (store1 df_only_treatment_A, Raise MissingControlError).
Proof.
  refine (proj2 (proj2 (orchestrator_failure_order first_stage 1%positive
            "treatment" "control" "prediction" learner_x1_x2 None
            (store1 df_only_treatment_A))) ["x1"; "x2"] df_only_treatment_A
            _ eq_refl eq_refl eq_refl _).
  simpl. intros H. repeat destruct H as [H|H]; try discriminate H. exact H.
Defined.




Lemma confined_simulate_treatment_effect P df treatments cn learners pc :
  confined P (_simulate_treatment_effect df treatments cn learners pc).
Proof.
  apply confined_copy_then. intros l.
  apply confined_bind; [apply confined_simulate_loop; by right | intros cols].
  apply confined_bind; [apply confined_aggregate; by right | intros _].
  apply confined_ret.
Qed.

(** X15. The entry point never writes to a frame that existed before the
    call: whether it returns or raises, at whatever step, the training
    frame and every other object of the store have afterwards the value
    they had before. *)
Theorem orchestrator_preserves_store {Log : Type}
  (build_pipeline : list (LearnerFnType Log) -> LearnerFnType Log)
  df tc cn pc (learner : Learner Log) transformers (h : heap) :
  preserved h
    (fst (causal_s_classification_learner build_pipeline df tc cn pc learner
            transformers h)).
Proof.
  assert (confined (fun _ => False)
            (causal_s_classification_learner build_pipeline df tc cn pc
               learner transformers)) as Hconf;
    [|apply Hconf; [apply preserved_refl | by intros l []]].
  unfold causal_s_classification_learner.
  apply confined_bind; [apply confined_lift | intros features].
  apply confined_bind; [apply confined_lift | intros fwt].
  apply confined_bind; [apply confined_get_unique_treatments | intros ts].
  cbv zeta.
  apply confined_bind; [apply confined_fit_loop | intros fl].
  apply confined_bind; [apply confined_simulate_treatment_effect | intros s].
  apply confined_ret.
Qed.

(** ** The scored columns are the predictors' answers *)

Section SimulateValues.
Context (l : loc) (learners : odict PredictFnType) (pc : string).
Context (all : list string) (v0 : DataFrame).
Context (pt pn : string -> list float).
Hypothesis Hans : answers_for all pc v0 learners pt pn.

Lemma answers_fitted : fitted_for all pc v0 learners.
Proof using Hans.
  intros L HL. destruct (Hans L HL) as (Hlt & Hln & Hft & Hfn & f & Hf & Ha).
  exists f. split; [done|]. intros v b Hag.
  destruct (Ha v b Hag) as (Hfst & out & Hsnd & Hpc). split; [done|].
  exists out, (if b then pt L else pn L). split; [done|]. split; [done|].
  assert (nrows v = nrows v0) as -> by (unfold nrows; by destruct Hag as [-> _]).
  by destruct b.
Qed.

Lemma simulate_round_values L rest acc (h : heap) v :
  In L all -> h !! l = Some v -> agrees all pc v0 v ->
  exists h5,
    simulate_loop l learners pc (L :: rest) acc h
    = simulate_loop l learners pc rest (acc ++ [col_uplift L]) h5 /\
    h5 !! l =
      Some (mkDF (df_index v)
              (od_set
                 (od_set
                    (od_del
                       (od_set (od_del (df_cols v) TREATMENT_FEATURE)
                          (col_on_treatment L pc) (NumCol (pt L)))
                       TREATMENT_FEATURE)
                    (col_on_control L pc) (NumCol (pn L)))
                 (col_uplift L)
                 (NumCol (map fsub
                            (combine (pt L) (pn L)))))).
Proof using Hans.
  intros HL Hl Hag.
  destruct (Hans L HL) as (Hlt & Hln & _ & _ & f & Hf & Ha).
  assert (nrows v = nrows v0) as Hn by (unfold nrows; by destruct Hag as [-> _]).
  destruct (Ha v true Hag) as (Hfst1 & out1 & Hsnd1 & Hpc1).
  destruct (scorer_step l f true pc h v out1 _ Hl Hfst1 Hsnd1 Hpc1)
    as (h1 & Hrun1 & Hl1).
  set (on_t := col_on_treatment L pc) in *.
  set (on_c := col_on_control L pc) in *.
  set (v2 := mkDF (df_index v)
               (od_set (od_del (df_cols v) TREATMENT_FEATURE) on_t
                  (NumCol (pt L)))).
  set (h2 := <[l := v2]> h1).
  assert (h2 !! l = Some v2) as Hl2 by apply lookup_insert_eq.
  assert (agrees all pc v0 v2) as Hag2 by (by apply agrees_half).
  destruct (Ha v2 false Hag2) as (Hfst2 & out2 & Hsnd2 & Hpc2).
  destruct (scorer_step l f false pc h2 v2 out2 _ Hl2 Hfst2 Hsnd2 Hpc2)
    as (h3 & Hrun2 & Hl3).
  set (v4 := mkDF (df_index v)
               (od_set (od_del (df_cols v2) TREATMENT_FEATURE) on_c
                  (NumCol (pn L)))).
  set (h4 := <[l := v4]> h3).
  assert (h4 !! l = Some v4) as Hl4 by apply lookup_insert_eq.
  set (d := NumCol (map fsub
                      (combine (pt L) (pn L)))).
  set (v5 := mkDF (df_index v) (od_set (df_cols v4) (col_uplift L) d)).
  exists (<[l := v5]> h4). split; [|apply lookup_insert_eq].
  assert (on_c <> on_t) as Hct.
  { intros E. symmetry in E. by apply col_on_treatment_not_on_control in E. }
  assert (TREATMENT_FEATURE <> on_t) as Hft by discriminate.
  simpl simulate_loop. rewrite Hf.
  rewrite (bind_ok _ _ h h f) by done.
  rewrite (bind_ok _ _ h h1 (NumCol (pt L))) by done.
  rewrite (bind_ok _ _ h1 h2 tt).
  2:{ rewrite (setitem_run h1 l _ _ _ Hl1), df_setitem_ok; [done|].
      simpl. by rewrite Hlt, <- Hn. }
  rewrite (bind_ok _ _ h2 h3 (NumCol (pn L))) by done.
  rewrite (bind_ok _ _ h3 h4 tt).
  2:{ rewrite (setitem_run h3 l _ _ _ Hl3), df_setitem_ok; [done|].
      simpl. by rewrite Hln, <- Hn. }
  rewrite (bind_ok _ _ h4 h4 (NumCol (pt L))).
  2:{ rewrite (getitem_run h4 l v4) by done. f_equal.
      apply df_getitem_Some. unfold v4, v2. simpl.
      rewrite od_get_set_ne by done. rewrite od_get_del_ne by done.
      apply od_get_set_eq. }
  rewrite (bind_ok _ _ h4 h4 (NumCol (pn L))).
  2:{ rewrite (getitem_run h4 l v4) by done. f_equal.
      apply df_getitem_Some, od_get_set_eq. }
  rewrite (bind_ok _ _ h4 h4 d) by done.
  rewrite (bind_ok _ _ h4 (<[l := v5]> h4) tt); [done|].
  rewrite (setitem_run h4 l _ _ _ Hl4), df_setitem_ok; [done|].
  unfold d. simpl. rewrite length_map, length_combine.
  unfold nrows in *. simpl in *. lia.
Qed.

Lemma holds_predictions_round v L L' x1 x2 x3 a b :
  (L' = L -> x1 = NumCol a /\ x2 = NumCol b /\
     x3 = NumCol (map fsub (combine a b))) ->
  (L' <> L -> holds_predictions pc v L' a b) ->
  holds_predictions pc
    (mkDF (df_index v)
       (od_set
          (od_set
             (od_del
                (od_set (od_del (df_cols v) TREATMENT_FEATURE)
                   (col_on_treatment L pc) x1)
                TREATMENT_FEATURE)
             (col_on_control L pc) x2)
          (col_uplift L) x3))
    L' a b.
Proof using Type.
  intros Hsame Hold.
  destruct (decide (L' = L)) as [->|Hne].
  - destruct (Hsame eq_refl) as (-> & -> & ->).
    unfold holds_predictions. simpl. repeat split.
    + rewrite od_get_set_ne
        by (intros E; symmetry in E; by apply col_on_treatment_not_uplift in E).
      rewrite od_get_set_ne
        by (intros E; symmetry in E;
            by apply col_on_treatment_not_on_control in E).
      rewrite od_get_del_ne by discriminate. apply od_get_set_eq.
    + rewrite od_get_set_ne
        by (intros E; symmetry in E; by apply col_on_control_not_uplift in E).
      apply od_get_set_eq.
    + apply od_get_set_eq.
  - destruct (Hold Hne) as (Ha & Hb & Hu).
    assert (forall n, In n (three_names pc L') ->
              od_get
                (od_set
                   (od_set
                      (od_del
                         (od_set (od_del (df_cols v) TREATMENT_FEATURE)
                            (col_on_treatment L pc) x1)
                         TREATMENT_FEATURE)
                      (col_on_control L pc) x2)
                   (col_uplift L) x3) n
              = od_get (df_cols v) n) as Hsame'.
    { intros n Hn.
      pose proof (three_names_disjoint pc L L' n (not_eq_sym Hne) Hn) as Hd.
      apply od_get_round.
      - by apply (three_names_not_flag pc L').
      - intros ->. apply Hd. simpl. auto.
      - intros ->. apply Hd. simpl. auto.
      - intros ->. apply Hd. simpl. auto. }
    unfold holds_predictions. simpl.
    rewrite !Hsame' by (simpl; auto). done.
Qed.

Lemma simulate_loop_values treatments : forall done (h : heap) v,
  (forall L, In L treatments -> In L all) ->
  h !! l = Some v -> agrees all pc v0 v ->
  (forall L, In L done -> holds_predictions pc v L (pt L) (pn L)) ->
  exists h' v',
    simulate_loop l learners pc treatments (map col_uplift done) h
    = (h', Ok (map col_uplift (done ++ treatments))) /\
    h' !! l = Some v' /\ df_index v' = df_index v /\
    (forall L, In L (done ++ treatments) ->
       holds_predictions pc v' L (pt L) (pn L)).
Proof using Hans.
  induction treatments as [|L rest IH]; intros done h v Hall Hl Hag Hdone.
  - exists h, v. simpl. rewrite app_nil_r.
    split; [done|]. split; [done|]. split; [done | exact Hdone].
  - destruct (simulate_round_values L rest (map col_uplift done) h v)
      as (h5 & E & Hl5); [apply Hall; by left | done | done |].
    destruct (IH (done ++ [L]) h5 _ (fun L' H' => Hall L' (or_intror H')) Hl5)
      as (h' & v' & E' & Hl' & Hi' & Hv').
    { apply agrees_round; [apply Hall; by left | done]. }
    { intros L' HL'. apply holds_predictions_round.
      - by intros ->.
      - intros Hne. apply Hdone. apply in_app_iff in HL'.
        destruct HL' as [?|[?|[]]]; [done | congruence]. }
    exists h', v'. rewrite E. rewrite map_app in E'. simpl in E'.
    rewrite E'. rewrite <- app_assoc in *. simpl in *.
    split; [done|]. split; [done|]. split; [exact Hi' | exact Hv'].
Qed.
End SimulateValues.


Lemma simulate_values_ok df treatments cn learners pc (h : heap) v0 pt pn :
  h !! df = Some v0 -> treatments <> [] ->
  answers_for treatments pc v0 learners pt pn ->
  exists h' vL,
    _simulate_treatment_effect df treatments cn learners pc h
    = (h', Ok (fresh_loc h)) /\
    h' !! fresh_loc h
    = Some (with_summary vL cn (map col_uplift treatments)) /\
    df_index vL = df_index v0 /\
    (forall L, In L treatments ->
       holds_predictions pc vL L (pt L) (pn L)).
Proof.
  intros Hdf Hne Hans.
  set (l := fresh_loc h). set (h0 := <[l := v0]> h).
  destruct (simulate_loop_values l learners pc treatments v0 pt pn Hans
              treatments [] h0 v0 (fun L H => H) (lookup_insert_eq _ _ _)
              (agrees_refl _ _ _))
    as (h1 & v1 & E1 & Hl1 & Hi1 & Hv1); [by intros L []|].
  simpl in E1, Hv1.
  assert (aggregate l cn (map col_uplift treatments) h1
          = (<[l := with_summary v1 cn (map col_uplift treatments)]> h1,
             Ok tt)) as Eagg.
  { apply aggregate_run; [done| | |].
    - by destruct treatments.
    - intros n Hn'. apply in_map_iff in Hn' as (L & <- & HL).
      destruct (Hv1 L HL) as (_ & _ & Hu).
      destruct (Hans L HL) as (_ & _ & Hft & Hfn & _).
      eexists. split; [exact Hu|]. by apply Forall_fsub_not_nan.
    - intros Hin. apply in_map_iff in Hin as (L & HL & _). discriminate HL. }
  exists (<[l := with_summary v1 cn (map col_uplift treatments)]> h1), v1.
  split.
  { unfold _simulate_treatment_effect.
    rewrite (bind_ok _ _ h h0 l) by (by apply copy_run).
    rewrite (bind_ok _ _ h0 h1 _ E1).
    by rewrite (bind_ok _ _ h1 _ tt Eagg). }
  split; [apply lookup_insert_eq|]. split; [exact Hi1 | exact Hv1].
Qed.

Lemma with_summary_holds v cn cols pc L a b :
  holds_predictions pc v L a b ->
  holds_predictions pc (with_summary v cn cols) L a b.
Proof.
  intros (Ha & Hb & Hu). unfold holds_predictions.
  rewrite !with_summary_get_other; try done;
    apply (generated_not_fixed L pc); auto.
Qed.

(** X16. When every predictor answers with a table of numbers under
    flag 1 and another under flag 0, the scored frame holds, for every
    treatment, the first table in the on-treatment column, the second in
    the on-control column and, in the uplift column, their binary64
    difference row by row (the difference as the processor rounds it, not
    the difference of the two reals): the repository's test of the
    simulator, for any tables and any list of treatments. *)
Theorem simulator_writes_predictions
  df treatments cn learners pc (h : heap) v0 pt pn :
  h !! df = Some v0 -> treatments <> [] ->
  answers_for treatments pc v0 learners pt pn ->
  exists h' l' out,
    _simulate_treatment_effect df treatments cn learners pc h = (h', Ok l') /\
    h' !! l' = Some out /\
    df_index out = df_index v0 /\
    (forall L, In L treatments ->
       holds_predictions pc out L (pt L) (pn L)).
Proof.
  intros Hdf Hne Hans.
  destruct (simulate_values_ok df treatments cn learners pc h v0 pt pn
              Hdf Hne Hans) as (h' & vL & E & Hl & Hi & Hv).
  exists h', (fresh_loc h), (with_summary vL cn (map col_uplift treatments)).
  split; [exact E|]. split; [exact Hl|]. split; [exact Hi|].
  intros L HL. by apply with_summary_holds, Hv.
Qed.

Lemma table_predictor_answers all v0 on_treatment on_control :
  (0 < nrows v0)%nat ->
  length on_treatment = nrows v0 -> length on_control = nrows v0 ->
  answers all "prediction" v0 (table_predictor on_treatment on_control)
    on_treatment on_control.
Proof.
  intros Hpos Ht Hc v b [Hi _].
  assert (nrows v = nrows v0) as Hn by (unfold nrows; by rewrite Hi).
  split; [done|].
  unfold table_predictor. cbn [snd].
  assert (od_get (df_cols (with_flag v b)) TREATMENT_FEATURE
          = Some (NumCol (repeat (if b then 1%float else 0%float) (nrows v))))
    as -> by apply od_get_set_eq.
  rewrite Hn. destruct (nrows v0) as [|n] eqn:E; [lia|]. cbn [repeat].
  assert ((if PrimFloat.eqb (if b then 1 else 0) 1 then on_treatment
           else on_control) = (if b then on_treatment else on_control)) as ->
    by (by destruct b).
  eexists. split.
  - apply df_setitem_ok. cbn [col_len].
    change (nrows (with_flag v b)) with (nrows v). rewrite Hn.
    by destruct b.
  - apply od_get_set_eq.
Qed.

Ltac answers_table :=
  (split; [reflexivity|]); (split; [reflexivity|]);
  (split; [finite_table|]); (split; [finite_table|]);
  eexists; (split; [reflexivity|]);
  (apply table_predictor_answers;
     [unfold nrows; simpl; lia | reflexivity | reflexivity]).

Lemma simulator_writes_predictions_witness :
  exists h' l' out,
    _simulate_treatment_effect 1%positive ["A"; "B"] "control" learners_A_B
      "prediction" (store1 df_four_rows) = (h', Ok l') /\
    h' !! l' = Some out /\
    df_index out = [0; 1; 2; 3]%Z /\
    holds_predictions "prediction" out "A"
      [0.3; 0.3; 0.0; 1.0]%float [0.2; 0.5; 0.3; 0.0]%float /\
    holds_predictions "prediction" out "B"
      [0.6; 0.7; 0.0; 1.0]%float [1.0; 0.5; 1.0; 1.0]%float /\
    od_get (df_cols out) "treatment_A__uplift"
      = Some (NumCol [0.09999999999999998; -0.2; -0.3; 1.0]%float).
Proof.
  destruct (simulator_writes_predictions 1%positive ["A"; "B"] "control"
              learners_A_B "prediction" (store1 df_four_rows) df_four_rows
              (fun L => if String.eqb L "A" then [0.3; 0.3; 0.0; 1.0]%float
                        else [0.6; 0.7; 0.0; 1.0]%float)
              (fun L => if String.eqb L "A" then [0.2; 0.5; 0.3; 0.0]%float
                        else [1.0; 0.5; 1.0; 1.0]%float)
              eq_refl ltac:(discriminate))
    as (h' & l' & out & E & Hl & Hi & Hv).
  - intros L [<-|[<-|[]]]; answers_table.
  - exists h', l', out. split; [exact E|]. split; [exact Hl|].
    split; [exact Hi|]. split; [|split].
    + apply (Hv "A"). by left.
    + apply (Hv "B"). right. by left.
    + destruct (Hv "A") as (_ & _ & Hu); [by left|]. exact Hu.
Defined.

(** ** Predictors that ignore the flag *)

Lemma nth_diff_self (t : list float) : Forall finite t -> forall i,
  nth i (map fsub (combine t t)) 0%float = 0%float.
Proof.
  induction 1 as [|q t Hq Ht IH]; intros [|i]; simpl; try reflexivity.
  - by apply fsub_diag.
  - apply IH.
Qed.

Lemma argmax_from_In (r : list (string * float)) : forall best,
  In (argmax_from best r) (best :: r).
Proof.
  induction r as [|y r IH]; intros best; simpl; [by left|].
  destruct (PrimFloat.ltb (snd best) (snd y)).
  - right. apply IH.
  - destruct (IH best) as [H|H]; [by left | right; by right].
Qed.

Lemma row_max_zero (r : list (string * float)) :
  r <> [] -> Forall (fun x => snd x = 0%float) r -> row_max r = 0%float.
Proof.
  destruct r as [|x r]; intros Hne Hall; [done|].
  rewrite row_max_argmax.
  - rewrite Forall_forall in Hall. apply Hall, list_elem_of_In, argmax_from_In.
  - eapply Forall_impl; [exact Hall|]. intros y Hy. simpl in Hy.
    unfold not_nan. by rewrite Hy.
Qed.

Lemma where_all_control cn (us : list float) :
  forall names : list (option string),
  Forall (fun q => q = 0%float) us -> length names = length us ->
  map strip_uplift
    (map (fun un : float * option string =>
            if PrimFloat.leb (fst un) 0 then cn else default "" (snd un))
       (combine us names))
  = repeat (strip_uplift cn) (length us).
Proof.
  induction us as [|u us IH]; intros [|n names] Hall Hlen; simpl in *;
    try done.
  apply Forall_cons_1 in Hall as [-> Hus].
  change (PrimFloat.leb 0 0) with true. cbv iota.
  f_equal. apply IH; [exact Hus | lia].
Qed.

Lemma Forall_eq_repeat {A} (c : A) (l : list A) :
  Forall (fun q => q = c) l -> l = repeat c (length l).
Proof. induction 1 as [|x l -> Hl IH]; simpl; [done|]. by f_equal. Qed.

(** X17. When every fitted predictor ignores the flag, that is, answers
    with the same numbers whether the flag column is all ones or all
    zeros, the scored frame's [uplift] column is zero on every row and
    [suggested_treatment] holds the control name (after the replacement of
    [__uplift]) on every row: a model that has not learnt any effect of
    the treatment makes the S-learner suggest the control for everyone. *)
Theorem flag_blind_predictors_suggest_control
  df treatments cn learners pc (h : heap) v0 (t : string -> list float) :
  h !! df = Some v0 -> treatments <> [] ->
  answers_for treatments pc v0 learners t t ->
  exists h' l' out,
    _simulate_treatment_effect df treatments cn learners pc h = (h', Ok l') /\
    h' !! l' = Some out /\
    od_get (df_cols out) "uplift"
      = Some (NumCol (repeat 0%float (nrows v0))) /\
    od_get (df_cols out) "suggested_treatment"
      = Some (StrCol (repeat (strip_uplift cn) (nrows v0))).
Proof.
  intros Hdf Hne Hans.
  destruct (simulate_values_ok df treatments cn learners pc h v0 t t Hdf Hne
              Hans) as (h' & vL & E & Hl & Hi & Hv).
  assert (nrows vL = nrows v0) as Hn by (unfold nrows; by rewrite Hi).
  set (cols := map col_uplift treatments) in *.
  assert (Forall (fun q => q = 0%float) (uplift_values vL cols)) as Hzero.
  { unfold uplift_values, max_axis1. apply Forall_map, Forall_forall.
    intros i _. simpl. rewrite row_at_block. apply row_max_zero.
    - unfold cols. by destruct treatments.
    - apply Forall_map, Forall_forall. intros n Hn'. simpl.
      apply list_elem_of_In, in_map_iff in Hn' as (L & <- & HL).
      destruct (Hv L HL) as (_ & _ & Hu).
      destruct (Hans L HL) as (_ & _ & Hft & _).
      unfold num_values. rewrite Hu. by apply nth_diff_self. }
  exists h', (fresh_loc h), (with_summary vL cn cols).
  split; [exact E|]. split; [exact Hl|]. split.
  - rewrite with_summary_get_uplift. do 2 f_equal.
    rewrite (Forall_eq_repeat _ _ Hzero) at 1.
    by rewrite uplift_values_length, Hn.
  - rewrite with_summary_get_suggested. do 2 f_equal.
    unfold suggested_values.
    rewrite where_all_control; [| exact Hzero |].
    + by rewrite uplift_values_length, Hn.
    + by rewrite idxmax_axis1_length, uplift_values_length.
Qed.

Lemma flag_blind_predictors_suggest_control_witness :
  exists h' l' out,
    _simulate_treatment_effect 1%positive ["A"; "B"] "control"
      learners_flag_blind "prediction" (store1 df_four_rows) = (h', Ok l') /\
    h' !! l' = Some out /\
    od_get (df_cols out) "uplift" = Some (NumCol [0; 0; 0; 0]%float) /\
    od_get (df_cols out) "suggested_treatment"
      = Some (StrCol ["control"; "control"; "control"; "control"]).
Proof.
  apply (flag_blind_predictors_suggest_control 1%positive ["A"; "B"] "control"
           learners_flag_blind "prediction" (store1 df_four_rows) df_four_rows
           (fun L => if String.eqb L "A" then [0.3; 0.3; 0.0; 1.0]%float
                     else [0.6; 0.7; 0.0; 1.0]%float)
           eq_refl ltac:(discriminate)).
  intros L [<-|[<-|[]]]; answers_table.
Defined.
